(** * Super-Mario-RL: the Q-networks of [SuperMario/agent/network.py]

    A shallow embedding of the two network classes of the agent,
    [DeepConvQNetwork] and [DuelingDeepConvQNetwork], together with the part
    of the tensor library they call ([torch.zeros], [Tensor.view],
    [Tensor.size], [Tensor.mean], broadcasting [+] and [-], [nn.Conv2d],
    [nn.ReLU], [nn.Flatten], [nn.Linear], [nn.Sequential]).

    Conventions of the embedding.
    - A tensor is a shape (a list of integers) with its entries in row-major
      order, as a contiguous tensor is stored.
    - Entries live in an arbitrary scalar structure [Scalar R].  Every sum
      of a layer and of [mean] is written as one left-to-right fold in a
      fixed order.  A floating-point library is free to add in another
      order, and in one that varies with the size of the batch, so an
      equality between values computed on different batches is stated in
      exact arithmetic, [ExactScalar] (a field of characteristic zero, e.g.
      [Qc]), where the order of a sum does not matter.  Statements about
      shapes, about exceptions and about the expression a result is
      computed by need no such assumption.
    - An exception is a value [Err e]; [__init__] returns [Err e] when the
      Python constructor raises, so that no instance exists in that case.
    - Freshly allocated parameters are filled from an arbitrary source of
      initial values [rng : nat -> nat -> R] ([rng k i] is entry [i] of the
      [k]-th parameter tensor allocated).  As [rng] is arbitrary, a statement
      about every constructed network is a statement about every assignment
      of parameter values to the architecture, trained or not.
    - Sizes are unbounded integers; memory limits are not modelled.  Moving
      a tensor to a device keeps its shape and entries, so devices appear
      only as an attribute of the instance.  The library's record of which
      operations to differentiate is not modelled. *)

From Stdlib Require Import ZArith List Lia Bool ZifyBool.
From Stdlib Require Import QArith Qcanon Field.
Import ListNotations.
Local Open Scope Z_scope.

Set Warnings "-register-all".

(** ** Exceptions and the error monad *)

(** What a shape check of the tensor library complains about; each is a
    [RuntimeError] in Python. *)
Inductive shape_fault : Type :=
| NegativeDimension   (* "Trying to create tensor with negative dimension" *)
| BadRank             (* conv2d: "Expected 3D (unbatched) or 4D (batched) input" *)
| ChannelMismatch     (* conv2d: "expected input to have c channels" *)
| KernelTooLarge      (* conv2d: "Kernel size can't be greater than actual input size" *)
| BadStride           (* conv2d: "non-positive stride is not supported" *)
| InvalidView         (* view: "shape is invalid for input of size n" *)
| MatMulMismatch      (* linear: "mat1 and mat2 shapes cannot be multiplied" *)
| BroadcastMismatch.  (* "The size of tensor a must match the size of tensor b" *)

Inductive error : Type :=
| IndexError                       (* tuple index or dimension out of range *)
| RuntimeError (f : shape_fault).

Inductive result (A : Type) : Type :=
| Ok (a : A)
| Err (e : error).

Arguments Ok {A} a.
Arguments Err {A} e.

Definition bind {A B : Type} (c : result A) (k : A -> result B) : result B :=
  match c with
  | Ok a => k a
  | Err e => Err e
  end.

Notation "x <- c ;; k" := (bind c (fun x => k))
  (at level 61, c at next level, right associativity).

(** ** Scalars *)

Class Scalar (R : Type) : Type := {
  s_zero : R;
  s_one : R;
  s_add : R -> R -> R;
  s_mul : R -> R -> R;
  s_sub : R -> R -> R;
  s_opp : R -> R;
  s_div : R -> R -> R;
  s_inv : R -> R;
  s_leb : R -> R -> bool;
  s_of_Z : Z -> R
}.

(** Exact arithmetic: the operations form a field of characteristic zero and
    [s_of_Z] is the canonical embedding of the integers. *)
Class ExactScalar (R : Type) {S : Scalar R} : Prop := {
  exact_field :
    field_theory s_zero s_one s_add s_mul s_sub s_opp s_div s_inv (@eq R);
  of_Z_0 : s_of_Z 0 = s_zero;
  of_Z_1 : s_of_Z 1 = s_one;
  of_Z_add : forall a b, s_of_Z (a + b) = s_add (s_of_Z a) (s_of_Z b);
  of_Z_mul : forall a b, s_of_Z (a * b) = s_mul (s_of_Z a) (s_of_Z b);
  of_Z_nonzero : forall a, a <> 0 -> s_of_Z a <> s_zero
}.

(** The rationals in canonical form are the exact instance used in examples. *)
#[export] Instance Qc_Scalar : Scalar Qc := {
  s_zero := 0%Qc;
  s_one := 1%Qc;
  s_add := Qcplus;
  s_mul := Qcmult;
  s_sub := Qcminus;
  s_opp := Qcopp;
  s_div := Qcdiv;
  s_inv := Qcinv;
  s_leb := fun a b => Qle_bool (this a) (this b);
  s_of_Z := fun z => Q2Qc (inject_Z z)
}.

(** ** Integer ranges and shapes *)

(** [range(n)]: the integers [0 .. n-1]; empty when [n <= 0]. *)
Definition zrange (n : Z) : list Z := map Z.of_nat (seq 0 (Z.to_nat n)).

(** Number of entries of a tensor of the given shape. *)
Definition numel (s : list Z) : Z := fold_right Z.mul 1 s.

(** Python's [t[i]] on a tuple, for a non-negative literal index. *)
Definition tuple_get (t : list Z) (i : nat) : result Z :=
  match nth_error t i with
  | Some v => Ok v
  | None => Err IndexError
  end.

(** Output extent of an unpadded-or-padded strided window:
    [floor((d + 2p - k) / s) + 1]. *)
Definition conv_out (d k s p : Z) : Z := (d + 2 * p - k) / s + 1.

Section Torch.

Context {R : Type} {SR : Scalar R}.

(** ** Tensors *)

Record Tensor : Type := mkTensor {
  shape : list Z;
  data : list R
}.

(** Entry [i] of a flat list of scalars. *)
Definition at_ (l : list R) (i : Z) : R := nth (Z.to_nat i) l s_zero.

(** [l[start : start+len]]. *)
Definition slice (l : list R) (start len : Z) : list R :=
  firstn (Z.to_nat len) (skipn (Z.to_nat start) l).

(** Left-to-right sum. *)
Definition sum (l : list R) : R := fold_left s_add l s_zero.

(** [torch.zeros] on the listed sizes. *)
Definition torch_zeros (sizes : list Z) : result Tensor :=
  if existsb (fun d => d <? 0) sizes then Err (RuntimeError NegativeDimension)
  else Ok {| shape := sizes;
             data := repeat s_zero (Z.to_nat (numel sizes)) |}.

(** [nn.Parameter(torch.empty(sizes))] followed by the layer's
    [reset_parameters]: the entries are drawn from [g]. *)
Definition new_parameter (g : nat -> R) (sizes : list Z) : result Tensor :=
  if existsb (fun d => d <? 0) sizes then Err (RuntimeError NegativeDimension)
  else Ok {| shape := sizes;
             data := map g (seq 0 (Z.to_nat (numel sizes))) |}.

(** [t.size(i)]. *)
Definition size (t : Tensor) (i : nat) : result Z :=
  match nth_error (shape t) i with
  | Some d => Ok d
  | None => Err IndexError
  end.

(** Shape inference of [view]: [n] is the number of entries of the tensor,
    and at most one entry of [sizes] is [-1]. *)
Definition view_shape (n : Z) (sizes : list Z) : result (list Z) :=
  if existsb (fun d => d <? -1) sizes then Err (RuntimeError InvalidView)
  else
    match count_occ Z.eq_dec sizes (-1) with
    | O =>
        if numel sizes =? n then Ok sizes else Err (RuntimeError InvalidView)
    | S O =>
        let known := numel (remove Z.eq_dec (-1) sizes) in
        if known =? 0 then Err (RuntimeError InvalidView)
        else if n mod known =? 0
        then Ok (map (fun d => if d =? -1 then n / known else d) sizes)
        else Err (RuntimeError InvalidView)
    | _ => Err (RuntimeError InvalidView)
    end.

(** [t.view] on the listed sizes: the same entries under another shape. *)
Definition view (t : Tensor) (sizes : list Z) : result Tensor :=
  s <- view_shape (numel (shape t)) sizes ;;
  Ok {| shape := s; data := data t |}.

(** [t.mean()]: a 0-dimensional tensor holding the sum of all entries
    divided by their number. *)
Definition mean (t : Tensor) : Tensor :=
  {| shape := [];
     data := [s_div (sum (data t)) (s_of_Z (numel (shape t)))] |}.

(** *** Broadcasting *)

(** Shapes are aligned at their last dimension: both functions below work on
    reversed shapes. *)
Fixpoint broadcast_rev (r1 r2 : list Z) : option (list Z) :=
  match r1, r2 with
  | [], r => Some r
  | r, [] => Some r
  | a :: r1', b :: r2' =>
      match broadcast_rev r1' r2' with
      | None => None
      | Some r =>
          if a =? b then Some (a :: r)
          else if a =? 1 then Some (b :: r)
          else if b =? 1 then Some (a :: r)
          else None
      end
  end.

(** The multi-index (last coordinate first) of flat position [k]. *)
Fixpoint unravel_rev (k : Z) (rshape : list Z) : list Z :=
  match rshape with
  | [] => []
  | d :: r => (k mod d) :: unravel_rev (k / d) r
  end.

(** The flat position, in a tensor of reversed shape [rshape], that a
    multi-index of the broadcast result reads: coordinates along dimensions
    of extent 1 are ignored, as are leading dimensions the tensor lacks. *)
Fixpoint ravel_rev (ridx rshape : list Z) : Z :=
  match ridx, rshape with
  | i :: ri, d :: rs => (if d =? 1 then 0 else i) + d * ravel_rev ri rs
  | _, _ => 0
  end.

Definition broadcast_shape (s1 s2 : list Z) : result (list Z) :=
  match broadcast_rev (rev s1) (rev s2) with
  | None => Err (RuntimeError BroadcastMismatch)
  | Some r => Ok (rev r)
  end.

Definition broadcast_op (f : R -> R -> R) (a b : Tensor) : result Tensor :=
  s <- broadcast_shape (shape a) (shape b) ;;
  Ok {| shape := s;
        data :=
          map (fun k =>
                 let idx := unravel_rev k (rev s) in
                 f (at_ (data a) (ravel_rev idx (rev (shape a))))
                   (at_ (data b) (ravel_rev idx (rev (shape b)))))
              (zrange (numel s)) |}.

(** [a + b] and [a - b] on tensors. *)
Definition tensor_add : Tensor -> Tensor -> result Tensor := broadcast_op s_add.
Definition tensor_sub : Tensor -> Tensor -> result Tensor := broadcast_op s_sub.

End Torch.

Arguments Tensor R : clear implicits.

(** ** Layers of [torch.nn] *)

Section Layers.

Context {R : Type} {SR : Scalar R}.

(** *** [nn.Conv2d] with square kernel, dilation 1 and a single group *)

Record Conv2d : Type := mkConv2d {
  in_channels : Z;
  out_channels : Z;
  kernel_size : Z;
  stride : Z;
  padding : Z;
  conv_weight : Tensor R;          (* shape (out, in, k, k) *)
  conv_bias : option (Tensor R)    (* shape (out); [None] for bias=False *)
}.

(** [nn.Conv2d(in_channels, out_channels, kernel_size, stride)]: the
    remaining arguments keep their defaults, [padding=0] and [bias=True].
    Allocation of the weight raises on a negative extent. *)
Definition nn_Conv2d (gw gb : nat -> R) (cin cout k s : Z) : result Conv2d :=
  w <- new_parameter gw [cout; cin; k; k] ;;
  b <- new_parameter gb [cout] ;;
  Ok {| in_channels := cin; out_channels := cout; kernel_size := k;
        stride := s; padding := 0; conv_weight := w; conv_bias := Some b |}.

(** The shape checks of the convolution on a batch of [B] samples of
    [C] channels of [H] rows and [W] columns; the result is the output
    height and width.  A batch without samples gives an output without
    samples.  Samples without channels have no entries to produce a
    non-empty output from, and the call of the stack raises; the model
    raises at this layer (the library may instead pass a tensor without
    channels on and raise at the channel check of the next convolution). *)
Definition conv2d_check (m : Conv2d) (B C H W : Z) : result (Z * Z) :=
  let k := kernel_size m in
  let p := padding m in
  if negb (C =? in_channels m) then Err (RuntimeError ChannelMismatch)
  else if stride m <=? 0 then Err (RuntimeError BadStride)
  else if (H + 2 * p <? k) || (W + 2 * p <? k)
  then Err (RuntimeError KernelTooLarge)
  else
    let OH := conv_out H k (stride m) p in
    let OW := conv_out W k (stride m) p in
    if B =? 0 then Ok (OH, OW)
    else if (C =? 0) && negb (B * (out_channels m * (OH * OW)) =? 0)
    then Err (RuntimeError InvalidView)
    else Ok (OH, OW).

(** Entry [(c, r, q)] of one sample, zero in the padding. *)
Definition pad_at (x : list R) (H W c r q : Z) : R :=
  if (0 <=? r) && (r <? H) && (0 <=? q) && (q <? W)
  then at_ x ((c * H + r) * W + q)
  else s_zero.

Definition bias_at (b : option (Tensor R)) (o : Z) : R :=
  match b with
  | Some t => at_ (data t) o
  | None => s_zero
  end.

(** Output entry [(o, i, j)] of one sample: the bias plus the weighted sum
    over the window. *)
Definition conv2d_at (m : Conv2d) (C H W : Z) (x : list R) (o i j : Z) : R :=
  let k := kernel_size m in
  fold_left
    (fun acc c =>
       fold_left
         (fun acc ki =>
            fold_left
              (fun acc kj =>
                 s_add acc
                   (s_mul
                      (at_ (data (conv_weight m))
                           (((o * C + c) * k + ki) * k + kj))
                      (pad_at x H W c
                              (i * stride m + ki - padding m)
                              (j * stride m + kj - padding m))))
              (zrange k) acc)
         (zrange k) acc)
    (zrange C) (bias_at (conv_bias m) o).

(** All output entries of one sample, in row-major order. *)
Definition conv2d_sample (m : Conv2d) (C H W OH OW : Z) (x : list R) : list R :=
  flat_map
    (fun o =>
       flat_map
         (fun i => map (fun j => conv2d_at m C H W x o i j) (zrange OW))
         (zrange OH))
    (zrange (out_channels m)).

(** Shape inference of the convolution: a 4-dimensional input is a batch,
    a 3-dimensional one a single unbatched sample. *)
Definition conv2d_shape (m : Conv2d) (s : list Z) : result (list Z) :=
  match s with
  | [B; C; H; W] =>
      hw <- conv2d_check m B C H W ;;
      Ok [B; out_channels m; fst hw; snd hw]
  | [C; H; W] =>
      hw <- conv2d_check m 1 C H W ;;
      Ok [out_channels m; fst hw; snd hw]
  | _ => Err (RuntimeError BadRank)
  end.

(** The entries of the output, sample after sample. *)
Definition conv2d_data (m : Conv2d) (x : Tensor R) (out : list Z) : list R :=
  match shape x, out with
  | [B; C; H; W], [_; _; OH; OW] =>
      flat_map
        (fun b =>
           conv2d_sample m C H W OH OW
             (slice (data x) (b * (C * (H * W))) (C * (H * W))))
        (zrange B)
  | [C; H; W], [_; OH; OW] => conv2d_sample m C H W OH OW (data x)
  | _, _ => []
  end.

(** [Conv2d.forward]. *)
Definition conv2d (m : Conv2d) (x : Tensor R) : result (Tensor R) :=
  s <- conv2d_shape m (shape x) ;;
  Ok {| shape := s; data := conv2d_data m x s |}.

(** *** [nn.Linear] *)

Record Linear : Type := mkLinear {
  in_features : Z;
  out_features : Z;
  lin_weight : Tensor R;           (* shape (out, in) *)
  lin_bias : option (Tensor R)     (* shape (out) *)
}.

(** [nn.Linear(in_features, out_features)], with [bias=True]. *)
Definition nn_Linear (gw gb : nat -> R) (fin fout : Z) : result Linear :=
  w <- new_parameter gw [fout; fin] ;;
  b <- new_parameter gb [fout] ;;
  Ok {| in_features := fin; out_features := fout;
        lin_weight := w; lin_bias := Some b |}.

(** One row of the output: [x W^T + b]. *)
Definition linear_row (m : Linear) (x : list R) : list R :=
  map
    (fun o =>
       fold_left
         (fun acc k =>
            s_add acc
              (s_mul (at_ (data (lin_weight m)) (o * in_features m + k))
                     (at_ x k)))
         (zrange (in_features m)) (bias_at (lin_bias m) o))
    (zrange (out_features m)).

(** Shape inference of [Linear.forward]: it acts on the last dimension,
    which has to be [in_features]; all leading dimensions are rows. *)
Definition linear_shape (m : Linear) (s : list Z) : result (list Z) :=
  match rev s with
  | [] => Err (RuntimeError MatMulMismatch)
  | d :: lead =>
      if d =? in_features m
      then Ok (rev lead ++ [out_features m])
      else Err (RuntimeError MatMulMismatch)
  end.

(** [Linear.forward]. *)
Definition linear (m : Linear) (x : Tensor R) : result (Tensor R) :=
  s <- linear_shape m (shape x) ;;
  Ok {| shape := s;
        data :=
          flat_map
            (fun r =>
               linear_row m
                 (slice (data x) (r * in_features m) (in_features m)))
            (zrange (numel (removelast (shape x)))) |}.

(** *** [nn.ReLU] and [nn.Flatten] *)

Definition relu_scalar (v : R) : R := if s_leb v s_zero then s_zero else v.

Definition relu (x : Tensor R) : Tensor R :=
  {| shape := shape x; data := map relu_scalar (data x) |}.

(** [nn.Flatten()], that is [start_dim=1, end_dim=-1]: all dimensions after
    the first are merged.  A tensor of fewer than two dimensions has no
    dimension 1: "Dimension out of range", an [IndexError]. *)
Definition flatten_shape (s : list Z) : result (list Z) :=
  match s with
  | d0 :: (_ :: _) as rest => Ok [d0; numel rest]
  | _ => Err IndexError
  end.

Definition flatten (x : Tensor R) : result (Tensor R) :=
  s <- flatten_shape (shape x) ;;
  Ok {| shape := s; data := data x |}.

(** *** Modules and [nn.Sequential] *)

Inductive nn_Module : Type :=
| Conv2d_ (m : Conv2d)
| ReLU
| Flatten
| Linear_ (m : Linear)
| Sequential (ms : list nn_Module).

(** Calling a module on a tensor. *)
Fixpoint call (m : nn_Module) (x : Tensor R) : result (Tensor R) :=
  match m with
  | Conv2d_ c => conv2d c x
  | ReLU => Ok (relu x)
  | Flatten => flatten x
  | Linear_ l => linear l x
  | Sequential ms =>
      (fix run (ms : list nn_Module) (x : Tensor R) : result (Tensor R) :=
         match ms with
         | [] => Ok x
         | m :: ms' => y <- call m x ;; run ms' y
         end) ms x
  end.

(** [Module.parameters()]: the parameter tensors in registration order. *)
Definition opt_list (b : option (Tensor R)) : list (Tensor R) :=
  match b with Some t => [t] | None => [] end.

Fixpoint parameters (m : nn_Module) : list (Tensor R) :=
  match m with
  | Conv2d_ c => conv_weight c :: opt_list (conv_bias c)
  | ReLU => []
  | Flatten => []
  | Linear_ l => lin_weight l :: opt_list (lin_bias l)
  | Sequential ms =>
      (fix all (ms : list nn_Module) : list (Tensor R) :=
         match ms with
         | [] => []
         | m :: ms' => parameters m ++ all ms'
         end) ms
  end.

End Layers.

Arguments Conv2d R : clear implicits.
Arguments Linear R : clear implicits.
Arguments nn_Module R : clear implicits.

(** ** The networks of [network.py] *)

(** Where a module lives; moving a tensor between devices keeps its shape
    and entries. *)
Inductive Device : Type := cpu | cuda.

Definition to_device {R : Type} (x : Tensor R) (d : Device) : Tensor R := x.

(** The convolutional stack both constructors build (lines 32-39 and
    115-122 are the same expression); [c] is [input_dim[0]]. *)
Definition make_conv {R : Type} {SR : Scalar R}
    (rng : nat -> nat -> R) (c : Z) : result (nn_Module R) :=
  c1 <- nn_Conv2d (rng 0%nat) (rng 1%nat) c 32 8 4 ;;
  c2 <- nn_Conv2d (rng 2%nat) (rng 3%nat) 32 64 4 2 ;;
  c3 <- nn_Conv2d (rng 4%nat) (rng 5%nat) 64 64 3 1 ;;
  Ok (Sequential [Conv2d_ c1; ReLU; Conv2d_ c2; ReLU; Conv2d_ c3; ReLU]).

Module DeepConvQNetwork.
Section Def.

Context {R : Type} {SR : Scalar R}.

(** The attributes of an instance.  [self.network] has [self.conv] itself
    as its first child, not a copy: the record stores the stack once and
    [network_tail] holds the children of [self.network] after it. *)
Record t : Type := mk {
  input_dim : list Z;
  output_dim : Z;
  conv : nn_Module R;
  fc_input_dim : Z;
  network_tail : list (nn_Module R);
  device : Device
}.

Definition network (self : t) : nn_Module R :=
  Sequential (conv self :: network_tail self).

(** [feature_size(self)] reads [self.conv] and [self.input_dim], the
    attributes set when [__init__] calls it.  [torch.autograd.Variable]
    returns its argument. *)
Definition feature_size (conv : nn_Module R) (input_dim : list Z) : result Z :=
  x <- torch_zeros (1 :: input_dim) ;;
  y <- call conv x ;;
  v <- view y [1; -1] ;;
  size v 1.

(** [__init__(self, input_dim, output_dim)]; [cuda_available] is the value
    of [torch.cuda.is_available()]. *)
Definition __init__ (rng : nat -> nat -> R) (cuda_available : bool)
    (input_dim : list Z) (output_dim : Z) : result t :=
  c <- tuple_get input_dim 0 ;;
  conv <- make_conv rng c ;;
  fc_input_dim <- feature_size conv input_dim ;;
  l1 <- nn_Linear (rng 6%nat) (rng 7%nat) fc_input_dim 512 ;;
  l2 <- nn_Linear (rng 8%nat) (rng 9%nat) 512 output_dim ;;
  Ok {| input_dim := input_dim;
        output_dim := output_dim;
        conv := conv;
        fc_input_dim := fc_input_dim;
        network_tail := [Flatten; Linear_ l1; ReLU; Linear_ l2];
        device := if cuda_available then cuda else cpu |}.

(** [forward(self, state)]. *)
Definition forward (self : t) (state : Tensor R) : result (Tensor R) :=
  let state := to_device state (device self) in
  qvals <- call (network self) state ;;
  Ok qvals.

(** [self.parameters()]: the parameters of the children in registration
    order, each once; those of [self.conv] are the same tensors under
    [self.network]. *)
Definition parameters (self : t) : list (Tensor R) :=
  parameters (network self).

End Def.
End DeepConvQNetwork.

Module DuelingDeepConvQNetwork.
Section Def.

Context {R : Type} {SR : Scalar R}.

Record t : Type := mk {
  input_dim : list Z;
  output_dim : Z;
  conv : nn_Module R;
  fc_input_dim : Z;
  value_stream : nn_Module R;
  advantage_stream : nn_Module R
}.

(** [feature_size(self)], as in the other class. *)
Definition feature_size (conv : nn_Module R) (input_dim : list Z) : result Z :=
  x <- torch_zeros (1 :: input_dim) ;;
  y <- call conv x ;;
  v <- view y [1; -1] ;;
  size v 1.

(** [__init__(self, input_dim, output_dim)]. *)
Definition __init__ (rng : nat -> nat -> R)
    (input_dim : list Z) (output_dim : Z) : result t :=
  c <- tuple_get input_dim 0 ;;
  conv <- make_conv rng c ;;
  fc_input_dim <- feature_size conv input_dim ;;
  v1 <- nn_Linear (rng 6%nat) (rng 7%nat) fc_input_dim 128 ;;
  v2 <- nn_Linear (rng 8%nat) (rng 9%nat) 128 1 ;;
  a1 <- nn_Linear (rng 10%nat) (rng 11%nat) fc_input_dim 128 ;;
  a2 <- nn_Linear (rng 12%nat) (rng 13%nat) 128 output_dim ;;
  Ok {| input_dim := input_dim;
        output_dim := output_dim;
        conv := conv;
        fc_input_dim := fc_input_dim;
        value_stream := Sequential [Linear_ v1; ReLU; Linear_ v2];
        advantage_stream := Sequential [Linear_ a1; ReLU; Linear_ a2] |}.

(** [forward(self, state)]. *)
Definition forward (self : t) (state : Tensor R) : result (Tensor R) :=
  features <- call (conv self) state ;;
  n0 <- size features 0 ;;
  features <- view features [n0; -1] ;;
  values <- call (value_stream self) features ;;
  advantages <- call (advantage_stream self) features ;;
  centred <- tensor_sub advantages (mean advantages) ;;
  qvals <- tensor_add values centred ;;
  Ok qvals.

(** [self.parameters()]. *)
Definition parameters (self : t) : list (Tensor R) :=
  parameters (conv self) ++ parameters (value_stream self) ++
  parameters (advantage_stream self).

End Def.
End DuelingDeepConvQNetwork.

(** ** Shape-level semantics of a module

    Whether a call succeeds, which exception it raises and which shape it
    returns depend on the shape of the argument and on the sizes stored in
    the layers, never on entries. *)

Definition rmap {A B : Type} (f : A -> B) (c : result A) : result B :=
  match c with
  | Ok a => Ok (f a)
  | Err e => Err e
  end.

Fixpoint call_shape {R : Type} (m : nn_Module R) (s : list Z)
  : result (list Z) :=
  match m with
  | Conv2d_ c => conv2d_shape c s
  | ReLU => Ok s
  | Flatten => flatten_shape s
  | Linear_ l => linear_shape l s
  | Sequential ms =>
      (fix run (ms : list (nn_Module R)) (s : list Z) : result (list Z) :=
         match ms with
         | [] => Ok s
         | m :: ms' => s' <- call_shape m s ;; run ms' s'
         end) ms s
  end.

(** The extent the three stages leave of an extent [d]. *)
Definition trunk_out (d : Z) : Z :=
  conv_out (conv_out (conv_out d 8 4 0) 4 2 0) 3 1 0.

(** ** What the constructors of the layers return *)

Section ConstructorValues.

Context {R : Type} {SR : Scalar R}.

(** The parameter tensor [new_parameter] returns when it returns one. *)
Definition parameter_of (g : nat -> R) (sizes : list Z) : Tensor R :=
  {| shape := sizes; data := map g (seq 0 (Z.to_nat (numel sizes))) |}.

Definition conv_layer (gw gb : nat -> R) (cin cout k s : Z) : Conv2d R :=
  {| in_channels := cin; out_channels := cout; kernel_size := k;
     stride := s; padding := 0;
     conv_weight := parameter_of gw [cout; cin; k; k];
     conv_bias := Some (parameter_of gb [cout]) |}.

Definition linear_layer (gw gb : nat -> R) (fin fout : Z) : Linear R :=
  {| in_features := fin; out_features := fout;
     lin_weight := parameter_of gw [fout; fin];
     lin_bias := Some (parameter_of gb [fout]) |}.

(** The stack [make_conv] returns when it returns one. *)
Definition trunk (rng : nat -> nat -> R) (c : Z) : nn_Module R :=
  Sequential
    [Conv2d_ (conv_layer (rng 0%nat) (rng 1%nat) c 32 8 4); ReLU;
     Conv2d_ (conv_layer (rng 2%nat) (rng 3%nat) 32 64 4 2); ReLU;
     Conv2d_ (conv_layer (rng 4%nat) (rng 5%nat) 64 64 3 1); ReLU].

(** Number of features the trunk leaves of one sample of [h] rows and [w]
    columns: the entries of a tensor of shape [(1, 64, h', w')]. *)
Definition feature_width (h w : Z) : Z :=
  numel [1; 64; trunk_out h; trunk_out w].

(** The entries a linear layer returns for [b] rows stored in [d]. *)
Definition linear_data (m : Linear R) (b : Z) (d : list R) : list R :=
  flat_map
    (fun r => linear_row m (slice d (r * in_features m) (in_features m)))
    (zrange b).

(** The entries the head of [DeepConvQNetwork] returns for the features [d]
    of [b] samples. *)
Definition q_head (rng : nat -> nat -> R) (h w n b : Z) (d : list R) : list R :=
  linear_data (linear_layer (rng 8%nat) (rng 9%nat) 512 n) b
    (map relu_scalar
       (linear_data
          (linear_layer (rng 6%nat) (rng 7%nat) (feature_width h w) 512) b d)).

(** The two streams of [DuelingDeepConvQNetwork], likewise. *)
Definition value_head (rng : nat -> nat -> R) (h w b : Z) (d : list R) : list R :=
  linear_data (linear_layer (rng 8%nat) (rng 9%nat) 128 1) b
    (map relu_scalar
       (linear_data
          (linear_layer (rng 6%nat) (rng 7%nat) (feature_width h w) 128) b d)).

Definition advantage_head (rng : nat -> nat -> R) (h w n b : Z) (d : list R)
  : list R :=
  linear_data (linear_layer (rng 12%nat) (rng 13%nat) 128 n) b
    (map relu_scalar
       (linear_data
          (linear_layer (rng 10%nat) (rng 11%nat) (feature_width h w) 128) b d)).

(** The entries of [values + (advantages - advantages.mean())] for a column
    [v] of [b] values and [b] rows [a] of [n] advantages: position [k] lies
    in row [k / n]. *)
Definition dueling_data (v a : list R) (b n : Z) : list R :=
  map (fun k =>
         s_add (at_ v (k / n))
               (s_sub (at_ a k) (s_div (sum a) (s_of_Z (b * n)))))
      (zrange (b * n)).

(** The instance [DeepConvQNetwork.__init__] returns when it returns one. *)
Definition q_network (rng : nat -> nat -> R) (cuda_available : bool)
    (c h w n : Z) : DeepConvQNetwork.t :=
  {| DeepConvQNetwork.input_dim := [c; h; w];
     DeepConvQNetwork.output_dim := n;
     DeepConvQNetwork.conv := trunk rng c;
     DeepConvQNetwork.fc_input_dim := feature_width h w;
     DeepConvQNetwork.network_tail :=
       [Flatten;
        Linear_ (linear_layer (rng 6%nat) (rng 7%nat) (feature_width h w) 512);
        ReLU;
        Linear_ (linear_layer (rng 8%nat) (rng 9%nat) 512 n)];
     DeepConvQNetwork.device := if cuda_available then cuda else cpu |}.

(** The instance [DuelingDeepConvQNetwork.__init__] returns when it returns
    one. *)
Definition dueling_network (rng : nat -> nat -> R) (c h w n : Z)
  : DuelingDeepConvQNetwork.t :=
  {| DuelingDeepConvQNetwork.input_dim := [c; h; w];
     DuelingDeepConvQNetwork.output_dim := n;
     DuelingDeepConvQNetwork.conv := trunk rng c;
     DuelingDeepConvQNetwork.fc_input_dim := feature_width h w;
     DuelingDeepConvQNetwork.value_stream :=
       Sequential
         [Linear_ (linear_layer (rng 6%nat) (rng 7%nat) (feature_width h w) 128);
          ReLU;
          Linear_ (linear_layer (rng 8%nat) (rng 9%nat) 128 1)];
     DuelingDeepConvQNetwork.advantage_stream :=
       Sequential
         [Linear_ (linear_layer (rng 10%nat) (rng 11%nat) (feature_width h w) 128);
          ReLU;
          Linear_ (linear_layer (rng 12%nat) (rng 13%nat) 128 n)] |}.

(** The steps both constructors start with: indexing the tuple, building
    the stack, inferring the feature width. *)
Definition shared_steps (rng : nat -> nat -> R) (idim : list Z)
  : result (nn_Module R * Z) :=
  c <- tuple_get idim 0 ;;
  conv <- make_conv rng c ;;
  fc <- DeepConvQNetwork.feature_size conv idim ;;
  Ok (conv, fc).

End ConstructorValues.

(** ** Batches of copies *)

(** [torch.cat([x] * k)] for a batch [x] of one sample: the batch of [k]
    copies of that sample. *)
Definition tile {R : Type} (k : Z) (x : Tensor R) : Tensor R :=
  {| shape := k :: tl (shape x);
     data := concat (repeat (data x) (Z.to_nat k)) |}.

(** [torch.stack(xs)] for samples [xs] of shape [s], each given by its
    entries: the batch holding them in order. *)
Definition stack {R : Type} (s : list Z) (xs : list (list R)) : Tensor R :=
  {| shape := Z.of_nat (length xs) :: s; data := concat xs |}.

(** The entries the trunk returns for one sample of [c] channels, [h] rows
    and [w] columns with entries [d]. *)
Definition trunk_data {R : Type} {SR : Scalar R} (rng : nat -> nat -> R)
    (c h w : Z) (d : list R) : list R :=
  let h1 := conv_out h 8 4 0 in
  let w1 := conv_out w 8 4 0 in
  let h2 := conv_out h1 4 2 0 in
  let w2 := conv_out w1 4 2 0 in
  let h3 := conv_out h2 3 1 0 in
  let w3 := conv_out w2 3 1 0 in
  map relu_scalar
    (conv2d_sample (conv_layer (rng 4%nat) (rng 5%nat) 64 64 3 1)
       64 h2 w2 h3 w3
       (map relu_scalar
          (conv2d_sample (conv_layer (rng 2%nat) (rng 3%nat) 32 64 4 2)
             32 h1 w1 h2 w2
             (map relu_scalar
                (conv2d_sample (conv_layer (rng 0%nat) (rng 1%nat) c 32 8 4)
                   c h w h1 w1 d))))).

(** What two linear layers with an activation between them return for one
    row [d]. *)
Definition two_layer_row {R : Type} {SR : Scalar R} (l1 l2 : Linear R)
    (d : list R) : list R :=
  linear_row l2 (map relu_scalar (linear_row l1 d)).

(** The row of Q-values [DeepConvQNetwork] computes for one sample, and the
    value and the row of advantages the two streams of
    [DuelingDeepConvQNetwork] compute for one sample. *)
Definition q_row {R : Type} {SR : Scalar R} (rng : nat -> nat -> R)
    (c h w n : Z) (d : list R) : list R :=
  two_layer_row
    (linear_layer (rng 6%nat) (rng 7%nat) (feature_width h w) 512)
    (linear_layer (rng 8%nat) (rng 9%nat) 512 n)
    (trunk_data rng c h w d).

Definition value_row {R : Type} {SR : Scalar R} (rng : nat -> nat -> R)
    (c h w : Z) (d : list R) : list R :=
  two_layer_row
    (linear_layer (rng 6%nat) (rng 7%nat) (feature_width h w) 128)
    (linear_layer (rng 8%nat) (rng 9%nat) 128 1)
    (trunk_data rng c h w d).

Definition advantage_row {R : Type} {SR : Scalar R} (rng : nat -> nat -> R)
    (c h w n : Z) (d : list R) : list R :=
  two_layer_row
    (linear_layer (rng 10%nat) (rng 11%nat) (feature_width h w) 128)
    (linear_layer (rng 12%nat) (rng 13%nat) 128 n)
    (trunk_data rng c h w d).

(** ** Data of the examples *)

(** All initial values zero, over the rationals. *)
Definition rng0 : nat -> nat -> Qc := fun _ _ => 0%Qc.

(** A batch of [b] blank frames of [c] channels, [h] rows and [w] columns. *)
Definition blank (b c h w : Z) : Tensor Qc :=
  {| shape := [b; c; h; w];
     data := repeat 0%Qc (Z.to_nat (b * (c * (h * w)))) |}.

(** What it means for a stage of the trunk to be a convolution of [cin] to
    [cout] channels with a [k] by [k] kernel, stride [s], no padding and a
    bias among its parameters. *)
Definition stage {R : Type} (m : Conv2d R) (cin cout k s : Z) : Prop :=
  in_channels m = cin /\ out_channels m = cout /\
  kernel_size m = k /\ stride m = s /\ padding m = 0 /\
  shape (conv_weight m) = [cout; cin; k; k] /\
  exists b, conv_bias m = Some b /\ shape b = [cout].

(** The advantages [[1, 2, 3], [4, 5, 6]] and the values [[10], [20]]. *)
Definition of_ints (l : list Z) : list Qc := map (fun z => Q2Qc (inject_Z z)) l.

Definition example_advantages : Tensor Qc :=
  {| shape := [2; 3]; data := of_ints [1; 2; 3; 4; 5; 6] |}.

Definition example_values : Tensor Qc :=
  {| shape := [2; 1]; data := of_ints [10; 20] |}.

(** The entries of a tensor of rationals as fractions in lowest terms. *)
Definition fractions (r : result (Tensor Qc)) : list Q :=
  match r with
  | Ok t => map this (data t)
  | Err _ => []
  end.

(** All initial values zero but the biases of the last advantage layer,
    which are one. *)
Definition rng_bias_one : nat -> nat -> Qc :=
  fun j _ => if Nat.eqb j 13 then 1%Qc else 0%Qc.

(** Initial values that pass one entry of the input on: in every weight
    tensor (the parameters allocated at even positions) the first entry is
    one and the others are zero, and every bias is zero.  Each layer then
    copies entry 0 of its input to entry 0 of its output and returns zero
    elsewhere. *)
Definition first_only {R : Type} {SR : Scalar R} (i : nat) : R :=
  if Nat.eqb i 0 then s_one else s_zero.

Definition rng_first {R : Type} {SR : Scalar R} : nat -> nat -> R :=
  fun k => if Nat.even k then first_only else fun _ => s_zero.

(** A frame of one channel and 36 by 36 entries, all zero, and one with all
    entries one. *)
Definition dark : list Qc := repeat 0%Qc 1296.
Definition lit : list Qc := repeat 1%Qc 1296.

(** ** Lemmas on the error monad and on lists *)

Lemma rmap_bind {A B C D : Type} (f : A -> B) (g : C -> D)
    (c : result A) (k : A -> result C) (k' : B -> result D) :
  (forall a, rmap g (k a) = k' (f a)) ->
  rmap g (bind c k) = bind (rmap f c) k'.
Proof.
  intros Hk. destruct c as [a|e]; simpl; auto.
Qed.

Lemma bind_ok_inv {A B : Type} (c : result A) (k : A -> result B) (b : B) :
  bind c k = Ok b -> exists a, c = Ok a /\ k a = Ok b.
Proof.
  destruct c as [a|e]; simpl; intros H; [eauto | discriminate].
Qed.

Lemma rmap_ok_inv {A B : Type} (f : A -> B) (c : result A) (b : B) :
  rmap f c = Ok b -> exists a, c = Ok a /\ f a = b.
Proof.
  destruct c as [a|e]; simpl; intros H; [injection H; eauto | discriminate].
Qed.

Lemma zrange_length (n : Z) : length (zrange n) = Z.to_nat n.
Proof.
  unfold zrange. now rewrite length_map, length_seq.
Qed.

Lemma zrange_In (n k : Z) : In k (zrange n) <-> 0 <= k < n.
Proof.
  unfold zrange. rewrite in_map_iff. split.
  - intros (i & <- & Hi). apply in_seq in Hi. lia.
  - intros Hk. exists (Z.to_nat k). split; [lia|]. apply in_seq. lia.
Qed.

Lemma flat_map_length_const {A B : Type} (f : A -> list B) (l : list A) (n : nat) :
  (forall a, In a l -> length (f a) = n) ->
  length (flat_map f l) = (length l * n)%nat.
Proof.
  induction l as [|a l IH]; simpl; intros Hf; [reflexivity|].
  rewrite length_app, Hf, IH by auto. reflexivity.
Qed.

(** ** Soundness of the shape-level semantics *)

Section ShapeSound.

Context {R : Type} {SR : Scalar R}.

Lemma conv2d_shape_sound (m : Conv2d R) (x : Tensor R) :
  rmap shape (conv2d m x) = conv2d_shape m (shape x).
Proof.
  unfold conv2d. destruct (conv2d_shape m (shape x)); reflexivity.
Qed.

Lemma linear_shape_sound (m : Linear R) (x : Tensor R) :
  rmap shape (linear m x) = linear_shape m (shape x).
Proof.
  unfold linear. destruct (linear_shape m (shape x)); reflexivity.
Qed.

Lemma flatten_shape_sound (x : Tensor R) :
  rmap shape (flatten x) = flatten_shape (shape x).
Proof.
  unfold flatten. destruct (flatten_shape (shape x)); reflexivity.
Qed.

Lemma view_shape_sound (x : Tensor R) (sizes : list Z) :
  rmap shape (view x sizes) = view_shape (numel (shape x)) sizes.
Proof.
  unfold view. destruct (view_shape _ sizes); reflexivity.
Qed.

Lemma broadcast_shape_sound (f : R -> R -> R) (a b : Tensor R) :
  rmap shape (broadcast_op f a b) = broadcast_shape (shape a) (shape b).
Proof.
  unfold broadcast_op. destruct (broadcast_shape _ _); reflexivity.
Qed.

(** Induction on modules that reaches the children of a [Sequential]. *)
Lemma nn_Module_ind_nested (P : nn_Module R -> Prop) :
  (forall c, P (Conv2d_ c)) ->
  P ReLU ->
  P Flatten ->
  (forall l, P (Linear_ l)) ->
  (forall ms, Forall P ms -> P (Sequential ms)) ->
  forall m, P m.
Proof.
  intros Hc Hr Hf Hl Hs.
  fix IH 1. intros [c| | |l|ms].
  - apply Hc.
  - exact Hr.
  - exact Hf.
  - apply Hl.
  - apply Hs. induction ms as [|m ms IHms]; constructor.
    + apply IH.
    + exact IHms.
Qed.

Lemma call_shape_sound (m : nn_Module R) :
  forall x, rmap shape (call m x) = call_shape m (shape x).
Proof.
  induction m as [c| | |l|ms IH] using nn_Module_ind_nested; intros x; simpl.
  - apply conv2d_shape_sound.
  - reflexivity.
  - apply flatten_shape_sound.
  - apply linear_shape_sound.
  - revert x. induction IH as [|m ms Hm _ IHms]; intros x; [reflexivity|].
    rewrite (rmap_bind shape shape) with (k' := fun s =>
      (fix run (ms : list (nn_Module R)) (s : list Z) : result (list Z) :=
         match ms with
         | [] => Ok s
         | m :: ms' => s' <- call_shape m s ;; run ms' s'
         end) ms s).
    + now rewrite Hm.
    + intros a. apply IHms.
Qed.

End ShapeSound.

(** ** The constructors of the layers *)

Section Constructors.

Context {R : Type} {SR : Scalar R}.

Lemma new_parameter_eq (g : nat -> R) (sizes : list Z) :
  new_parameter g sizes =
  if existsb (fun d => d <? 0) sizes
  then Err (RuntimeError NegativeDimension)
  else Ok (parameter_of g sizes).
Proof. reflexivity. Qed.

Lemma nn_Conv2d_eq (gw gb : nat -> R) (cin cout k s : Z) :
  0 <= cout -> 0 <= k ->
  nn_Conv2d gw gb cin cout k s =
  if cin <? 0 then Err (RuntimeError NegativeDimension)
  else Ok (conv_layer gw gb cin cout k s).
Proof.
  intros Hout Hk. unfold nn_Conv2d. rewrite !new_parameter_eq.
  cbn [existsb].
  replace (cout <? 0) with false by lia. replace (k <? 0) with false by lia.
  destruct (cin <? 0); reflexivity.
Qed.

Lemma nn_Linear_eq (gw gb : nat -> R) (fin fout : Z) :
  nn_Linear gw gb fin fout =
  if (fout <? 0) || (fin <? 0) then Err (RuntimeError NegativeDimension)
  else Ok (linear_layer gw gb fin fout).
Proof.
  unfold nn_Linear. rewrite !new_parameter_eq. cbn [existsb].
  rewrite orb_false_r.
  destruct (fout <? 0) eqn:Ho; destruct (fin <? 0); reflexivity.
Qed.

Lemma make_conv_eq (rng : nat -> nat -> R) (c : Z) :
  make_conv rng c =
  if c <? 0 then Err (RuntimeError NegativeDimension) else Ok (trunk rng c).
Proof.
  unfold make_conv. rewrite !nn_Conv2d_eq by lia.
  destruct (c <? 0); reflexivity.
Qed.

End Constructors.

(** ** Shape inference at construction *)

Section FeatureSize.

Context {R : Type} {SR : Scalar R}.

Lemma view_shape_flat (n : Z) : view_shape n [1; -1] = Ok [1; n].
Proof.
  unfold view_shape. cbn.
  rewrite Z.mod_1_r, Z.div_1_r. reflexivity.
Qed.

Lemma view_shape_rows (n b : Z) :
  0 <= b ->
  view_shape n [b; -1] =
  if b =? 0 then Err (RuntimeError InvalidView)
  else if n mod b =? 0 then Ok [b; n / b]
  else Err (RuntimeError InvalidView).
Proof.
  intros Hb. unfold view_shape. cbn [existsb].
  replace (b <? -1) with false by lia. cbn [orb].
  replace (-1 <? -1) with false by lia.
  cbn [count_occ remove].
  destruct (Z.eq_dec b (-1)) as [E|_]; [lia|].
  destruct (Z.eq_dec (-1) (-1)) as [_|N]; [|congruence].
  destruct (Z.eq_dec (-1) b) as [E|_]; [lia|].
  cbn [numel fold_right map].
  replace (b * 1) with b by lia.
  replace (b =? -1) with false by lia.
  reflexivity.
Qed.

Lemma feature_size_eq (conv : nn_Module R) (idim : list Z) :
  DeepConvQNetwork.feature_size conv idim =
  if existsb (fun d => d <? 0) (1 :: idim)
  then Err (RuntimeError NegativeDimension)
  else rmap numel (call_shape conv (1 :: idim)).
Proof.
  unfold DeepConvQNetwork.feature_size, torch_zeros.
  destruct (existsb _ (1 :: idim)); [reflexivity|].
  cbn [bind].
  set (x := {| shape := 1 :: idim; data := _ |}).
  change (1 :: idim) with (shape x).
  rewrite <- call_shape_sound.
  destruct (call conv x) as [y|e]; [|reflexivity].
  cbn [bind rmap]. unfold view.
  rewrite view_shape_flat. reflexivity.
Qed.

Lemma dueling_feature_size_eq (conv : nn_Module R) (idim : list Z) :
  DuelingDeepConvQNetwork.feature_size conv idim =
  DeepConvQNetwork.feature_size conv idim.
Proof. reflexivity. Qed.

End FeatureSize.

(** ** The trunk on shapes *)

(** Unfolds the shape-level run of a stack of known layers into the
    conditionals of its checks. *)
Ltac shape_run :=
  cbv beta iota zeta delta
    [call_shape trunk conv_layer linear_layer conv2d_shape conv2d_check
     linear_shape flatten_shape bind rmap fst snd
     in_channels out_channels kernel_size stride padding
     in_features out_features rev app numel fold_right].

(** Splits on every remaining check and closes the arithmetic. *)
Ltac split_checks :=
  repeat match goal with
         | |- context [if ?b then _ else _] => destruct b eqn:?
         end.

Section Trunk.

Context {R : Type} {SR : Scalar R}.

Lemma trunk_out_ge (d : Z) : 36 <= d -> 1 <= trunk_out d.
Proof.
  intros Hd. unfold trunk_out, conv_out. Z.div_mod_to_equations. lia.
Qed.

Lemma trunk_shape_ok (rng : nat -> nat -> R) (b c h w : Z) :
  1 <= c -> 36 <= h -> 36 <= w ->
  call_shape (trunk rng c) [b; c; h; w] = Ok [b; 64; trunk_out h; trunk_out w].
Proof.
  intros Hc Hh Hw. shape_run. unfold trunk_out.
  split_checks; try reflexivity; exfalso; unfold conv_out in *;
    Z.div_mod_to_equations; lia.
Qed.

End Trunk.

Section TrunkFailure.

Context {R : Type} {SR : Scalar R}.

Ltac arith := unfold trunk_out, conv_out in *; Z.div_mod_to_equations; nia.

(** On a single sample the trunk returns a shape exactly for at least one
    channel and at least 36 rows and columns; every failure is a shape
    fault. *)
Lemma trunk_shape_sample (rng : nat -> nat -> R) (c h w : Z) :
  0 <= c ->
  (1 <= c /\ 36 <= h /\ 36 <= w /\
   call_shape (trunk rng c) [1; c; h; w] =
     Ok [1; 64; trunk_out h; trunk_out w]) \/
  ((c = 0 \/ h < 36 \/ w < 36) /\
   exists f, call_shape (trunk rng c) [1; c; h; w] = Err (RuntimeError f)).
Proof.
  intros Hc.
  destruct (Z.eq_dec c 0) as [-> | Hc0].
  - right. split; [auto|]. shape_run.
    split_checks; eauto; exfalso; arith.
  - destruct (Z_lt_dec h 36) as [Hh|Hh]; [|destruct (Z_lt_dec w 36) as [Hw|Hw]].
    + right. split; [auto|]. shape_run.
      split_checks; eauto; exfalso; arith.
    + right. split; [auto|]. shape_run.
      split_checks; eauto; exfalso; arith.
    + left. repeat split; try lia. apply trunk_shape_ok; lia.
Qed.

(** Inputs of the wrong rank: [input_dim] with one, two, or more than three
    components. *)
Lemma trunk_shape_rank (rng : nat -> nat -> R) (c : Z) (rest : list Z) :
  length rest <> 2%nat ->
  exists f, call_shape (trunk rng c) (1 :: c :: rest) = Err (RuntimeError f).
Proof.
  intros Hlen.
  destruct rest as [|h [|w [|x rest]]]; cbn [length] in Hlen; try lia.
  - shape_run. eauto.
  - shape_run. split_checks; eauto; exfalso; arith.
  - shape_run. eauto.
Qed.

End TrunkFailure.

(** ** Construction *)

Section Construction.

Context {R : Type} {SR : Scalar R}.

Lemma feature_width_eq (h w : Z) :
  feature_width h w = 64 * (trunk_out h * trunk_out w).
Proof. unfold feature_width. cbn [numel fold_right]. lia. Qed.

Lemma feature_width_pos (h w : Z) :
  36 <= h -> 36 <= w -> 64 <= feature_width h w.
Proof.
  intros Hh Hw. rewrite feature_width_eq.
  pose proof (trunk_out_ge h Hh). pose proof (trunk_out_ge w Hw). nia.
Qed.

(** Shape inference on a three-component [input_dim]. *)
Lemma feature_size_ok (rng : nat -> nat -> R) (c h w : Z) :
  1 <= c -> 36 <= h -> 36 <= w ->
  DeepConvQNetwork.feature_size (trunk rng c) [c; h; w] =
  Ok (feature_width h w).
Proof.
  intros Hc Hh Hw. rewrite feature_size_eq. cbn [existsb].
  replace (1 <? 0) with false by lia. replace (c <? 0) with false by lia.
  replace (h <? 0) with false by lia. replace (w <? 0) with false by lia.
  cbn [orb]. rewrite trunk_shape_ok by lia. reflexivity.
Qed.

Lemma feature_size_fails (rng : nat -> nat -> R) (c h w : Z) :
  0 <= c -> c = 0 \/ h < 36 \/ w < 36 ->
  exists f,
    DeepConvQNetwork.feature_size (trunk rng c) [c; h; w] =
    Err (RuntimeError f).
Proof.
  intros Hc Hbad. rewrite feature_size_eq.
  destruct (existsb _ _); [eauto|].
  destruct (trunk_shape_sample rng c h w Hc) as [(H1 & H2 & H3 & _) | (_ & f & Hf)].
  - lia.
  - rewrite Hf. cbn [rmap]. eauto.
Qed.

Lemma feature_size_rank (rng : nat -> nat -> R) (c : Z) (rest : list Z) :
  length rest <> 2%nat ->
  exists f,
    DeepConvQNetwork.feature_size (trunk rng c) (c :: rest) =
    Err (RuntimeError f).
Proof.
  intros Hlen. rewrite feature_size_eq.
  destruct (existsb _ _); [eauto|].
  destruct (trunk_shape_rank rng c rest Hlen) as (f & Hf).
  rewrite Hf. cbn [rmap]. eauto.
Qed.

(** [DeepConvQNetwork.__init__] on valid arguments. *)
Lemma q_init_ok (rng : nat -> nat -> R) (cuda_available : bool) (c h w n : Z) :
  1 <= c -> 36 <= h -> 36 <= w -> 0 <= n ->
  DeepConvQNetwork.__init__ rng cuda_available [c; h; w] n =
  Ok (q_network rng cuda_available c h w n).
Proof.
  intros Hc Hh Hw Hn. unfold DeepConvQNetwork.__init__.
  cbn [tuple_get nth_error bind]. rewrite make_conv_eq.
  replace (c <? 0) with false by lia. cbn [bind].
  rewrite feature_size_ok by lia. cbn [bind].
  pose proof (feature_width_pos h w Hh Hw).
  rewrite !nn_Linear_eq.
  replace (512 <? 0) with false by lia.
  replace (feature_width h w <? 0) with false by lia.
  replace (n <? 0) with false by lia.
  reflexivity.
Qed.

(** [DuelingDeepConvQNetwork.__init__] on valid arguments. *)
Lemma dueling_init_ok (rng : nat -> nat -> R) (c h w n : Z) :
  1 <= c -> 36 <= h -> 36 <= w -> 0 <= n ->
  DuelingDeepConvQNetwork.__init__ rng [c; h; w] n =
  Ok (dueling_network rng c h w n).
Proof.
  intros Hc Hh Hw Hn. unfold DuelingDeepConvQNetwork.__init__.
  cbn [tuple_get nth_error bind]. rewrite make_conv_eq.
  replace (c <? 0) with false by lia. cbn [bind].
  rewrite dueling_feature_size_eq, feature_size_ok by lia. cbn [bind].
  pose proof (feature_width_pos h w Hh Hw).
  rewrite !nn_Linear_eq.
  replace (128 <? 0) with false by lia.
  replace (1 <? 0) with false by lia.
  replace (feature_width h w <? 0) with false by lia.
  replace (n <? 0) with false by lia.
  reflexivity.
Qed.

End Construction.

Section ConstructionFailure.

Context {R : Type} {SR : Scalar R}.

Lemma q_init_shared (rng : nat -> nat -> R) (cuda_available : bool)
    (idim : list Z) (n : Z) :
  DeepConvQNetwork.__init__ rng cuda_available idim n =
  (p <- shared_steps rng idim ;;
   l1 <- nn_Linear (rng 6%nat) (rng 7%nat) (snd p) 512 ;;
   l2 <- nn_Linear (rng 8%nat) (rng 9%nat) 512 n ;;
   Ok {| DeepConvQNetwork.input_dim := idim;
         DeepConvQNetwork.output_dim := n;
         DeepConvQNetwork.conv := fst p;
         DeepConvQNetwork.fc_input_dim := snd p;
         DeepConvQNetwork.network_tail :=
           [Flatten; Linear_ l1; ReLU; Linear_ l2];
         DeepConvQNetwork.device := if cuda_available then cuda else cpu |}).
Proof.
  unfold DeepConvQNetwork.__init__, shared_steps.
  destruct (tuple_get idim 0) as [c|e]; [|reflexivity]. cbn [bind].
  destruct (make_conv rng c) as [conv|e]; [|reflexivity]. cbn [bind].
  destruct (DeepConvQNetwork.feature_size conv idim); reflexivity.
Qed.

Lemma dueling_init_shared (rng : nat -> nat -> R) (idim : list Z) (n : Z) :
  DuelingDeepConvQNetwork.__init__ rng idim n =
  (p <- shared_steps rng idim ;;
   v1 <- nn_Linear (rng 6%nat) (rng 7%nat) (snd p) 128 ;;
   v2 <- nn_Linear (rng 8%nat) (rng 9%nat) 128 1 ;;
   a1 <- nn_Linear (rng 10%nat) (rng 11%nat) (snd p) 128 ;;
   a2 <- nn_Linear (rng 12%nat) (rng 13%nat) 128 n ;;
   Ok {| DuelingDeepConvQNetwork.input_dim := idim;
         DuelingDeepConvQNetwork.output_dim := n;
         DuelingDeepConvQNetwork.conv := fst p;
         DuelingDeepConvQNetwork.fc_input_dim := snd p;
         DuelingDeepConvQNetwork.value_stream :=
           Sequential [Linear_ v1; ReLU; Linear_ v2];
         DuelingDeepConvQNetwork.advantage_stream :=
           Sequential [Linear_ a1; ReLU; Linear_ a2] |}).
Proof.
  unfold DuelingDeepConvQNetwork.__init__, shared_steps.
  destruct (tuple_get idim 0) as [c|e]; [|reflexivity]. cbn [bind].
  destruct (make_conv rng c) as [conv|e]; [|reflexivity]. cbn [bind].
  rewrite dueling_feature_size_eq.
  destruct (DeepConvQNetwork.feature_size conv idim); reflexivity.
Qed.

(** The shared steps succeed exactly on three components with at least one
    channel and at least 36 rows and columns. *)
Lemma shared_steps_cases (rng : nat -> nat -> R) (idim : list Z) :
  (exists c h w, idim = [c; h; w] /\ 1 <= c /\ 36 <= h /\ 36 <= w /\
     shared_steps rng idim = Ok (trunk rng c, feature_width h w)) \/
  ((length idim <> 3%nat \/
    exists c h w, idim = [c; h; w] /\ (c <= 0 \/ h < 36 \/ w < 36)) /\
   exists e, shared_steps rng idim = Err e).
Proof.
  unfold shared_steps.
  destruct idim as [|c rest].
  { right. split; [left; cbn; lia|]. cbn. eauto. }
  cbn [tuple_get nth_error bind]. rewrite make_conv_eq.
  destruct (Z.ltb_spec c 0) as [Hc|Hc].
  { right. split; [|cbn; eauto].
    destruct rest as [|h [|w [|x rest]]]; try (left; cbn; lia).
    right. exists c, h, w. auto with zarith. }
  cbn [bind].
  destruct (Nat.eq_dec (length rest) 2) as [Hlen|Hlen].
  - destruct rest as [|h [|w [|x rest]]]; try discriminate Hlen.
    destruct (Z_le_dec c 0) as [Hc0|Hc0];
      [|destruct (Z_lt_dec h 36) as [Hh|Hh];
        [|destruct (Z_lt_dec w 36) as [Hw|Hw]]].
    + right. split; [right; exists c, h, w; auto|].
      destruct (feature_size_fails rng c h w Hc) as (f & Hf); [lia|].
      rewrite Hf. cbn. eauto.
    + right. split; [right; exists c, h, w; auto|].
      destruct (feature_size_fails rng c h w Hc) as (f & Hf); [lia|].
      rewrite Hf. cbn. eauto.
    + right. split; [right; exists c, h, w; auto|].
      destruct (feature_size_fails rng c h w Hc) as (f & Hf); [lia|].
      rewrite Hf. cbn. eauto.
    + left. exists c, h, w. repeat split; try lia.
      rewrite feature_size_ok by lia. reflexivity.
  - right. split; [left; cbn [length]; lia|].
    destruct (feature_size_rank rng c rest Hlen) as (f & Hf).
    rewrite Hf. cbn. eauto.
Qed.

(** On three components every failure of the shared steps is a shape
    fault. *)
Lemma shared_steps_shape_error (rng : nat -> nat -> R) (c h w : Z) :
  c <= 0 \/ h < 36 \/ w < 36 ->
  exists f, shared_steps rng [c; h; w] = Err (RuntimeError f).
Proof.
  intros Hbad. unfold shared_steps.
  cbn [tuple_get nth_error bind]. rewrite make_conv_eq.
  destruct (Z.ltb_spec c 0) as [Hc|Hc]; [cbn; eauto|]. cbn [bind].
  destruct (feature_size_fails rng c h w Hc) as (f & Hf); [lia|].
  rewrite Hf. cbn. eauto.
Qed.

End ConstructionFailure.

(** ** Calls that succeed *)

Section Calls.

Context {R : Type} {SR : Scalar R}.

Lemma call_ok_shape (m : nn_Module R) (x : Tensor R) (s : list Z) :
  call_shape m (shape x) = Ok s ->
  exists y, call m x = Ok y /\ shape y = s.
Proof.
  rewrite <- call_shape_sound. intros H.
  apply rmap_ok_inv in H. exact H.
Qed.

Lemma call_err_shape (m : nn_Module R) (x : Tensor R) (e : error) :
  call_shape m (shape x) = Err e -> call m x = Err e.
Proof.
  rewrite <- call_shape_sound.
  destruct (call m x); cbn; congruence.
Qed.

End Calls.

(** ** Broadcasting a column against a matrix and a matrix against a scalar *)

Section Broadcast.

Context {R : Type} {SR : Scalar R}.

Lemma at_map_zrange (f : Z -> R) (n k : Z) :
  0 <= k < n -> at_ (map f (zrange n)) k = f k.
Proof.
  intros Hk. unfold at_, zrange. rewrite map_map.
  rewrite nth_indep with (d' := f (Z.of_nat 0)).
  - rewrite (map_nth (fun i => f (Z.of_nat i))), seq_nth by lia.
    f_equal. lia.
  - rewrite length_map, length_seq. lia.
Qed.

Lemma map_zrange_ext (f g : Z -> R) (n : Z) :
  (forall k, 0 <= k < n -> f k = g k) ->
  map f (zrange n) = map g (zrange n).
Proof.
  intros H. apply map_ext_in. intros k Hk. apply H, zrange_In, Hk.
Qed.

(** [a - m] for a matrix [a] and a 0-dimensional [m]. *)
Lemma sub_scalar (a m : Tensor R) (b n : Z) :
  shape a = [b; n] -> shape m = [] -> 0 <= b -> 0 <= n ->
  tensor_sub a m =
  Ok {| shape := [b; n];
        data := map (fun k => s_sub (at_ (data a) k) (at_ (data m) 0))
                    (zrange (b * n)) |}.
Proof.
  intros Ha Hm Hb Hn. unfold tensor_sub, broadcast_op, broadcast_shape.
  rewrite Ha, Hm. cbn [rev app broadcast_rev bind numel fold_right].
  replace (b * (n * 1)) with (b * n) by lia.
  do 2 f_equal. apply map_zrange_ext. intros k Hk.
  cbn [unravel_rev ravel_rev]. f_equal. f_equal.
  assert (Hn0 : 0 < n) by nia.
  assert (Hq : 0 <= k / n < b).
  { split; [apply Z.div_pos; lia|]. apply Z.div_lt_upper_bound; lia. }
  destruct (Z.eqb_spec n 1) as [->|Hn1]; destruct (Z.eqb_spec b 1) as [->|Hb1].
  - lia.
  - rewrite Z.div_1_r in *. rewrite Z.mod_small by lia. lia.
  - rewrite (Z.mod_small k n) by lia. lia.
  - rewrite (Z.mod_small (k / n) b) by lia.
    pose proof (Z.div_mod k n). lia.
Qed.

(** [v + t] for a column [v] and a matrix [t] with as many rows. *)
Lemma add_column (v t : Tensor R) (b n : Z) :
  shape v = [b; 1] -> shape t = [b; n] -> 0 <= b -> 0 <= n ->
  tensor_add v t =
  Ok {| shape := [b; n];
        data := map (fun k => s_add (at_ (data v) (k / n)) (at_ (data t) k))
                    (zrange (b * n)) |}.
Proof.
  intros Hv Ht Hb Hn. unfold tensor_add, broadcast_op, broadcast_shape.
  rewrite Hv, Ht. cbn [rev app broadcast_rev].
  rewrite Z.eqb_refl.
  assert (Hs : (if 1 =? n then Some [1; b]
                else if 1 =? 1 then Some [n; b]
                else if n =? 1 then Some [1; b] else None) = Some [n; b]).
  { destruct (Z.eqb_spec 1 n) as [<-|_]; reflexivity. }
  rewrite Hs. cbn [rev app bind numel fold_right].
  replace (b * (n * 1)) with (b * n) by lia.
  do 2 f_equal. apply map_zrange_ext. intros k Hk.
  cbn [unravel_rev ravel_rev].
  assert (Hn0 : 0 < n) by nia.
  assert (Hq : 0 <= k / n < b).
  { split; [apply Z.div_pos; lia|]. apply Z.div_lt_upper_bound; lia. }
  f_equal; f_equal.
  - cbn [Z.eqb Pos.eqb].
    destruct (Z.eqb_spec b 1) as [->|Hb1].
    + lia.
    + rewrite (Z.mod_small (k / n) b) by lia. lia.
  - destruct (Z.eqb_spec n 1) as [->|Hn1]; destruct (Z.eqb_spec b 1) as [->|Hb1].
    + lia.
    + rewrite Z.div_1_r in *. rewrite Z.mod_small by lia. lia.
    + rewrite (Z.mod_small k n) by lia. lia.
    + rewrite (Z.mod_small (k / n) b) by lia.
      pose proof (Z.div_mod k n). lia.
Qed.

End Broadcast.

(** ** The forward passes, step by step *)

Section ForwardSteps.

Context {R : Type} {SR : Scalar R}.

Lemma q_forward_steps (rng : nat -> nat -> R) (cuda_available : bool)
    (c h w n : Z) (state : Tensor R) :
  DeepConvQNetwork.forward (q_network rng cuda_available c h w n) state =
  (y1 <- call (trunk rng c) state ;;
   y2 <- flatten y1 ;;
   y3 <- linear (linear_layer (rng 6%nat) (rng 7%nat) (feature_width h w) 512) y2 ;;
   linear (linear_layer (rng 8%nat) (rng 9%nat) 512 n) (relu y3)).
Proof.
  unfold DeepConvQNetwork.forward, DeepConvQNetwork.network, to_device.
  cbn [q_network DeepConvQNetwork.conv DeepConvQNetwork.network_tail call].
  destruct (call (trunk rng c) state) as [y1|e]; [|reflexivity]. cbn [bind].
  destruct (flatten y1) as [y2|e]; [|reflexivity]. cbn [bind].
  destruct (linear _ y2) as [y3|e]; [|reflexivity]. cbn [bind].
  destruct (linear _ (relu y3)) as [y4|e]; reflexivity.
Qed.

Lemma dueling_forward_steps (rng : nat -> nat -> R) (c h w n : Z)
    (state : Tensor R) :
  DuelingDeepConvQNetwork.forward (dueling_network rng c h w n) state =
  (y1 <- call (trunk rng c) state ;;
   n0 <- size y1 0 ;;
   y2 <- view y1 [n0; -1] ;;
   v1 <- linear (linear_layer (rng 6%nat) (rng 7%nat) (feature_width h w) 128) y2 ;;
   v <- linear (linear_layer (rng 8%nat) (rng 9%nat) 128 1) (relu v1) ;;
   a1 <- linear (linear_layer (rng 10%nat) (rng 11%nat) (feature_width h w) 128) y2 ;;
   a <- linear (linear_layer (rng 12%nat) (rng 13%nat) 128 n) (relu a1) ;;
   centred <- tensor_sub a (mean a) ;;
   tensor_add v centred).
Proof.
  unfold DuelingDeepConvQNetwork.forward.
  cbn [dueling_network DuelingDeepConvQNetwork.conv
       DuelingDeepConvQNetwork.value_stream
       DuelingDeepConvQNetwork.advantage_stream].
  destruct (call (trunk rng c) state) as [y1|e]; [|reflexivity]. cbn [bind].
  destruct (size y1 0) as [n0|e]; [|reflexivity]. cbn [bind].
  destruct (view y1 [n0; -1]) as [y2|e]; [|reflexivity]. cbn [bind call].
  destruct (linear _ y2) as [v1|e]; [|reflexivity]. cbn [bind].
  destruct (linear _ (relu v1)) as [v|e]; [|reflexivity]. cbn [bind].
  destruct (linear _ y2) as [a1|e]; [|reflexivity]. cbn [bind].
  destruct (linear _ (relu a1)) as [a|e]; [|reflexivity]. cbn [bind].
  destruct (tensor_sub a (mean a)) as [d|e]; [|reflexivity]. cbn [bind].
  destruct (tensor_add v d); reflexivity.
Qed.

(** The trunk on a batch of well-sized samples. *)
Lemma trunk_call_ok (rng : nat -> nat -> R) (b c h w : Z) (state : Tensor R) :
  1 <= c -> 36 <= h -> 36 <= w -> shape state = [b; c; h; w] ->
  exists y, call (trunk rng c) state = Ok y /\
            shape y = [b; 64; trunk_out h; trunk_out w].
Proof.
  intros Hc Hh Hw Hs. apply call_ok_shape. rewrite Hs.
  apply trunk_shape_ok; assumption.
Qed.

Lemma flatten_features (y : Tensor R) (b h w : Z) :
  shape y = [b; 64; trunk_out h; trunk_out w] ->
  flatten y = Ok {| shape := [b; feature_width h w]; data := data y |}.
Proof.
  intros Hs. unfold flatten, flatten_shape. rewrite Hs. cbn [bind].
  do 2 f_equal. f_equal. unfold feature_width. cbn [numel fold_right].
  f_equal. ring.
Qed.

Lemma view_features (y : Tensor R) (b h w : Z) :
  1 <= b -> shape y = [b; 64; trunk_out h; trunk_out w] ->
  view y [b; -1] = Ok {| shape := [b; feature_width h w]; data := data y |}.
Proof.
  intros Hb Hs. unfold view. rewrite Hs, view_shape_rows by lia.
  replace (numel [b; 64; trunk_out h; trunk_out w])
    with (feature_width h w * b)
    by (unfold feature_width; cbn [numel fold_right]; ring).
  rewrite Z.mod_mul, Z.div_mul by lia.
  replace (b =? 0) with false by lia. reflexivity.
Qed.

(** A linear layer on a matrix of matching width. *)
Lemma linear_rows (gw gb : nat -> R) (fin fout b : Z) (x : Tensor R) :
  shape x = [b; fin] ->
  linear (linear_layer gw gb fin fout) x =
  Ok {| shape := [b; fout];
        data := linear_data (linear_layer gw gb fin fout) b (data x) |}.
Proof.
  intros Hs. unfold linear, linear_shape. rewrite Hs.
  cbn [rev app in_features out_features linear_layer removelast numel fold_right].
  rewrite Z.eqb_refl. cbn [bind].
  replace (b * 1) with b by lia. reflexivity.
Qed.

Lemma linear_data_length (m : Linear R) (b : Z) (d : list R) :
  0 <= b -> 0 <= out_features m ->
  Z.of_nat (length (linear_data m b d)) = b * out_features m.
Proof.
  intros Hb Hf. unfold linear_data.
  rewrite (flat_map_length_const _ _ (Z.to_nat (out_features m))).
  - rewrite zrange_length. nia.
  - intros r _. unfold linear_row. now rewrite length_map, zrange_length.
Qed.

(** [DeepConvQNetwork.forward] on a batch of the configured shape. *)
Lemma q_forward_ok (rng : nat -> nat -> R) (cuda_available : bool)
    (b c h w n : Z) (state : Tensor R) :
  1 <= c -> 36 <= h -> 36 <= w -> shape state = [b; c; h; w] ->
  exists y,
    call (trunk rng c) state = Ok y /\
    shape y = [b; 64; trunk_out h; trunk_out w] /\
    DeepConvQNetwork.forward (q_network rng cuda_available c h w n) state =
    Ok {| shape := [b; n]; data := q_head rng h w n b (data y) |}.
Proof.
  intros Hc Hh Hw Hs.
  destruct (trunk_call_ok rng b c h w state Hc Hh Hw Hs) as (y & Hy & Hsy).
  exists y. repeat split; try assumption.
  rewrite q_forward_steps, Hy. cbn [bind].
  rewrite (flatten_features y b h w Hsy). cbn [bind].
  rewrite (linear_rows _ _ (feature_width h w) 512 b) by reflexivity.
  cbn [bind].
  rewrite (linear_rows _ _ 512 n b) by reflexivity.
  reflexivity.
Qed.

(** [DuelingDeepConvQNetwork.forward] on a batch of at least one sample of
    the configured shape. *)
Lemma dueling_forward_ok (rng : nat -> nat -> R) (b c h w n : Z)
    (state : Tensor R) :
  1 <= c -> 36 <= h -> 36 <= w -> 0 <= n -> 1 <= b ->
  shape state = [b; c; h; w] ->
  exists y,
    call (trunk rng c) state = Ok y /\
    shape y = [b; 64; trunk_out h; trunk_out w] /\
    DuelingDeepConvQNetwork.forward (dueling_network rng c h w n) state =
    Ok {| shape := [b; n];
          data := dueling_data (value_head rng h w b (data y))
                               (advantage_head rng h w n b (data y)) b n |}.
Proof.
  intros Hc Hh Hw Hn Hb Hs.
  destruct (trunk_call_ok rng b c h w state Hc Hh Hw Hs) as (y & Hy & Hsy).
  exists y. repeat split; try assumption.
  rewrite dueling_forward_steps, Hy. cbn [bind].
  unfold size. rewrite Hsy. cbn [nth_error bind].
  rewrite (view_features y b h w Hb Hsy). cbn [bind].
  rewrite (linear_rows _ _ (feature_width h w) 128 b) by reflexivity.
  cbn [bind].
  rewrite (linear_rows _ _ 128 1 b) by reflexivity. cbn [bind].
  rewrite (linear_rows _ _ (feature_width h w) 128 b) by reflexivity.
  cbn [bind].
  rewrite (linear_rows _ _ 128 n b) by reflexivity. cbn [bind].
  rewrite (sub_scalar _ _ b n) by (try reflexivity; lia). cbn [bind].
  rewrite (add_column _ _ b n) by (try reflexivity; lia).
  do 2 f_equal. unfold dueling_data. fold (value_head rng h w b (data y)).
  fold (advantage_head rng h w n b (data y)).
  apply map_zrange_ext. intros k Hk. cbn [data mean shape].
  rewrite at_map_zrange by lia. unfold at_ at 3. cbn [nth Z.to_nat].
  cbn [numel fold_right]. replace (b * (n * 1)) with (b * n) by lia.
  reflexivity.
Qed.

End ForwardSteps.

(** ** Every instance is one of the values above *)

Section Inversion.

Context {R : Type} {SR : Scalar R}.

Lemma q_init_inv (rng : nat -> nat -> R) (cuda_available : bool)
    (idim : list Z) (n : Z) (net : DeepConvQNetwork.t) :
  DeepConvQNetwork.__init__ rng cuda_available idim n = Ok net ->
  exists c h w,
    idim = [c; h; w] /\ 1 <= c /\ 36 <= h /\ 36 <= w /\ 0 <= n /\
    net = q_network rng cuda_available c h w n.
Proof.
  rewrite q_init_shared.
  destruct (shared_steps_cases rng idim)
    as [(c & h & w & -> & Hc & Hh & Hw & Hst) | (_ & e & He)].
  - rewrite Hst. cbn [bind fst snd]. rewrite !nn_Linear_eq.
    pose proof (feature_width_pos h w Hh Hw).
    replace (512 <? 0) with false by lia.
    replace (feature_width h w <? 0) with false by lia.
    cbn [orb bind]. rewrite orb_false_r.
    destruct (Z.ltb_spec n 0) as [Hn|Hn]; cbn [bind]; [discriminate|].
    intros [= <-]. exists c, h, w. repeat split; try lia.
  - rewrite He. discriminate.
Qed.

Lemma dueling_init_inv (rng : nat -> nat -> R) (idim : list Z) (n : Z)
    (net : DuelingDeepConvQNetwork.t) :
  DuelingDeepConvQNetwork.__init__ rng idim n = Ok net ->
  exists c h w,
    idim = [c; h; w] /\ 1 <= c /\ 36 <= h /\ 36 <= w /\ 0 <= n /\
    net = dueling_network rng c h w n.
Proof.
  rewrite dueling_init_shared.
  destruct (shared_steps_cases rng idim)
    as [(c & h & w & -> & Hc & Hh & Hw & Hst) | (_ & e & He)].
  - rewrite Hst. cbn [bind fst snd]. rewrite !nn_Linear_eq.
    pose proof (feature_width_pos h w Hh Hw).
    replace (128 <? 0) with false by lia.
    replace (1 <? 0) with false by lia.
    replace (feature_width h w <? 0) with false by lia.
    cbn [orb bind]. rewrite orb_false_r.
    destruct (Z.ltb_spec n 0) as [Hn|Hn]; cbn [bind]; [discriminate|].
    intros [= <-]. exists c, h, w. repeat split; try lia.
  - rewrite He. discriminate.
Qed.

End Inversion.

(** ** The stages of the trunk *)

Section Stages.

Context {R : Type} {SR : Scalar R}.

Lemma conv_layer_stage (gw gb : nat -> R) (cin cout k s : Z) :
  stage (conv_layer gw gb cin cout k s) cin cout k s.
Proof.
  unfold stage. cbn. repeat split. eexists. split; reflexivity.
Qed.

(** Output shape of a stage without padding. *)
Lemma conv2d_valid_shape (m : Conv2d R) (x y : Tensor R) (B C H W : Z) :
  padding m = 0 ->
  shape x = [B; C; H; W] ->
  conv2d m x = Ok y ->
  shape y = [B; out_channels m;
             (H - kernel_size m) / stride m + 1;
             (W - kernel_size m) / stride m + 1].
Proof.
  intros Hp Hs Hy.
  pose proof (conv2d_shape_sound m x) as Hsound.
  rewrite Hy, Hs in Hsound. cbn [rmap] in Hsound.
  unfold conv2d_shape, conv2d_check in Hsound. rewrite Hp in Hsound.
  unfold conv_out in Hsound.
  replace (H + 2 * 0 - kernel_size m) with (H - kernel_size m) in Hsound by lia.
  replace (W + 2 * 0 - kernel_size m) with (W - kernel_size m) in Hsound by lia.
  repeat match type of Hsound with
         | context [if ?b then _ else _] => destruct b
         end; cbn [bind fst snd] in Hsound; congruence.
Qed.

End Stages.

(** ** Batches of copies of one sample *)

Section Tiles.

Context {R : Type} {SR : Scalar R}.

Lemma skipn_tile (d : list R) (k b : nat) :
  (b <= k)%nat ->
  skipn (b * length d) (concat (repeat d k)) = concat (repeat d (k - b)).
Proof.
  revert b. induction k as [|k IH]; intros b Hb.
  - replace b with O by lia. reflexivity.
  - destruct b as [|b]; [reflexivity|].
    cbn [repeat concat Nat.mul Nat.sub].
    rewrite skipn_app, skipn_all2 by lia.
    replace (length d + b * length d - length d)%nat with (b * length d)%nat
      by lia.
    cbn [app]. apply IH. lia.
Qed.

Lemma slice_tile (d : list R) (L K b : Z) :
  Z.of_nat (length d) = L -> 0 <= b < K ->
  slice (concat (repeat d (Z.to_nat K))) (b * L) L = d.
Proof.
  intros HL Hb. unfold slice.
  replace (Z.to_nat (b * L)) with (Z.to_nat b * length d)%nat by nia.
  rewrite skipn_tile by lia.
  replace (Z.to_nat K - Z.to_nat b)%nat with (S (Z.to_nat K - Z.to_nat b - 1))
    by lia.
  cbn [repeat concat].
  replace (Z.to_nat L) with (length d + 0)%nat by lia.
  rewrite firstn_app_2. cbn [firstn]. apply app_nil_r.
Qed.

Lemma slice_whole (d : list R) (L : Z) :
  Z.of_nat (length d) = L -> slice d 0 L = d.
Proof.
  intros HL. unfold slice. cbn [Z.to_nat skipn].
  replace (Z.to_nat L) with (length d) by lia. apply firstn_all.
Qed.

Lemma flat_map_const {A : Type} (f : A -> list R) (g : list R) (l : list A) :
  (forall a, In a l -> f a = g) ->
  flat_map f l = concat (repeat g (length l)).
Proof.
  induction l as [|a l IH]; intros Hf; [reflexivity|].
  cbn [flat_map length repeat concat].
  rewrite (Hf a) by (cbn; auto). f_equal.
  apply IH. intros a' Ha'. apply Hf. cbn. auto.
Qed.

Lemma zrange_1 : zrange 1 = [0].
Proof. reflexivity. Qed.

Lemma map_tile (f : R -> R) (d : list R) (k : nat) :
  map f (concat (repeat d k)) = concat (repeat (map f d) k).
Proof.
  rewrite concat_map, map_repeat. reflexivity.
Qed.

(** A linear layer on copies of one row. *)
Lemma linear_data_tile (m : Linear R) (K : Z) (d : list R) :
  Z.of_nat (length d) = in_features m ->
  linear_data m K (concat (repeat d (Z.to_nat K))) =
  concat (repeat (linear_data m 1 d) (Z.to_nat K)).
Proof.
  intros Hd. unfold linear_data at 2. rewrite zrange_1.
  cbn [flat_map Z.mul]. rewrite app_nil_r, (slice_whole d (in_features m) Hd).
  unfold linear_data.
  rewrite (flat_map_const _ (linear_row m d)).
  - now rewrite zrange_length.
  - intros r Hr. apply zrange_In in Hr.
    now rewrite (slice_tile d (in_features m) K r Hd Hr).
Qed.

Lemma linear_data_one_length (m : Linear R) (d : list R) :
  0 <= out_features m ->
  Z.of_nat (length (linear_data m 1 d)) = out_features m.
Proof.
  intros Ho. rewrite linear_data_length; lia.
Qed.

End Tiles.

Section ConvTiles.

Context {R : Type} {SR : Scalar R}.

Lemma conv2d_batch (m : Conv2d R) (x : Tensor R) (B C H W OH OW : Z) :
  shape x = [B; C; H; W] ->
  conv2d_check m B C H W = Ok (OH, OW) ->
  conv2d m x =
  Ok {| shape := [B; out_channels m; OH; OW];
        data :=
          flat_map
            (fun b =>
               conv2d_sample m C H W OH OW
                 (slice (data x) (b * (C * (H * W))) (C * (H * W))))
            (zrange B) |}.
Proof.
  intros Hs Hc. unfold conv2d, conv2d_shape. rewrite Hs, Hc.
  cbn [bind fst snd]. unfold conv2d_data. rewrite Hs. reflexivity.
Qed.

Lemma conv2d_batch_inv (m : Conv2d R) (x y : Tensor R) (B C H W : Z) :
  shape x = [B; C; H; W] ->
  conv2d m x = Ok y ->
  exists OH OW, conv2d_check m B C H W = Ok (OH, OW).
Proof.
  intros Hs Hy. unfold conv2d, conv2d_shape in Hy. rewrite Hs in Hy.
  destruct (conv2d_check m B C H W) as [[OH OW]|e]; [eauto | discriminate].
Qed.

Lemma conv2d_check_batch (m : Conv2d R) (B C H W : Z) :
  1 <= B -> conv2d_check m B C H W = conv2d_check m 1 C H W.
Proof.
  intros HB. unfold conv2d_check.
  replace (B =? 0) with false by lia. replace (1 =? 0) with false by lia.
  set (X := out_channels m * _).
  replace (B * X =? 0) with (1 * X =? 0); [reflexivity|].
  destruct (Z.eqb_spec (1 * X) 0) as [E|E];
    destruct (Z.eqb_spec (B * X) 0) as [E'|E']; try reflexivity; nia.
Qed.

Lemma conv2d_check_pos (m : Conv2d R) (B C H W OH OW : Z) :
  conv2d_check m B C H W = Ok (OH, OW) -> 1 <= OH /\ 1 <= OW.
Proof.
  unfold conv2d_check.
  destruct (negb (C =? in_channels m)); [discriminate|].
  destruct (Z.leb_spec (stride m) 0) as [Hs|Hs]; [discriminate|].
  destruct (Z.ltb_spec (H + 2 * padding m) (kernel_size m)) as [Hh|Hh];
    [discriminate|].
  destruct (Z.ltb_spec (W + 2 * padding m) (kernel_size m)) as [Hw|Hw];
    [discriminate|].
  cbn [orb]. intros Hok.
  assert (E : conv_out H (kernel_size m) (stride m) (padding m) = OH /\
              conv_out W (kernel_size m) (stride m) (padding m) = OW).
  { destruct (B =? 0); [injection Hok; auto|].
    destruct (_ && _); [discriminate | injection Hok; auto]. }
  destruct E as [<- <-]. unfold conv_out.
  assert (0 <= (H + 2 * padding m - kernel_size m) / stride m)
    by (apply Z.div_pos; lia).
  assert (0 <= (W + 2 * padding m - kernel_size m) / stride m)
    by (apply Z.div_pos; lia).
  lia.
Qed.

Lemma conv2d_sample_length (m : Conv2d R) (C H W OH OW : Z) (x : list R) :
  0 <= out_channels m -> 0 <= OH -> 0 <= OW ->
  Z.of_nat (length (conv2d_sample m C H W OH OW x)) =
  out_channels m * (OH * OW).
Proof.
  intros Ho Hh Hw. unfold conv2d_sample.
  rewrite (flat_map_length_const _ _ (Z.to_nat OH * Z.to_nat OW)).
  - rewrite zrange_length. nia.
  - intros o _. rewrite (flat_map_length_const _ _ (Z.to_nat OW)).
    + now rewrite zrange_length.
    + intros i _. now rewrite length_map, zrange_length.
Qed.

(** A convolution on copies of one sample returns copies of what it returns
    on the sample. *)
Lemma conv2d_tile (m : Conv2d R) (x y : Tensor R) (K C H W : Z) :
  1 <= K ->
  shape x = [1; C; H; W] ->
  Z.of_nat (length (data x)) = C * (H * W) ->
  0 <= out_channels m ->
  conv2d m x = Ok y ->
  conv2d m (tile K x) = Ok (tile K y) /\
  exists OH OW,
    shape y = [1; out_channels m; OH; OW] /\
    Z.of_nat (length (data y)) = out_channels m * (OH * OW).
Proof.
  intros HK Hs Hlen Ho Hy.
  destruct (conv2d_batch_inv m x y 1 C H W Hs Hy) as (OH & OW & Hc).
  destruct (conv2d_check_pos m 1 C H W OH OW Hc) as [HOH HOW].
  rewrite (conv2d_batch m x 1 C H W OH OW Hs Hc) in Hy.
  injection Hy as Hy. subst y.
  rewrite app_nil_r, (slice_whole (data x) _ Hlen). split.
  - assert (HsK : shape (tile K x) = [K; C; H; W])
      by (unfold tile; rewrite Hs; reflexivity).
    rewrite <- conv2d_check_batch with (B := K) in Hc by exact HK.
    rewrite (conv2d_batch m (tile K x) K C H W OH OW HsK Hc).
    unfold tile. cbn [shape data tl]. do 2 f_equal.
    rewrite (flat_map_const _ (conv2d_sample m C H W OH OW (data x))).
    + now rewrite zrange_length.
    + intros b Hb. apply zrange_In in Hb.
      now rewrite (slice_tile (data x) (C * (H * W)) K b Hlen Hb).
  - exists OH, OW. split; [reflexivity|]. cbn [data].
    apply conv2d_sample_length; lia.
Qed.

Lemma relu_tile (K : Z) (x : Tensor R) : relu (tile K x) = tile K (relu x).
Proof.
  unfold relu, tile. cbn [shape data]. now rewrite map_tile.
Qed.

(** The trunk on copies of one sample. *)
Lemma trunk_tile (rng : nat -> nat -> R) (K c h w : Z) (x y : Tensor R) :
  1 <= K ->
  shape x = [1; c; h; w] ->
  Z.of_nat (length (data x)) = c * (h * w) ->
  call (trunk rng c) x = Ok y ->
  call (trunk rng c) (tile K x) = Ok (tile K y) /\
  exists OH OW,
    shape y = [1; 64; OH; OW] /\ Z.of_nat (length (data y)) = 64 * (OH * OW).
Proof.
  intros HK Hs Hlen Hy. unfold trunk in *. cbn [call] in *.
  apply bind_ok_inv in Hy. destruct Hy as (y1 & Hy1 & Hy).
  cbn [bind] in Hy.
  apply bind_ok_inv in Hy. destruct Hy as (y2 & Hy2 & Hy).
  cbn [bind] in Hy.
  apply bind_ok_inv in Hy. destruct Hy as (y3 & Hy3 & Hy).
  cbn [bind] in Hy. injection Hy as Hy. subst y.
  assert (H32 : 0 <= 32) by lia. assert (H64 : 0 <= 64) by lia.
  destruct (conv2d_tile (conv_layer (rng 0%nat) (rng 1%nat) c 32 8 4)
              x y1 K c h w HK Hs Hlen H32 Hy1)
    as (HK1 & OH1 & OW1 & Hs1 & Hl1).
  cbn [out_channels conv_layer] in Hs1, Hl1.
  assert (Hl1' : Z.of_nat (length (data (relu y1))) = 32 * (OH1 * OW1))
    by (cbn [relu data]; rewrite length_map; exact Hl1).
  destruct (conv2d_tile (conv_layer (rng 2%nat) (rng 3%nat) 32 64 4 2)
              (relu y1) y2 K 32 OH1 OW1 HK Hs1 Hl1' H64 Hy2)
    as (HK2 & OH2 & OW2 & Hs2 & Hl2).
  cbn [out_channels conv_layer] in Hs2, Hl2.
  assert (Hl2' : Z.of_nat (length (data (relu y2))) = 64 * (OH2 * OW2))
    by (cbn [relu data]; rewrite length_map; exact Hl2).
  destruct (conv2d_tile (conv_layer (rng 4%nat) (rng 5%nat) 64 64 3 1)
              (relu y2) y3 K 64 OH2 OW2 HK Hs2 Hl2' H64 Hy3)
    as (HK3 & OH3 & OW3 & Hs3 & Hl3).
  cbn [out_channels conv_layer] in Hs3, Hl3.
  split.
  - rewrite HK1. cbn [bind]. rewrite relu_tile, HK2. cbn [bind].
    rewrite relu_tile, HK3. cbn [bind]. now rewrite relu_tile.
  - exists OH3, OW3. split; [exact Hs3|].
    cbn [relu data]. rewrite length_map. exact Hl3.
Qed.

End ConvTiles.

(** ** The heads on copies of one sample *)

Section HeadTiles.

Context {R : Type} {SR : Scalar R}.

Lemma two_layer_tile (l1 l2 : Linear R) (K : Z) (d : list R) :
  Z.of_nat (length d) = in_features l1 ->
  0 <= out_features l1 ->
  out_features l1 = in_features l2 ->
  linear_data l2 K
    (map relu_scalar (linear_data l1 K (concat (repeat d (Z.to_nat K))))) =
  concat
    (repeat (linear_data l2 1 (map relu_scalar (linear_data l1 1 d)))
            (Z.to_nat K)).
Proof.
  intros Hd Ho Hio.
  rewrite (linear_data_tile l1 K d Hd), map_tile.
  apply linear_data_tile.
  rewrite length_map, <- Hio. now apply linear_data_one_length.
Qed.

Lemma q_head_tile (rng : nat -> nat -> R) (h w n K : Z) (d : list R) :
  Z.of_nat (length d) = feature_width h w ->
  q_head rng h w n K (concat (repeat d (Z.to_nat K))) =
  concat (repeat (q_head rng h w n 1 d) (Z.to_nat K)).
Proof.
  intros Hd. unfold q_head. apply two_layer_tile; cbn; (exact Hd || lia).
Qed.

Lemma value_head_tile (rng : nat -> nat -> R) (h w K : Z) (d : list R) :
  Z.of_nat (length d) = feature_width h w ->
  value_head rng h w K (concat (repeat d (Z.to_nat K))) =
  concat (repeat (value_head rng h w 1 d) (Z.to_nat K)).
Proof.
  intros Hd. unfold value_head. apply two_layer_tile; cbn; (exact Hd || lia).
Qed.

Lemma advantage_head_tile (rng : nat -> nat -> R) (h w n K : Z) (d : list R) :
  Z.of_nat (length d) = feature_width h w ->
  advantage_head rng h w n K (concat (repeat d (Z.to_nat K))) =
  concat (repeat (advantage_head rng h w n 1 d) (Z.to_nat K)).
Proof.
  intros Hd. unfold advantage_head.
  apply two_layer_tile; cbn; (exact Hd || lia).
Qed.

Lemma at_tile (d : list R) (L : Z) (K : nat) (k : Z) :
  Z.of_nat (length d) = L -> 0 <= k < Z.of_nat K * L ->
  at_ (concat (repeat d K)) k = at_ d (k mod L).
Proof.
  intros HL. revert k. induction K as [|K IH]; intros k Hk; [lia|].
  cbn [repeat concat]. unfold at_ in *.
  destruct (Z_lt_dec k L) as [Hlt|Hge].
  - rewrite app_nth1 by lia. now rewrite Z.mod_small by lia.
  - rewrite app_nth2 by lia.
    replace (Z.to_nat k - length d)%nat with (Z.to_nat (k - L)) by lia.
    rewrite IH by lia. f_equal. f_equal.
    replace k with ((k - L) + 1 * L) at 2 by lia.
    rewrite Z.mod_add by lia. reflexivity.
Qed.

Lemma seq_from (a m : nat) :
  seq a m = map (fun i => (a + i)%nat) (seq 0 m).
Proof.
  induction a as [|a IH].
  - now rewrite map_id.
  - rewrite <- seq_shift, IH, map_map. reflexivity.
Qed.

Lemma zrange_succ_block (n : Z) (K : nat) :
  0 <= n ->
  zrange (Z.of_nat (S K) * n) =
  zrange n ++ map (fun k => k + n) (zrange (Z.of_nat K * n)).
Proof.
  intros Hn. unfold zrange.
  replace (Z.to_nat (Z.of_nat (S K) * n))
    with (Z.to_nat n + Z.to_nat (Z.of_nat K * n))%nat by nia.
  rewrite seq_app, map_app. f_equal.
  rewrite map_map. cbn [Nat.add].
  rewrite (seq_from (Z.to_nat n)), map_map.
  apply map_ext. intros i. lia.
Qed.

Lemma map_mod_tile (g : Z -> R) (n : Z) (K : nat) :
  0 <= n ->
  map (fun k => g (k mod n)) (zrange (Z.of_nat K * n)) =
  concat (repeat (map g (zrange n)) K).
Proof.
  intros Hn. induction K as [|K IH]; [reflexivity|].
  rewrite zrange_succ_block, map_app, map_map by exact Hn.
  cbn [repeat concat]. f_equal.
  - apply map_zrange_ext. intros k Hk. now rewrite Z.mod_small by lia.
  - rewrite <- IH. apply map_ext. intros k.
    replace (k + n) with (k + 1 * n) by lia.
    destruct (Z.eq_dec n 0) as [->|Hn0].
    + now rewrite !Z.mod_0_r, Z.add_0_r.
    + now rewrite Z.mod_add by lia.
Qed.

End HeadTiles.

(** ** The mean of copies, in exact arithmetic *)

Section ExactMean.

Context {R : Type} {SR : Scalar R} {ER : ExactScalar R}.

Add Field scalar_field : exact_field.

Lemma fold_add_acc (l : list R) (acc : R) :
  fold_left s_add l acc = s_add acc (sum l).
Proof.
  unfold sum. revert acc. induction l as [|a l IH]; intros acc; cbn [fold_left].
  - ring.
  - rewrite IH, (IH (s_add s_zero a)). ring.
Qed.

Lemma sum_app (l1 l2 : list R) : sum (l1 ++ l2) = s_add (sum l1) (sum l2).
Proof.
  unfold sum at 1. rewrite fold_left_app. fold (sum l1). apply fold_add_acc.
Qed.

Lemma sum_tile (d : list R) (K : nat) :
  sum (concat (repeat d K)) = s_mul (s_of_Z (Z.of_nat K)) (sum d).
Proof.
  induction K as [|K IH].
  - cbn [repeat concat Z.of_nat]. rewrite of_Z_0. unfold sum. cbn. ring.
  - cbn [repeat concat]. rewrite sum_app, IH.
    replace (Z.of_nat (S K)) with (1 + Z.of_nat K) by lia.
    rewrite of_Z_add, of_Z_1. ring.
Qed.

(** The mean over [K] copies of the entries [d] is the mean over [d]. *)
Lemma mean_tile (d : list R) (n K : Z) :
  Z.of_nat (length d) = n -> 1 <= K ->
  s_div (sum (concat (repeat d (Z.to_nat K)))) (s_of_Z (K * n)) =
  s_div (sum d) (s_of_Z (1 * n)).
Proof.
  intros Hd HK. replace (1 * n) with n by lia.
  destruct (Z.eq_dec n 0) as [Hn|Hn].
  - assert (d = []) by (destruct d; [reflexivity | cbn in Hd; lia]).
    subst d. rewrite Hn. replace (K * 0) with 0 by lia.
    f_equal. clear. induction (Z.to_nat K) as [|k IH]; [reflexivity|exact IH].
  - rewrite sum_tile, of_Z_mul. rewrite Z2Nat.id by lia.
    pose proof (of_Z_nonzero K ltac:(lia)) as HK0.
    pose proof (of_Z_nonzero n Hn) as Hn0.
    field. split; assumption.
Qed.

(** The combination on copies of one value and one row of advantages. *)
Lemma dueling_data_tile (v a : list R) (n K : Z) :
  Z.of_nat (length v) = 1 -> Z.of_nat (length a) = n -> 1 <= K ->
  dueling_data (concat (repeat v (Z.to_nat K)))
               (concat (repeat a (Z.to_nat K))) K n =
  concat (repeat (dueling_data v a 1 n) (Z.to_nat K)).
Proof.
  intros Hv Ha HK. unfold dueling_data.
  assert (Hn : 0 <= n) by lia.
  rewrite (mean_tile a n K Ha HK).
  set (mu := s_div (sum a) (s_of_Z (1 * n))).
  replace (1 * n) with n by lia.
  rewrite <- (map_mod_tile
                (fun k => s_add (at_ v (k / n)) (s_sub (at_ a k) mu))
                n (Z.to_nat K) Hn).
  rewrite Z2Nat.id by lia.
  apply map_zrange_ext. intros k Hk.
  assert (Hn0 : 0 < n) by nia.
  assert (Hq : 0 <= k / n < K).
  { split; [apply Z.div_pos; lia|]. apply Z.div_lt_upper_bound; lia. }
  pose proof (Z.mod_pos_bound k n Hn0) as Hm.
  rewrite (at_tile v 1 (Z.to_nat K) (k / n) Hv) by lia.
  rewrite (at_tile a n (Z.to_nat K) k Ha) by lia.
  rewrite Z.mod_1_r, (Z.div_small (k mod n) n) by lia.
  reflexivity.
Qed.

End ExactMean.

(** ** The forward passes on copies of one sample *)

Section ForwardTiles.

Context {R : Type} {SR : Scalar R}.

Lemma tile_shape (K c h w : Z) (x : Tensor R) :
  shape x = [1; c; h; w] -> shape (tile K x) = [K; c; h; w].
Proof. intros Hs. unfold tile. now rewrite Hs. Qed.

(** The features of one sample, and of its copies. *)
Lemma trunk_features_tile (rng : nat -> nat -> R) (K c h w : Z)
    (x : Tensor R) :
  1 <= K -> 1 <= c -> 36 <= h -> 36 <= w ->
  shape x = [1; c; h; w] ->
  Z.of_nat (length (data x)) = c * (h * w) ->
  exists y,
    call (trunk rng c) x = Ok y /\
    call (trunk rng c) (tile K x) = Ok (tile K y) /\
    Z.of_nat (length (data y)) = feature_width h w.
Proof.
  intros HK Hc Hh Hw Hs Hlen.
  destruct (trunk_call_ok rng 1 c h w x Hc Hh Hw Hs) as (y & Hy & Hsy).
  destruct (trunk_tile rng K c h w x y HK Hs Hlen Hy)
    as (HyK & OH & OW & Hsy' & Hl).
  exists y. repeat split; try assumption.
  rewrite Hsy in Hsy'. injection Hsy' as <- <-.
  rewrite Hl, feature_width_eq. reflexivity.
Qed.

Lemma q_forward_tile (rng : nat -> nat -> R) (cuda_available : bool)
    (K c h w n : Z) (x : Tensor R) :
  1 <= K -> 1 <= c -> 36 <= h -> 36 <= w -> 0 <= n ->
  shape x = [1; c; h; w] ->
  Z.of_nat (length (data x)) = c * (h * w) ->
  exists q,
    DeepConvQNetwork.forward (q_network rng cuda_available c h w n) x = Ok q /\
    DeepConvQNetwork.forward (q_network rng cuda_available c h w n) (tile K x)
      = Ok (tile K q) /\
    shape q = [1; n] /\ Z.of_nat (length (data q)) = n.
Proof.
  intros HK Hc Hh Hw Hn Hs Hlen.
  destruct (trunk_features_tile rng K c h w x HK Hc Hh Hw Hs Hlen)
    as (y & Hy & HyK & Hl).
  destruct (q_forward_ok rng cuda_available 1 c h w n x Hc Hh Hw Hs)
    as (y' & Hy' & _ & Hq).
  rewrite Hy in Hy'. injection Hy' as <-.
  destruct (q_forward_ok rng cuda_available K c h w n (tile K x) Hc Hh Hw
              (tile_shape K c h w x Hs))
    as (yK & HyK' & _ & HqK).
  rewrite HyK in HyK'. injection HyK' as <-.
  eexists. split; [exact Hq|]. split; [|split; [reflexivity|]].
  - rewrite HqK. unfold tile at 2. cbn [shape data tl].
    do 2 f_equal. unfold tile. cbn [data]. now apply q_head_tile.
  - cbn [data]. unfold q_head. rewrite linear_data_length; cbn [out_features linear_layer]; lia.
Qed.

Lemma dueling_forward_tile {ER : ExactScalar R} (rng : nat -> nat -> R)
    (K c h w n : Z) (x : Tensor R) :
  1 <= K -> 1 <= c -> 36 <= h -> 36 <= w -> 0 <= n ->
  shape x = [1; c; h; w] ->
  Z.of_nat (length (data x)) = c * (h * w) ->
  exists q,
    DuelingDeepConvQNetwork.forward (dueling_network rng c h w n) x = Ok q /\
    DuelingDeepConvQNetwork.forward (dueling_network rng c h w n) (tile K x)
      = Ok (tile K q) /\
    shape q = [1; n] /\ Z.of_nat (length (data q)) = n.
Proof.
  intros HK Hc Hh Hw Hn Hs Hlen.
  destruct (trunk_features_tile rng K c h w x HK Hc Hh Hw Hs Hlen)
    as (y & Hy & HyK & Hl).
  destruct (dueling_forward_ok rng 1 c h w n x Hc Hh Hw Hn ltac:(lia) Hs)
    as (y' & Hy' & _ & Hq).
  rewrite Hy in Hy'. injection Hy' as <-.
  destruct (dueling_forward_ok rng K c h w n (tile K x) Hc Hh Hw Hn HK
              (tile_shape K c h w x Hs))
    as (yK & HyK' & _ & HqK).
  rewrite HyK in HyK'. injection HyK' as <-.
  eexists. split; [exact Hq|]. split; [|split; [reflexivity|]].
  - rewrite HqK. unfold tile at 3. cbn [shape data tl].
    do 2 f_equal. unfold tile. cbn [data].
    rewrite value_head_tile, advantage_head_tile by exact Hl.
    apply dueling_data_tile.
    + unfold value_head. rewrite linear_data_length; cbn [out_features linear_layer]; lia.
    + unfold advantage_head. rewrite linear_data_length; cbn [out_features linear_layer]; lia.
    + exact HK.
  - cbn [data]. unfold dueling_data. rewrite length_map, zrange_length. lia.
Qed.

End ForwardTiles.

(** ** The rationals are an exact scalar structure *)

Lemma Q2Qc_inject_Z_add (a b : Z) :
  Q2Qc (inject_Z (a + b)) = (Q2Qc (inject_Z a) + Q2Qc (inject_Z b))%Qc.
Proof.
  apply Qc_is_canon. unfold Qcplus, Q2Qc. cbn [this].
  rewrite !Qred_correct, inject_Z_plus. reflexivity.
Qed.

Lemma Q2Qc_inject_Z_mul (a b : Z) :
  Q2Qc (inject_Z (a * b)) = (Q2Qc (inject_Z a) * Q2Qc (inject_Z b))%Qc.
Proof.
  apply Qc_is_canon. unfold Qcmult, Q2Qc. cbn [this].
  rewrite !Qred_correct, inject_Z_mult. reflexivity.
Qed.

Lemma Q2Qc_inject_Z_nonzero (a : Z) : a <> 0 -> Q2Qc (inject_Z a) <> 0%Qc.
Proof.
  intros Ha E. apply (f_equal this) in E. cbn [this Q2Qc] in E.
  assert (Hq : (Qred (inject_Z a) == inject_Z a)%Q) by apply Qred_correct.
  rewrite E in Hq. unfold Qeq, inject_Z in Hq. cbn in Hq. lia.
Qed.

#[export] Instance Qc_ExactScalar : ExactScalar Qc.
Proof.
  constructor.
  - exact Qcft.
  - reflexivity.
  - reflexivity.
  - exact Q2Qc_inject_Z_add.
  - exact Q2Qc_inject_Z_mul.
  - exact Q2Qc_inject_Z_nonzero.
Qed.

(** ** The parts of the dueling forward pass *)

Section DuelingParts.

Context {R : Type} {SR : Scalar R}.

Lemma two_layer_call (l1 l2 : nat -> R) (l3 l4 : nat -> R)
    (fin mid fout b : Z) (x : Tensor R) :
  shape x = [b; fin] ->
  call (Sequential [Linear_ (linear_layer l1 l2 fin mid); ReLU;
                    Linear_ (linear_layer l3 l4 mid fout)]) x =
  Ok {| shape := [b; fout];
        data :=
          linear_data (linear_layer l3 l4 mid fout) b
            (map relu_scalar
               (linear_data (linear_layer l1 l2 fin mid) b (data x))) |}.
Proof.
  intros Hs. cbn [call].
  rewrite (linear_rows l1 l2 fin mid b x Hs). cbn [bind].
  rewrite (linear_rows l3 l4 mid fout b) by reflexivity.
  reflexivity.
Qed.

Lemma dueling_data_entry (v a : list R) (b n i j : Z) :
  0 <= i < b -> 0 <= j < n ->
  at_ (dueling_data v a b n) (i * n + j) =
  s_add (at_ v i)
        (s_sub (at_ a (i * n + j)) (s_div (sum a) (s_of_Z (b * n)))).
Proof.
  intros Hi Hj. unfold dueling_data.
  rewrite at_map_zrange by nia.
  rewrite Z.div_add_l, (Z.div_small j n) by lia.
  now rewrite Z.add_0_r.
Qed.

(** The features, the two stream outputs and the result of
    [DuelingDeepConvQNetwork.forward]. *)
Lemma dueling_forward_parts (rng : nat -> nat -> R) (b c h w n : Z)
    (state : Tensor R) :
  1 <= c -> 36 <= h -> 36 <= w -> 0 <= n -> 1 <= b ->
  shape state = [b; c; h; w] ->
  let net := dueling_network rng c h w n in
  exists feats V A Q,
    (y <- call (DuelingDeepConvQNetwork.conv net) state ;; view y [b; -1])
      = Ok feats /\
    call (DuelingDeepConvQNetwork.value_stream net) feats = Ok V /\
    shape V = [b; 1] /\
    call (DuelingDeepConvQNetwork.advantage_stream net) feats = Ok A /\
    shape A = [b; n] /\
    DuelingDeepConvQNetwork.forward net state = Ok Q /\
    shape Q = [b; n] /\
    data Q = dueling_data (data V) (data A) b n.
Proof.
  intros Hc Hh Hw Hn Hb Hs net.
  destruct (dueling_forward_ok rng b c h w n state Hc Hh Hw Hn Hb Hs)
    as (y & Hy & Hsy & HQ).
  do 4 eexists. split; [|split; [|split; [|split; [|split; [|split]]]]].
  - subst net. cbn [dueling_network DuelingDeepConvQNetwork.conv].
    rewrite Hy. cbn [bind]. apply (view_features y b h w Hb Hsy).
  - subst net.
    cbn [dueling_network DuelingDeepConvQNetwork.value_stream].
    apply two_layer_call. reflexivity.
  - reflexivity.
  - subst net.
    cbn [dueling_network DuelingDeepConvQNetwork.advantage_stream].
    apply two_layer_call. reflexivity.
  - reflexivity.
  - exact HQ.
  - split; reflexivity.
Qed.

End DuelingParts.

(** ** The trunk output of one sample *)

Section TrunkOutput.

Context {R : Type} {SR : Scalar R}.

Lemma trunk_output_size (rng : nat -> nat -> R) (c h w : Z) (x : Tensor R) :
  1 <= c -> 36 <= h -> 36 <= w ->
  shape x = 1 :: [c; h; w] ->
  Z.of_nat (length (data x)) = numel [c; h; w] ->
  exists y,
    call (trunk rng c) x = Ok y /\
    numel (shape y) = feature_width h w /\
    Z.of_nat (length (data y)) = feature_width h w.
Proof.
  intros Hc Hh Hw Hs Hlen.
  assert (Hlen' : Z.of_nat (length (data x)) = c * (h * w)).
  { rewrite Hlen. cbn [numel fold_right]. ring. }
  destruct (trunk_features_tile rng 1 c h w x ltac:(lia) Hc Hh Hw Hs Hlen')
    as (y & Hy & _ & Hl).
  destruct (trunk_call_ok rng 1 c h w x Hc Hh Hw Hs) as (y' & Hy' & Hsy).
  rewrite Hy in Hy'. injection Hy' as <-.
  exists y. repeat split; try assumption. now rewrite Hsy.
Qed.

End TrunkOutput.

(** ** The forward pass reads the parameters only *)

Section Determinism.

Context {R : Type} {SR : Scalar R}.

Lemma cons_eq_inv {A : Type} (a b : A) (l l' : list A) :
  a :: l = b :: l' -> a = b /\ l = l'.
Proof. intros H. split; congruence. Qed.

Lemma parameter_of_shape (g1 g2 : nat -> R) (s1 s2 : list Z) :
  parameter_of g1 s1 = parameter_of g2 s2 -> s1 = s2.
Proof. intros H. exact (f_equal shape H). Qed.

Lemma q_forward_same_parameters
    (rng1 rng2 : nat -> nat -> R) (cuda1 cuda2 : bool)
    (c1 h1 w1 n1 c2 h2 w2 n2 : Z) (state : Tensor R) :
  DeepConvQNetwork.parameters (q_network rng1 cuda1 c1 h1 w1 n1) =
  DeepConvQNetwork.parameters (q_network rng2 cuda2 c2 h2 w2 n2) ->
  DeepConvQNetwork.forward (q_network rng1 cuda1 c1 h1 w1 n1) state =
  DeepConvQNetwork.forward (q_network rng2 cuda2 c2 h2 w2 n2) state.
Proof.
  intros Hp. rewrite !q_forward_steps.
  unfold DeepConvQNetwork.parameters, DeepConvQNetwork.network in Hp.
  cbn [q_network DeepConvQNetwork.conv DeepConvQNetwork.network_tail] in Hp.
  unfold trunk, conv_layer, linear_layer in *.
  set (F1 := feature_width h1 w1) in *. set (F2 := feature_width h2 w2) in *.
  cbn [parameters conv_weight conv_bias lin_weight lin_bias opt_list app] in Hp.
  apply cons_eq_inv in Hp; destruct Hp as [P0 Hp].
  apply cons_eq_inv in Hp; destruct Hp as [P1 Hp].
  apply cons_eq_inv in Hp; destruct Hp as [P2 Hp].
  apply cons_eq_inv in Hp; destruct Hp as [P3 Hp].
  apply cons_eq_inv in Hp; destruct Hp as [P4 Hp].
  apply cons_eq_inv in Hp; destruct Hp as [P5 Hp].
  apply cons_eq_inv in Hp; destruct Hp as [P6 Hp].
  apply cons_eq_inv in Hp; destruct Hp as [P7 Hp].
  apply cons_eq_inv in Hp; destruct Hp as [P8 Hp].
  apply cons_eq_inv in Hp; destruct Hp as [P9 _].
  pose proof (parameter_of_shape _ _ _ _ P0) as S0.
  pose proof (parameter_of_shape _ _ _ _ P6) as S6.
  pose proof (parameter_of_shape _ _ _ _ P8) as S8.
  assert (E0 : c1 = c2) by congruence.
  assert (E6 : F1 = F2) by congruence.
  assert (E8 : n1 = n2) by congruence.
  clear S0 S6 S8. subst c2 n2. rewrite <- E6 in *.
  rewrite P0, P1, P2, P3, P4, P5, P6, P7, P8, P9. reflexivity.
Qed.

Lemma dueling_forward_same_parameters
    (rng1 rng2 : nat -> nat -> R)
    (c1 h1 w1 n1 c2 h2 w2 n2 : Z) (state : Tensor R) :
  DuelingDeepConvQNetwork.parameters (dueling_network rng1 c1 h1 w1 n1) =
  DuelingDeepConvQNetwork.parameters (dueling_network rng2 c2 h2 w2 n2) ->
  DuelingDeepConvQNetwork.forward (dueling_network rng1 c1 h1 w1 n1) state =
  DuelingDeepConvQNetwork.forward (dueling_network rng2 c2 h2 w2 n2) state.
Proof.
  intros Hp. rewrite !dueling_forward_steps.
  unfold DuelingDeepConvQNetwork.parameters in Hp.
  cbn [dueling_network DuelingDeepConvQNetwork.conv
       DuelingDeepConvQNetwork.value_stream
       DuelingDeepConvQNetwork.advantage_stream] in Hp.
  unfold trunk, conv_layer, linear_layer in *.
  set (F1 := feature_width h1 w1) in *. set (F2 := feature_width h2 w2) in *.
  cbn [parameters conv_weight conv_bias lin_weight lin_bias opt_list app] in Hp.
  apply cons_eq_inv in Hp; destruct Hp as [P0 Hp].
  apply cons_eq_inv in Hp; destruct Hp as [P1 Hp].
  apply cons_eq_inv in Hp; destruct Hp as [P2 Hp].
  apply cons_eq_inv in Hp; destruct Hp as [P3 Hp].
  apply cons_eq_inv in Hp; destruct Hp as [P4 Hp].
  apply cons_eq_inv in Hp; destruct Hp as [P5 Hp].
  apply cons_eq_inv in Hp; destruct Hp as [P6 Hp].
  apply cons_eq_inv in Hp; destruct Hp as [P7 Hp].
  apply cons_eq_inv in Hp; destruct Hp as [P8 Hp].
  apply cons_eq_inv in Hp; destruct Hp as [P9 Hp].
  apply cons_eq_inv in Hp; destruct Hp as [P10 Hp].
  apply cons_eq_inv in Hp; destruct Hp as [P11 Hp].
  apply cons_eq_inv in Hp; destruct Hp as [P12 Hp].
  apply cons_eq_inv in Hp; destruct Hp as [P13 _].
  pose proof (parameter_of_shape _ _ _ _ P0) as S0.
  pose proof (parameter_of_shape _ _ _ _ P6) as S6.
  pose proof (parameter_of_shape _ _ _ _ P12) as S12.
  assert (E0 : c1 = c2) by congruence.
  assert (E6 : F1 = F2) by congruence.
  assert (E12 : n1 = n2) by congruence.
  clear S0 S6 S12. subst c2 n2. rewrite <- E6 in *.
  rewrite P0, P1, P2, P3, P4, P5, P6, P7, P8, P9, P10, P11, P12, P13.
  reflexivity.
Qed.

End Determinism.

(** ** Remarks on the edges of the forward passes *)

Section Remarks.

Context {R : Type} {SR : Scalar R}.

(** The width found at construction depends on the sizes of the stack, not
    on the values of its parameters. *)
Lemma feature_size_ignores_values (rng1 rng2 : nat -> nat -> R) (c : Z)
    (idim : list Z) :
  DeepConvQNetwork.feature_size (trunk rng1 c) idim =
  DeepConvQNetwork.feature_size (trunk rng2 c) idim.
Proof.
  rewrite !feature_size_eq. reflexivity.
Qed.

(** On a batch without samples the standard network returns a tensor
    without rows, while the dueling network raises: [view] cannot infer
    the [-1] of [(0, -1)]. *)
Lemma empty_batch (rng : nat -> nat -> R) (cuda_available : bool)
    (c h w n : Z) (state : Tensor R) :
  1 <= c -> 36 <= h -> 36 <= w ->
  shape state = [0; c; h; w] ->
  (exists q,
     DeepConvQNetwork.forward (q_network rng cuda_available c h w n) state
       = Ok q /\ shape q = [0; n]) /\
  DuelingDeepConvQNetwork.forward (dueling_network rng c h w n) state =
    Err (RuntimeError InvalidView).
Proof.
  intros Hc Hh Hw Hs. split.
  - destruct (q_forward_ok rng cuda_available 0 c h w n state Hc Hh Hw Hs)
      as (y & _ & _ & Hq).
    eexists. split; [exact Hq | reflexivity].
  - destruct (trunk_call_ok rng 0 c h w state Hc Hh Hw Hs) as (y & Hy & Hsy).
    rewrite dueling_forward_steps, Hy. cbn [bind].
    unfold size. rewrite Hsy. cbn [nth_error bind].
    unfold view. rewrite view_shape_rows by lia. reflexivity.
Qed.

End Remarks.

(** The mean is taken over the whole batch, so a row of the dueling result
    depends on the other rows: the advantages [[1, 2, 3]] with the value
    [[10]] give [[9, 10, 11]] alone and [[15/2, 17/2, 19/2]] next to the
    row [[4, 5, 6]]. *)
Lemma dueling_row_depends_on_the_batch :
  map this (dueling_data (of_ints [10]) (of_ints [1; 2; 3]) 1 3) =
    [9 # 1; 10 # 1; 11 # 1]%Q /\
  map this
    (slice (dueling_data (of_ints [10; 20]) (of_ints [1; 2; 3; 4; 5; 6]) 2 3)
           0 3) =
    [15 # 2; 17 # 2; 19 # 2]%Q.
Proof. split; vm_compute; reflexivity. Qed.

(** ** States of another shape than the configured one *)

Section OtherShapes.

Context {R : Type} {SR : Scalar R}.

(** The trunk on a batch of at least one sample: what a success says about
    the shape of the input. *)
Lemma trunk_shape_inv (rng : nat -> nat -> R) (b c c' h w : Z) (s : list Z) :
  1 <= b -> 1 <= c ->
  call_shape (trunk rng c) [b; c'; h; w] = Ok s ->
  c' = c /\ 36 <= h /\ 36 <= w /\ s = [b; 64; trunk_out h; trunk_out w].
Proof.
  intros Hb Hc. shape_run. unfold trunk_out.
  split_checks; intros H; try discriminate H;
    injection H as <-; repeat split; try reflexivity;
    unfold conv_out in *; Z.div_mod_to_equations; nia.
Qed.

(** The first check that fails decides the error. *)
Lemma trunk_shape_errors (rng : nat -> nat -> R) (b c c' h w : Z) :
  1 <= b -> 1 <= c ->
  (c' <> c ->
   call_shape (trunk rng c) [b; c'; h; w] = Err (RuntimeError ChannelMismatch)) /\
  (c' = c -> h < 36 \/ w < 36 ->
   call_shape (trunk rng c) [b; c'; h; w] = Err (RuntimeError KernelTooLarge)).
Proof.
  intros Hb Hc. split.
  - intros Hne. shape_run. replace (c' =? c) with false by lia. reflexivity.
  - intros -> Hsmall. shape_run.
    split_checks; try reflexivity; exfalso;
      unfold conv_out in *; Z.div_mod_to_equations; nia.
Qed.

Lemma trunk_call_inv (rng : nat -> nat -> R) (b c c' h w : Z)
    (x y : Tensor R) :
  1 <= b -> 1 <= c -> shape x = [b; c'; h; w] ->
  call (trunk rng c) x = Ok y ->
  c' = c /\ 36 <= h /\ 36 <= w /\ shape y = [b; 64; trunk_out h; trunk_out w].
Proof.
  intros Hb Hc Hs Hy.
  pose proof (call_shape_sound (trunk rng c) x) as Hsound.
  rewrite Hy, Hs in Hsound. cbn [rmap] in Hsound. symmetry in Hsound.
  exact (trunk_shape_inv rng b c c' h w (shape y) Hb Hc Hsound).
Qed.

Lemma linear_mismatch (gw gb : nat -> R) (fin fout b d : Z) (x : Tensor R) :
  shape x = [b; d] -> d <> fin ->
  linear (linear_layer gw gb fin fout) x = Err (RuntimeError MatMulMismatch).
Proof.
  intros Hs Hd. unfold linear, linear_shape. rewrite Hs.
  cbn [rev app in_features linear_layer].
  replace (d =? fin) with false by lia. reflexivity.
Qed.

(** [DeepConvQNetwork.forward] on a batch of any height and width. *)
Lemma q_forward_cases (rng : nat -> nat -> R) (cuda_available : bool)
    (b c h w n c' h' w' : Z) (state : Tensor R) :
  1 <= b -> 1 <= c ->
  shape state = [b; c'; h'; w'] ->
  let r := DeepConvQNetwork.forward (q_network rng cuda_available c h w n)
             state in
  (c' <> c -> r = Err (RuntimeError ChannelMismatch)) /\
  (c' = c -> h' < 36 \/ w' < 36 -> r = Err (RuntimeError KernelTooLarge)) /\
  (c' = c -> 36 <= h' -> 36 <= w' ->
   feature_width h' w' <> feature_width h w ->
   r = Err (RuntimeError MatMulMismatch)) /\
  (c' = c -> 36 <= h' -> 36 <= w' ->
   feature_width h' w' = feature_width h w ->
   exists q, r = Ok q /\ shape q = [b; n]).
Proof.
  intros Hb Hc Hs r. subst r. rewrite q_forward_steps.
  destruct (trunk_shape_errors rng b c c' h' w' Hb Hc) as [Hch Hk].
  split; [|split; [|split]].
  - intros Hne.
    rewrite (call_err_shape (trunk rng c) state
               (RuntimeError ChannelMismatch)); [reflexivity|].
    rewrite Hs. now apply Hch.
  - intros He Hsmall.
    rewrite (call_err_shape (trunk rng c) state
               (RuntimeError KernelTooLarge)); [reflexivity|].
    rewrite Hs. now apply Hk.
  - intros -> Hh Hw Hne.
    destruct (trunk_call_ok rng b c h' w' state Hc Hh Hw Hs) as (y & Hy & Hsy).
    rewrite Hy. cbn [bind]. rewrite (flatten_features y b h' w' Hsy).
    cbn [bind].
    now rewrite (linear_mismatch _ _ (feature_width h w) 512 b
                   (feature_width h' w')).
  - intros -> Hh Hw He.
    destruct (trunk_call_ok rng b c h' w' state Hc Hh Hw Hs) as (y & Hy & Hsy).
    rewrite Hy. cbn [bind]. rewrite (flatten_features y b h' w' Hsy).
    cbn [bind]. rewrite He.
    rewrite (linear_rows _ _ (feature_width h w) 512 b) by reflexivity.
    cbn [bind].
    rewrite (linear_rows _ _ 512 n b) by reflexivity.
    eexists. split; reflexivity.
Qed.

(** [DuelingDeepConvQNetwork.forward], likewise. *)
Lemma dueling_forward_cases (rng : nat -> nat -> R)
    (b c h w n c' h' w' : Z) (state : Tensor R) :
  1 <= b -> 1 <= c -> 0 <= n ->
  shape state = [b; c'; h'; w'] ->
  let r := DuelingDeepConvQNetwork.forward (dueling_network rng c h w n)
             state in
  (c' <> c -> r = Err (RuntimeError ChannelMismatch)) /\
  (c' = c -> h' < 36 \/ w' < 36 -> r = Err (RuntimeError KernelTooLarge)) /\
  (c' = c -> 36 <= h' -> 36 <= w' ->
   feature_width h' w' <> feature_width h w ->
   r = Err (RuntimeError MatMulMismatch)) /\
  (c' = c -> 36 <= h' -> 36 <= w' ->
   feature_width h' w' = feature_width h w ->
   exists q, r = Ok q /\ shape q = [b; n]).
Proof.
  intros Hb Hc Hn Hs r. subst r. rewrite dueling_forward_steps.
  destruct (trunk_shape_errors rng b c c' h' w' Hb Hc) as [Hch Hk].
  split; [|split; [|split]].
  - intros Hne.
    rewrite (call_err_shape (trunk rng c) state
               (RuntimeError ChannelMismatch)); [reflexivity|].
    rewrite Hs. now apply Hch.
  - intros He Hsmall.
    rewrite (call_err_shape (trunk rng c) state
               (RuntimeError KernelTooLarge)); [reflexivity|].
    rewrite Hs. now apply Hk.
  - intros -> Hh Hw Hne.
    destruct (trunk_call_ok rng b c h' w' state Hc Hh Hw Hs) as (y & Hy & Hsy).
    rewrite Hy. cbn [bind]. unfold size. rewrite Hsy. cbn [nth_error bind].
    rewrite (view_features y b h' w' Hb Hsy). cbn [bind].
    now rewrite (linear_mismatch _ _ (feature_width h w) 128 b
                   (feature_width h' w')).
  - intros -> Hh Hw He.
    destruct (trunk_call_ok rng b c h' w' state Hc Hh Hw Hs) as (y & Hy & Hsy).
    rewrite Hy. cbn [bind]. unfold size. rewrite Hsy. cbn [nth_error bind].
    rewrite (view_features y b h' w' Hb Hsy). cbn [bind]. rewrite He.
    rewrite (linear_rows _ _ (feature_width h w) 128 b) by reflexivity.
    cbn [bind].
    rewrite (linear_rows _ _ 128 1 b) by reflexivity. cbn [bind].
    rewrite (linear_rows _ _ (feature_width h w) 128 b) by reflexivity.
    cbn [bind].
    rewrite (linear_rows _ _ 128 n b) by reflexivity. cbn [bind].
    rewrite (sub_scalar _ _ b n) by (try reflexivity; lia). cbn [bind].
    rewrite (add_column _ _ b n) by (try reflexivity; lia).
    eexists. split; reflexivity.
Qed.

End OtherShapes.

(** ** A single sample without the batch dimension *)

Section Unbatched.

Context {R : Type} {SR : Scalar R}.

Lemma trunk_shape_unbatched (rng : nat -> nat -> R) (c h w : Z) :
  1 <= c -> 36 <= h -> 36 <= w ->
  call_shape (trunk rng c) [c; h; w] = Ok [64; trunk_out h; trunk_out w].
Proof.
  intros Hc Hh Hw. shape_run. unfold trunk_out.
  split_checks; try reflexivity; exfalso; unfold conv_out in *;
    Z.div_mod_to_equations; nia.
Qed.

Lemma spatial_below_feature_width (h w : Z) :
  36 <= h -> 36 <= w -> trunk_out h * trunk_out w <> feature_width h w.
Proof.
  intros Hh Hw. rewrite feature_width_eq.
  pose proof (trunk_out_ge h Hh). pose proof (trunk_out_ge w Hw). nia.
Qed.

Lemma q_forward_unbatched (rng : nat -> nat -> R) (cuda_available : bool)
    (c h w n : Z) (state : Tensor R) :
  1 <= c -> 36 <= h -> 36 <= w ->
  shape state = [c; h; w] ->
  DeepConvQNetwork.forward (q_network rng cuda_available c h w n) state =
  Err (RuntimeError MatMulMismatch).
Proof.
  intros Hc Hh Hw Hs. rewrite q_forward_steps.
  destruct (call_ok_shape (trunk rng c) state
              [64; trunk_out h; trunk_out w]) as (y & Hy & Hsy).
  { rewrite Hs. now apply trunk_shape_unbatched. }
  rewrite Hy. cbn [bind]. unfold flatten, flatten_shape. rewrite Hsy.
  cbn [bind].
  rewrite (linear_mismatch _ _ (feature_width h w) 512 64
             (numel [trunk_out h; trunk_out w])); try reflexivity.
  cbn [numel fold_right]. rewrite Z.mul_1_r.
  now apply spatial_below_feature_width.
Qed.

Lemma dueling_forward_unbatched (rng : nat -> nat -> R)
    (c h w n : Z) (state : Tensor R) :
  1 <= c -> 36 <= h -> 36 <= w ->
  shape state = [c; h; w] ->
  DuelingDeepConvQNetwork.forward (dueling_network rng c h w n) state =
  Err (RuntimeError MatMulMismatch).
Proof.
  intros Hc Hh Hw Hs. rewrite dueling_forward_steps.
  destruct (call_ok_shape (trunk rng c) state
              [64; trunk_out h; trunk_out w]) as (y & Hy & Hsy).
  { rewrite Hs. now apply trunk_shape_unbatched. }
  rewrite Hy. cbn [bind]. unfold size. rewrite Hsy. cbn [nth_error bind].
  unfold view. rewrite Hsy, view_shape_rows by lia.
  replace (numel [64; trunk_out h; trunk_out w])
    with (trunk_out h * trunk_out w * 64)
    by (cbn [numel fold_right]; ring).
  rewrite Z.mod_mul, Z.div_mul by lia. cbn [Z.eqb bind].
  rewrite (linear_mismatch _ _ (feature_width h w) 128 64
             (trunk_out h * trunk_out w)); try reflexivity.
  now apply spatial_below_feature_width.
Qed.

(** The flattening written out in the dueling [forward] is [nn.Flatten] on
    every 4-dimensional tensor with at least one sample. *)
Lemma view_rows_is_flatten (y : Tensor R) (b c h w : Z) :
  1 <= b -> shape y = [b; c; h; w] ->
  (n0 <- size y 0 ;; view y [n0; -1]) = flatten y.
Proof.
  intros Hb Hs. unfold size, view, flatten, flatten_shape. rewrite Hs.
  cbn [nth_error bind]. rewrite view_shape_rows by lia.
  replace (numel [b; c; h; w]) with (numel [c; h; w] * b)
    by (cbn [numel fold_right]; ring).
  rewrite Z.mod_mul, Z.div_mul by lia.
  replace (b =? 0) with false by lia. reflexivity.
Qed.

End Unbatched.

(** ** Algebra of the dueling combination, in exact arithmetic *)

Section DuelingAlgebra.

Context {R : Type} {SR : Scalar R} {ER : ExactScalar R}.

Add Field scalar_field_dueling : exact_field.

Lemma at_map (f : R -> R) (l : list R) (k : Z) :
  0 <= k < Z.of_nat (length l) -> at_ (map f l) k = f (at_ l k).
Proof.
  intros Hk. unfold at_.
  rewrite nth_indep with (d' := f s_zero) by (rewrite length_map; lia).
  apply map_nth.
Qed.

Lemma sum_cons (a : R) (l : list R) : sum (a :: l) = s_add a (sum l).
Proof.
  change (a :: l) with ([a] ++ l). rewrite sum_app. unfold sum at 1.
  cbn [fold_left]. ring.
Qed.

Lemma sum_map_shift (k : R) (l : list R) :
  sum (map (fun x => s_add x k) l) =
  s_add (sum l) (s_mul (s_of_Z (Z.of_nat (length l))) k).
Proof.
  induction l as [|a l IH].
  - cbn [map length Z.of_nat]. rewrite of_Z_0. unfold sum. cbn [fold_left].
    ring.
  - cbn [map length]. rewrite !sum_cons, IH.
    replace (Z.of_nat (S (length l))) with (1 + Z.of_nat (length l)) by lia.
    rewrite of_Z_add, of_Z_1. ring.
Qed.

(** Entry [(i, j)] minus entry [(i, j')] of the result is the difference of
    the two advantages. *)
Lemma dueling_data_gap (v a : list R) (b n i j j' : Z) :
  0 <= i < b -> 0 <= j < n -> 0 <= j' < n ->
  s_sub (at_ (dueling_data v a b n) (i * n + j))
        (at_ (dueling_data v a b n) (i * n + j')) =
  s_sub (at_ a (i * n + j)) (at_ a (i * n + j')).
Proof.
  intros Hi Hj Hj'. rewrite !dueling_data_entry by assumption. ring.
Qed.

(** Adding one constant to every advantage leaves the result as it is. *)
Lemma dueling_data_shift (v a : list R) (b n : Z) (k : R) :
  Z.of_nat (length a) = b * n -> 1 <= b * n ->
  dueling_data v (map (fun x => s_add x k) a) b n = dueling_data v a b n.
Proof.
  intros Hlen Hpos. unfold dueling_data.
  apply map_zrange_ext. intros i Hi.
  rewrite at_map by lia. rewrite sum_map_shift, Hlen.
  pose proof (of_Z_nonzero (b * n) ltac:(lia)) as Hnz.
  field. exact Hnz.
Qed.

End DuelingAlgebra.

(** ** Shifting the biases of the last advantage layer *)

Section BiasShift.

Context {R : Type} {SR : Scalar R} {ER : ExactScalar R}.

Add Field scalar_field_shift : exact_field.

Lemma parameter_of_ext (g g' : nat -> R) (sizes : list Z) :
  (forall i, g' i = g i) -> parameter_of g' sizes = parameter_of g sizes.
Proof.
  intros H. unfold parameter_of. f_equal. apply map_ext. exact H.
Qed.

Lemma linear_layer_ext (gw gw' gb gb' : nat -> R) (fin fout : Z) :
  (forall i, gw' i = gw i) -> (forall i, gb' i = gb i) ->
  linear_layer gw' gb' fin fout = linear_layer gw gb fin fout.
Proof.
  intros Hw Hb. unfold linear_layer.
  now rewrite (parameter_of_ext gw gw' _ Hw), (parameter_of_ext gb gb' _ Hb).
Qed.

Lemma conv_layer_ext (gw gw' gb gb' : nat -> R) (cin cout k s : Z) :
  (forall i, gw' i = gw i) -> (forall i, gb' i = gb i) ->
  conv_layer gw' gb' cin cout k s = conv_layer gw gb cin cout k s.
Proof.
  intros Hw Hb. unfold conv_layer.
  now rewrite (parameter_of_ext gw gw' _ Hw), (parameter_of_ext gb gb' _ Hb).
Qed.

Lemma fold_step_shift (step : Z -> R) (l : list Z) (acc k : R) :
  fold_left (fun a i => s_add a (step i)) l (s_add acc k) =
  s_add (fold_left (fun a i => s_add a (step i)) l acc) k.
Proof.
  revert acc. induction l as [|i l IH]; intros acc; cbn [fold_left].
  - reflexivity.
  - rewrite <- IH. f_equal. ring.
Qed.

Lemma bias_at_parameter (g : nat -> R) (n o : Z) :
  0 <= o < n ->
  bias_at (Some (parameter_of g [n])) o = g (Z.to_nat o).
Proof.
  intros Ho. unfold bias_at, parameter_of, at_. cbn [data numel fold_right].
  rewrite nth_indep with (d' := g O) by (rewrite length_map, length_seq; lia).
  rewrite map_nth, seq_nth by lia. reflexivity.
Qed.

(** A layer whose biases are all raised by [k] returns rows raised by [k]. *)
Lemma linear_row_shift (gw gb gb' : nat -> R) (fin fout : Z) (k : R)
    (x : list R) :
  (forall i, gb' i = s_add (gb i) k) ->
  linear_row (linear_layer gw gb' fin fout) x =
  map (fun v => s_add v k) (linear_row (linear_layer gw gb fin fout) x).
Proof.
  intros Hb. unfold linear_row. rewrite map_map.
  cbn [out_features in_features lin_weight lin_bias linear_layer].
  apply map_ext_in. intros o Ho. apply zrange_In in Ho.
  rewrite !bias_at_parameter by exact Ho. rewrite Hb.
  apply (fold_step_shift
           (fun i => s_mul (at_ (data (parameter_of gw [fout; fin]))
                                (o * fin + i)) (at_ x i))).
Qed.

Lemma linear_data_shift (gw gb gb' : nat -> R) (fin fout b : Z) (k : R)
    (d : list R) :
  (forall i, gb' i = s_add (gb i) k) ->
  linear_data (linear_layer gw gb' fin fout) b d =
  map (fun v => s_add v k) (linear_data (linear_layer gw gb fin fout) b d).
Proof.
  intros Hb. unfold linear_data.
  cbn [in_features linear_layer].
  rewrite !flat_map_concat_map, concat_map, map_map. f_equal.
  apply map_ext. intros r. now apply linear_row_shift.
Qed.

(** Two instances that differ by one constant added to every bias of the
    last advantage layer return the same result. *)
Lemma dueling_forward_bias_shift (rng rng' : nat -> nat -> R)
    (b c h w n : Z) (k : R) (state : Tensor R) :
  1 <= c -> 36 <= h -> 36 <= w -> 0 <= n -> 1 <= b ->
  shape state = [b; c; h; w] ->
  (forall j i, j <> 13%nat -> rng' j i = rng j i) ->
  (forall i, rng' 13%nat i = s_add (rng 13%nat i) k) ->
  DuelingDeepConvQNetwork.forward (dueling_network rng' c h w n) state =
  DuelingDeepConvQNetwork.forward (dueling_network rng c h w n) state.
Proof.
  intros Hc Hh Hw Hn Hb Hs Hsame Hshift.
  assert (Htrunk : trunk rng' c = trunk rng c).
  { unfold trunk.
    rewrite (conv_layer_ext (rng 0%nat) (rng' 0%nat) (rng 1%nat) (rng' 1%nat)),
      (conv_layer_ext (rng 2%nat) (rng' 2%nat) (rng 3%nat) (rng' 3%nat)),
      (conv_layer_ext (rng 4%nat) (rng' 4%nat) (rng 5%nat) (rng' 5%nat))
      by (intros i; apply Hsame; discriminate).
    reflexivity. }
  destruct (dueling_forward_ok rng b c h w n state Hc Hh Hw Hn Hb Hs)
    as (y & Hy & _ & HQ).
  destruct (dueling_forward_ok rng' b c h w n state Hc Hh Hw Hn Hb Hs)
    as (y' & Hy' & _ & HQ').
  rewrite Htrunk, Hy in Hy'. injection Hy' as <-.
  rewrite HQ, HQ'. do 2 f_equal.
  assert (Hv : value_head rng' h w b (data y) = value_head rng h w b (data y)).
  { unfold value_head.
    rewrite (linear_layer_ext (rng 6%nat) (rng' 6%nat)
               (rng 7%nat) (rng' 7%nat)),
      (linear_layer_ext (rng 8%nat) (rng' 8%nat) (rng 9%nat) (rng' 9%nat))
      by (intros i; apply Hsame; discriminate).
    reflexivity. }
  assert (Ha : advantage_head rng' h w n b (data y) =
               map (fun v => s_add v k) (advantage_head rng h w n b (data y))).
  { unfold advantage_head.
    rewrite (linear_layer_ext (rng 10%nat) (rng' 10%nat)
               (rng 11%nat) (rng' 11%nat))
      by (intros i; apply Hsame; discriminate).
    rewrite (linear_layer_ext (rng 12%nat) (rng' 12%nat)
               (rng' 13%nat) (rng' 13%nat))
      by (intros i; (apply Hsame; discriminate) || reflexivity).
    now apply linear_data_shift. }
  rewrite Hv, Ha.
  destruct (Z.eq_dec n 0) as [->|Hn0].
  - unfold dueling_data. now rewrite Z.mul_0_r.
  - apply dueling_data_shift.
    + unfold advantage_head. rewrite linear_data_length;
        cbn [out_features linear_layer]; lia.
    + nia.
Qed.

End BiasShift.

(** ** Batches of arbitrary samples *)

Section Stacks.

Context {R : Type} {SR : Scalar R}.

Lemma zrange_succ (k : nat) :
  zrange (Z.of_nat (S k)) = 0 :: map (fun b => b + 1) (zrange (Z.of_nat k)).
Proof.
  unfold zrange. rewrite !Nat2Z.id. cbn [seq map]. f_equal.
  rewrite <- seq_shift, !map_map. apply map_ext. intros i. lia.
Qed.

Lemma slice_head (d rest : list R) (L : Z) :
  Z.of_nat (length d) = L -> slice (d ++ rest) 0 L = d.
Proof.
  intros HL. unfold slice. cbn [Z.to_nat skipn].
  replace (Z.to_nat L) with (length d + 0)%nat by lia.
  rewrite firstn_app_2. cbn [firstn]. apply app_nil_r.
Qed.

Lemma slice_tail (d rest : list R) (L b : Z) :
  Z.of_nat (length d) = L -> 0 <= b ->
  slice (d ++ rest) ((b + 1) * L) L = slice rest (b * L) L.
Proof.
  intros HL Hb. unfold slice. f_equal.
  replace (Z.to_nat ((b + 1) * L)) with (length d + Z.to_nat (b * L))%nat
    by nia.
  rewrite skipn_app, skipn_all2 by lia.
  replace (length d + Z.to_nat (b * L) - length d)%nat
    with (Z.to_nat (b * L)) by lia.
  reflexivity.
Qed.

(** Cutting a batch into its samples and mapping [f] over them. *)
Lemma flat_map_slices (f : list R -> list R) (L : Z) (xs : list (list R)) :
  Forall (fun d => Z.of_nat (length d) = L) xs ->
  flat_map (fun b => f (slice (concat xs) (b * L) L))
           (zrange (Z.of_nat (length xs))) =
  concat (map f xs).
Proof.
  induction 1 as [|d xs Hd Hxs IH]; [reflexivity|].
  cbn [length]. rewrite zrange_succ. cbn [flat_map concat map Z.mul].
  rewrite (slice_head d (concat xs) L Hd). f_equal.
  rewrite <- IH, !flat_map_concat_map, map_map. f_equal.
  apply map_ext_in. intros b Hb. apply zrange_In in Hb.
  now rewrite (slice_tail d (concat xs) L b Hd) by lia.
Qed.

Lemma slice_concat_nth (L : Z) (xs : list (list R)) (i : nat) (d : list R) :
  Forall (fun d => Z.of_nat (length d) = L) xs ->
  nth_error xs i = Some d ->
  slice (concat xs) (Z.of_nat i * L) L = d.
Proof.
  intros Hall. revert i. induction Hall as [|d0 xs Hd Hxs IH]; intros i Hi.
  - destruct i; discriminate.
  - destruct i as [|i]; cbn [nth_error concat] in *.
    + injection Hi as <-. cbn [Z.of_nat Z.mul]. now apply slice_head.
    + replace (Z.of_nat (S i)) with (Z.of_nat i + 1) by lia.
      rewrite (slice_tail d0 (concat xs) L (Z.of_nat i) Hd) by lia.
      now apply IH.
Qed.

Lemma at_slice (l : list R) (start len j : Z) :
  0 <= start -> 0 <= j < len ->
  at_ (slice l start len) j = at_ l (start + j).
Proof.
  intros Hs Hj. unfold at_, slice.
  rewrite nth_firstn.
  replace (Z.to_nat j <? Z.to_nat len)%nat with true
    by (symmetry; apply Nat.ltb_lt; lia).
  rewrite nth_skipn. f_equal. lia.
Qed.

Lemma at_concat_nth (L : Z) (xs : list (list R)) (i : nat) (d : list R)
    (j : Z) :
  Forall (fun d => Z.of_nat (length d) = L) xs ->
  nth_error xs i = Some d -> 0 <= j < L ->
  at_ (concat xs) (Z.of_nat i * L + j) = at_ d j.
Proof.
  intros Hall Hi Hj.
  rewrite <- (slice_concat_nth L xs i d Hall Hi).
  rewrite at_slice by nia. reflexivity.
Qed.

Lemma conv2d_check_any (m : Conv2d R) (B C H W : Z) :
  C <> 0 -> conv2d_check m B C H W = conv2d_check m 1 C H W.
Proof.
  intros HC. unfold conv2d_check.
  replace (C =? 0) with false by lia. cbn [andb].
  replace (1 =? 0) with false by lia.
  now destruct (B =? 0).
Qed.

Lemma conv_layer_check (gw gb : nat -> R) (cin cout k s H W : Z) :
  1 <= cin -> 0 < s -> k <= H -> k <= W ->
  conv2d_check (conv_layer gw gb cin cout k s) 1 cin H W =
  Ok (conv_out H k s 0, conv_out W k s 0).
Proof.
  intros Hc Hs HH HW. unfold conv2d_check.
  cbn [in_channels out_channels kernel_size stride padding conv_layer].
  rewrite Z.eqb_refl. cbn [negb].
  replace (s <=? 0) with false by lia.
  replace (H + 2 * 0 <? k) with false by lia.
  replace (W + 2 * 0 <? k) with false by lia.
  replace (cin =? 0) with false by lia. reflexivity.
Qed.

(** A convolution on a batch returns, sample by sample, what it returns on
    each sample. *)
Lemma conv2d_stack (m : Conv2d R) (C H W OH OW : Z) (xs : list (list R)) :
  C <> 0 ->
  conv2d_check m 1 C H W = Ok (OH, OW) ->
  Forall (fun d => Z.of_nat (length d) = C * (H * W)) xs ->
  conv2d m (stack [C; H; W] xs) =
  Ok (stack [out_channels m; OH; OW] (map (conv2d_sample m C H W OH OW) xs)).
Proof.
  intros HC Hck Hall.
  rewrite <- (conv2d_check_any m (Z.of_nat (length xs)) C H W HC) in Hck.
  rewrite (conv2d_batch m (stack [C; H; W] xs) _ C H W OH OW eq_refl Hck).
  unfold stack. cbn [data]. rewrite length_map. do 2 f_equal.
  now apply flat_map_slices.
Qed.

Lemma relu_stack (s : list Z) (xs : list (list R)) :
  relu (stack s xs) = stack s (map (map relu_scalar) xs).
Proof.
  unfold relu, stack. cbn [shape data].
  now rewrite length_map, concat_map.
Qed.

Lemma Forall_sample_length (m : Conv2d R) (C H W OH OW : Z)
    (xs : list (list R)) :
  0 <= out_channels m -> 0 <= OH -> 0 <= OW ->
  Forall (fun d => Z.of_nat (length d) = out_channels m * (OH * OW))
         (map (map relu_scalar) (map (conv2d_sample m C H W OH OW) xs)).
Proof.
  intros Ho Hh Hw. rewrite map_map. apply Forall_map, Forall_forall.
  intros d _. rewrite length_map. now apply conv2d_sample_length.
Qed.

(** The trunk on a batch of samples. *)
Lemma trunk_stack (rng : nat -> nat -> R) (c h w : Z) (xs : list (list R)) :
  1 <= c -> 36 <= h -> 36 <= w ->
  Forall (fun d => Z.of_nat (length d) = c * (h * w)) xs ->
  call (trunk rng c) (stack [c; h; w] xs) =
    Ok (stack [64; trunk_out h; trunk_out w] (map (trunk_data rng c h w) xs))
  /\
  Forall (fun d => Z.of_nat (length d) = feature_width h w)
         (map (trunk_data rng c h w) xs).
Proof.
  intros Hc Hh Hw Hall.
  set (h1 := conv_out h 8 4 0). set (w1 := conv_out w 8 4 0).
  set (h2 := conv_out h1 4 2 0). set (w2 := conv_out w1 4 2 0).
  assert (Hb : 8 <= h1 /\ 8 <= w1 /\ 3 <= h2 /\ 3 <= w2 /\
               1 <= conv_out h2 3 1 0 /\ 1 <= conv_out w2 3 1 0).
  { subst h1 w1 h2 w2. unfold conv_out. Z.div_mod_to_equations. lia. }
  destruct Hb as (Hh1 & Hw1 & Hh2 & Hw2 & Hh3 & Hw3).
  split.
  - unfold trunk. cbn [call].
    rewrite (conv2d_stack _ c h w h1 w1 xs) by
      (try lia; try assumption; apply conv_layer_check; lia).
    cbn [bind out_channels conv_layer]. rewrite relu_stack.
    rewrite (conv2d_stack _ 32 h1 w1 h2 w2) by
      (try lia; try (apply conv_layer_check; lia);
       apply (Forall_sample_length
                (conv_layer (rng 0%nat) (rng 1%nat) c 32 8 4)); cbn; lia).
    cbn [bind out_channels conv_layer]. rewrite relu_stack.
    rewrite (conv2d_stack _ 64 h2 w2 (conv_out h2 3 1 0) (conv_out w2 3 1 0))
      by (try lia; try (apply conv_layer_check; lia);
          apply (Forall_sample_length
                   (conv_layer (rng 2%nat) (rng 3%nat) 32 64 4 2)); cbn; lia).
    cbn [bind out_channels conv_layer]. rewrite relu_stack.
    unfold trunk_data, trunk_out. fold h1 w1. fold h2 w2.
    now rewrite !map_map.
  - apply Forall_map, Forall_forall. intros d _. unfold trunk_data.
    fold h1 w1. fold h2 w2. cbv zeta. rewrite length_map.
    rewrite (conv2d_sample_length
               (conv_layer (rng 4%nat) (rng 5%nat) 64 64 3 1))
      by (cbn [out_channels conv_layer]; lia).
    cbn [out_channels conv_layer]. rewrite feature_width_eq.
    unfold trunk_out. fold h1 w1. fold h2 w2. reflexivity.
Qed.

End Stacks.

Section HeadStacks.

Context {R : Type} {SR : Scalar R}.

Lemma linear_data_one (m : Linear R) (d : list R) :
  Z.of_nat (length d) = in_features m ->
  linear_data m 1 d = linear_row m d.
Proof.
  intros Hd. unfold linear_data. rewrite zrange_1. cbn [flat_map Z.mul].
  now rewrite app_nil_r, (slice_whole d (in_features m) Hd).
Qed.

Lemma linear_row_length (m : Linear R) (d : list R) :
  0 <= out_features m -> Z.of_nat (length (linear_row m d)) = out_features m.
Proof.
  intros Ho. unfold linear_row. rewrite length_map, zrange_length. lia.
Qed.

Lemma linear_data_stack (m : Linear R) (ds : list (list R)) :
  Forall (fun d => Z.of_nat (length d) = in_features m) ds ->
  linear_data m (Z.of_nat (length ds)) (concat ds) =
  concat (map (linear_row m) ds).
Proof.
  intros Hall. unfold linear_data. now apply flat_map_slices.
Qed.

(** Two linear layers with an activation between them, on a batch of rows
    and on one row. *)
Lemma two_layer_stack (l1 l2 : Linear R) (ds : list (list R)) :
  Forall (fun d => Z.of_nat (length d) = in_features l1) ds ->
  0 <= out_features l1 -> out_features l1 = in_features l2 ->
  linear_data l2 (Z.of_nat (length ds))
    (map relu_scalar (linear_data l1 (Z.of_nat (length ds)) (concat ds))) =
  concat (map (two_layer_row l1 l2) ds).
Proof.
  intros Hall Ho Hio.
  rewrite (linear_data_stack l1 ds Hall), concat_map, map_map.
  rewrite <- (length_map (fun d => map relu_scalar (linear_row l1 d)) ds) at 1.
  rewrite linear_data_stack, map_map; [reflexivity|].
  apply Forall_map, Forall_forall. intros d _.
  rewrite length_map, <- Hio. now apply linear_row_length.
Qed.

Lemma two_layer_one (l1 l2 : Linear R) (d : list R) :
  Z.of_nat (length d) = in_features l1 ->
  0 <= out_features l1 -> out_features l1 = in_features l2 ->
  linear_data l2 1 (map relu_scalar (linear_data l1 1 d)) =
  two_layer_row l1 l2 d.
Proof.
  intros Hd Ho Hio. rewrite (linear_data_one l1 d Hd).
  apply linear_data_one. rewrite length_map, <- Hio.
  now apply linear_row_length.
Qed.

Lemma two_layer_row_length (l1 l2 : Linear R) (d : list R) :
  0 <= out_features l2 ->
  Z.of_nat (length (two_layer_row l1 l2 d)) = out_features l2.
Proof. intros Ho. now apply linear_row_length. Qed.

End HeadStacks.

(** ** The forward passes on batches of arbitrary samples *)

Section ForwardStacks.

Context {R : Type} {SR : Scalar R}.

Lemma head_stack (l1 l2 : Linear R) (f : list R -> list R)
    (xs : list (list R)) :
  Forall (fun d => Z.of_nat (length d) = in_features l1) (map f xs) ->
  0 <= out_features l1 -> out_features l1 = in_features l2 ->
  linear_data l2 (Z.of_nat (length xs))
    (map relu_scalar
       (linear_data l1 (Z.of_nat (length xs)) (concat (map f xs)))) =
  concat (map (fun d => two_layer_row l1 l2 (f d)) xs).
Proof.
  intros Hall Ho Hio.
  rewrite <- (length_map f xs).
  rewrite (two_layer_stack l1 l2 (map f xs) Hall Ho Hio).
  now rewrite map_map.
Qed.

(** [DeepConvQNetwork.forward] maps a batch of samples to the batch of
    their rows. *)
Lemma q_forward_stack (rng : nat -> nat -> R) (cuda_available : bool)
    (c h w n : Z) (xs : list (list R)) :
  1 <= c -> 36 <= h -> 36 <= w ->
  Forall (fun d => Z.of_nat (length d) = c * (h * w)) xs ->
  DeepConvQNetwork.forward (q_network rng cuda_available c h w n)
    (stack [c; h; w] xs) =
  Ok (stack [n] (map (q_row rng c h w n) xs)).
Proof.
  intros Hc Hh Hw Hall.
  destruct (trunk_stack rng c h w xs Hc Hh Hw Hall) as [Ht Hlen].
  destruct (q_forward_ok rng cuda_available (Z.of_nat (length xs)) c h w n
              (stack [c; h; w] xs) Hc Hh Hw eq_refl) as (y & Hy & _ & Hq).
  rewrite Ht in Hy. injection Hy as Hy. subst y.
  rewrite Hq. unfold stack. cbn [data]. rewrite length_map. do 2 f_equal.
  unfold q_head, q_row. apply head_stack; cbn; (exact Hlen || lia).
Qed.

(** [DuelingDeepConvQNetwork.forward] on a batch of at least one sample:
    the streams act sample by sample, the combination on the batch. *)
Lemma dueling_forward_stack (rng : nat -> nat -> R)
    (c h w n : Z) (xs : list (list R)) :
  1 <= c -> 36 <= h -> 36 <= w -> 0 <= n -> xs <> [] ->
  Forall (fun d => Z.of_nat (length d) = c * (h * w)) xs ->
  DuelingDeepConvQNetwork.forward (dueling_network rng c h w n)
    (stack [c; h; w] xs) =
  Ok {| shape := [Z.of_nat (length xs); n];
        data := dueling_data (concat (map (value_row rng c h w) xs))
                             (concat (map (advantage_row rng c h w n) xs))
                             (Z.of_nat (length xs)) n |}.
Proof.
  intros Hc Hh Hw Hn Hne Hall.
  assert (HK : 1 <= Z.of_nat (length xs)) by (destruct xs; [congruence | cbn; lia]).
  destruct (trunk_stack rng c h w xs Hc Hh Hw Hall) as [Ht Hlen].
  destruct (dueling_forward_ok rng (Z.of_nat (length xs)) c h w n
              (stack [c; h; w] xs) Hc Hh Hw Hn HK eq_refl)
    as (y & Hy & _ & Hq).
  rewrite Ht in Hy. injection Hy as Hy. subst y.
  rewrite Hq. unfold stack. cbn [data].
  assert (Hv : value_head rng h w (Z.of_nat (length xs))
                 (concat (map (trunk_data rng c h w) xs)) =
               concat (map (value_row rng c h w) xs)).
  { unfold value_head, value_row. apply head_stack; cbn; (exact Hlen || lia). }
  assert (Ha : advantage_head rng h w n (Z.of_nat (length xs))
                 (concat (map (trunk_data rng c h w) xs)) =
               concat (map (advantage_row rng c h w n) xs)).
  { unfold advantage_head, advantage_row.
    apply head_stack; cbn; (exact Hlen || lia). }
  now rewrite Hv, Ha.
Qed.

Lemma q_row_length (rng : nat -> nat -> R) (c h w n : Z) (d : list R) :
  0 <= n -> Z.of_nat (length (q_row rng c h w n d)) = n.
Proof. intros Hn. unfold q_row. now rewrite two_layer_row_length. Qed.

Lemma value_row_length (rng : nat -> nat -> R) (c h w : Z) (d : list R) :
  Z.of_nat (length (value_row rng c h w d)) = 1.
Proof. unfold value_row. now rewrite two_layer_row_length. Qed.

Lemma advantage_row_length (rng : nat -> nat -> R) (c h w n : Z)
    (d : list R) :
  0 <= n -> Z.of_nat (length (advantage_row rng c h w n d)) = n.
Proof. intros Hn. unfold advantage_row. now rewrite two_layer_row_length. Qed.

End ForwardStacks.

Section DuelingStackOffset.

Context {R : Type} {SR : Scalar R} {ER : ExactScalar R}.

Add Field scalar_field_offset : exact_field.

(** A sample inside a batch and the same sample alone: the two rows differ
    by one constant, the difference of the two means. *)
Lemma dueling_forward_stack_offset (rng : nat -> nat -> R) (c h w n : Z)
    (xs : list (list R)) (i : nat) (d : list R) :
  1 <= c -> 36 <= h -> 36 <= w -> 0 <= n ->
  Forall (fun d => Z.of_nat (length d) = c * (h * w)) xs ->
  nth_error xs i = Some d ->
  exists qK q1 delta,
    DuelingDeepConvQNetwork.forward (dueling_network rng c h w n)
      (stack [c; h; w] xs) = Ok qK /\
    DuelingDeepConvQNetwork.forward (dueling_network rng c h w n)
      (stack [c; h; w] [d]) = Ok q1 /\
    shape qK = [Z.of_nat (length xs); n] /\
    shape q1 = [1; n] /\
    forall j, 0 <= j < n ->
      at_ (data qK) (Z.of_nat i * n + j) = s_add (at_ (data q1) j) delta.
Proof.
  intros Hc Hh Hw Hn Hall Hi.
  assert (Hne : xs <> []) by (intros ->; destruct i; discriminate).
  assert (Hd : Z.of_nat (length d) = c * (h * w)).
  { rewrite Forall_forall in Hall. apply Hall. eapply nth_error_In, Hi. }
  assert (Hlt : 0 <= Z.of_nat i < Z.of_nat (length xs)).
  { split; [lia|]. apply Nat2Z.inj_lt, nth_error_Some. congruence. }
  set (VK := concat (map (value_row rng c h w) xs)).
  set (AK := concat (map (advantage_row rng c h w n) xs)).
  set (v1 := value_row rng c h w d).
  set (a1 := advantage_row rng c h w n d).
  set (K := Z.of_nat (length xs)).
  exists {| shape := [K; n]; data := dueling_data VK AK K n |},
         {| shape := [1; n]; data := dueling_data v1 a1 1 n |},
         (s_sub (s_div (sum a1) (s_of_Z (1 * n)))
                (s_div (sum AK) (s_of_Z (K * n)))).
  split; [now apply dueling_forward_stack|].
  split.
  { rewrite dueling_forward_stack; auto; [|discriminate].
    cbn [map concat length Z.of_nat Pos.of_succ_nat].
    now rewrite !app_nil_r. }
  split; [reflexivity|]. split; [reflexivity|].
  intros j Hj. cbn [data].
  rewrite (dueling_data_entry VK AK K n (Z.of_nat i) j Hlt Hj).
  pose proof (dueling_data_entry v1 a1 1 n 0 j ltac:(lia) Hj) as E1.
  replace (0 * n + j) with j in E1 by lia. rewrite E1.
  assert (EV : at_ VK (Z.of_nat i) = at_ v1 0).
  { replace (Z.of_nat i) with (Z.of_nat i * 1 + 0) by lia.
    apply at_concat_nth; [| now apply map_nth_error | lia].
    apply Forall_map, Forall_forall. intros d' _. apply value_row_length. }
  assert (EA : at_ AK (Z.of_nat i * n + j) = at_ a1 j).
  { apply at_concat_nth; [| now apply map_nth_error | exact Hj].
    apply Forall_map, Forall_forall. intros d' _.
    now apply advantage_row_length. }
  rewrite EV, EA. ring.
Qed.

End DuelingStackOffset.

(** ** A network that passes one entry of the input on *)

Section Folds.

(** A fold whose steps all leave the accumulator as it is, and one in which
    only the step of index 0 does not. *)
Lemma fold_left_id {A B : Type} (F : A -> B -> A) (l : list B) (acc : A) :
  (forall k a, In k l -> F a k = a) -> fold_left F l acc = acc.
Proof.
  revert acc. induction l as [|k l IH]; intros acc H; cbn [fold_left].
  - reflexivity.
  - rewrite (H k acc (or_introl eq_refl)). apply IH.
    intros k' a Hk'. apply H. now right.
Qed.

Lemma fold_left_zrange_first {A : Type} (F : A -> Z -> A) (n : Z) (acc : A) :
  1 <= n -> (forall k a, 1 <= k < n -> F a k = a) ->
  fold_left F (zrange n) acc = F acc 0.
Proof.
  intros Hn H. unfold zrange.
  destruct (Z.to_nat n) as [|m] eqn:E; [lia|].
  cbn [seq map fold_left Z.of_nat]. apply fold_left_id.
  intros k a Hk. apply in_map_iff in Hk as (j & <- & Hj).
  apply in_seq in Hj. apply H. lia.
Qed.

End Folds.

Section FirstEntry.

Context {R : Type} {SR : Scalar R} {ER : ExactScalar R}.

Add Field scalar_field_first : exact_field.

(** Reading the two kinds of parameter tensors of [rng_first]. *)
Lemma at_first_only (sizes : list Z) (k : Z) :
  1 <= numel sizes -> 0 <= k ->
  at_ (data (parameter_of first_only sizes)) k =
  if k =? 0 then s_one else s_zero.
Proof.
  intros HN Hk. unfold at_, parameter_of. cbn [data].
  destruct (Z.eqb_spec k 0) as [->|Hk0].
  - destruct (Z.to_nat (numel sizes)) eqn:E; [lia|]. reflexivity.
  - destruct (Nat.lt_ge_cases (Z.to_nat k) (Z.to_nat (numel sizes))) as [Hlt|Hge].
    + rewrite nth_indep with (d' := first_only O (R := R))
        by (rewrite length_map, length_seq; exact Hlt).
      rewrite map_nth, seq_nth by exact Hlt.
      unfold first_only. destruct (Z.to_nat k) eqn:E; [lia|]. reflexivity.
    + apply nth_overflow. rewrite length_map, length_seq. exact Hge.
Qed.

Lemma at_no_bias (sizes : list Z) (k : Z) :
  at_ (data (parameter_of (fun _ : nat => s_zero) sizes)) k = s_zero.
Proof.
  unfold at_, parameter_of. cbn [data].
  generalize (seq 0 (Z.to_nat (numel sizes))) as l.
  generalize (Z.to_nat k) as j.
  intros j l. revert j. induction l as [|a l IH]; intros [|j]; cbn; auto.
Qed.

(** [relu] maps zero to zero, so it commutes with reading an entry. *)
Lemma at_relu (l : list R) (k : Z) :
  at_ (map relu_scalar l) k = relu_scalar (at_ l k).
Proof.
  unfold at_.
  replace (s_zero) with (relu_scalar s_zero) at 1
    by (unfold relu_scalar; destruct (s_leb s_zero s_zero); reflexivity).
  apply map_nth.
Qed.

(** A convolution whose only non-zero weight is the first one reads, for
    its first output channel, the corner of each window of the first input
    channel; the other output channels are zero. *)
Lemma conv2d_at_first (cin cout k s H W : Z) (x : list R) (o i j : Z) :
  1 <= cin -> 1 <= cout -> 1 <= k -> 0 <= o ->
  conv2d_at (conv_layer first_only (fun _ => s_zero) cin cout k s)
            cin H W x o i j =
  if o =? 0 then pad_at x H W 0 (i * s) (j * s) else s_zero.
Proof.
  intros Hcin Hcout Hk Ho. unfold conv2d_at, conv_layer.
  cbn [kernel_size conv_weight conv_bias stride padding bias_at].
  rewrite at_no_bias.
  assert (HN : 1 <= numel [cout; cin; k; k]) by (cbn [numel fold_right]; nia).
  assert (Hz : forall c ki kj a p,
             0 <= c -> 0 <= ki -> 0 <= kj -> o + c + ki + kj <> 0 ->
             s_add a (s_mul (at_ (data (parameter_of first_only [cout; cin; k; k]))
                                 (((o * cin + c) * k + ki) * k + kj)) p) = a).
  { intros c ki kj a p Hc Hki Hkj Hne.
    assert (H1 : o + c <= o * cin + c) by nia.
    assert (H2 : o * cin + c <= (o * cin + c) * k) by nia.
    assert (H3 : (o * cin + c) * k + ki <= ((o * cin + c) * k + ki) * k) by nia.
    rewrite at_first_only by (try exact HN; lia).
    destruct (Z.eqb_spec (((o * cin + c) * k + ki) * k + kj) 0) as [E|_];
      [lia | ring]. }
  destruct (Z.eqb_spec o 0) as [->|Ho0].
  - rewrite fold_left_zrange_first; [| lia |].
    + rewrite fold_left_zrange_first; [| lia |].
      * rewrite fold_left_zrange_first; [| lia |].
        -- rewrite at_first_only by (try exact HN; lia).
           cbn [Z.eqb Z.mul Z.add].
           replace (i * s + 0 - 0) with (i * s) by lia.
           replace (j * s + 0 - 0) with (j * s) by lia. ring.
        -- intros kj a Hkj. apply Hz; lia.
      * intros ki a Hki. apply fold_left_id. intros kj a' Hkj.
        apply zrange_In in Hkj. apply Hz; lia.
    + intros c a Hc. apply fold_left_id. intros ki a' Hki.
      apply zrange_In in Hki. apply fold_left_id. intros kj a'' Hkj.
      apply zrange_In in Hkj. apply Hz; lia.
  - apply fold_left_id. intros c a Hc. apply zrange_In in Hc.
    apply fold_left_id. intros ki a' Hki. apply zrange_In in Hki.
    apply fold_left_id. intros kj a'' Hkj. apply zrange_In in Hkj.
    apply Hz; lia.
Qed.


Lemma zrange_first (n : Z) : 1 <= n -> exists l, zrange n = 0 :: l.
Proof.
  intros Hn. unfold zrange. destruct (Z.to_nat n) eqn:E; [lia|].
  cbn [seq map Z.of_nat]. eexists. reflexivity.
Qed.

Lemma conv2d_sample_first (m : Conv2d R) (C H W OH OW : Z) (x : list R) :
  1 <= out_channels m -> 1 <= OH -> 1 <= OW ->
  at_ (conv2d_sample m C H W OH OW x) 0 = conv2d_at m C H W x 0 0 0.
Proof.
  intros Ho HOH HOW. unfold conv2d_sample.
  destruct (zrange_first _ Ho) as (lo & ->).
  destruct (zrange_first _ HOH) as (lh & ->).
  destruct (zrange_first _ HOW) as (lw & ->).
  cbn [flat_map map app]. reflexivity.
Qed.

(** The first feature is the first entry of the sample, rectified. *)
Lemma trunk_data_first (c h w : Z) (d : list R) :
  1 <= c -> 36 <= h -> 36 <= w ->
  at_ (trunk_data rng_first c h w d) 0 =
  relu_scalar (relu_scalar (relu_scalar (at_ d 0))).
Proof.
  intros Hc Hh Hw. unfold trunk_data.
  change (rng_first 0%nat) with (first_only (R := R)).
  change (rng_first 2%nat) with (first_only (R := R)).
  change (rng_first 4%nat) with (first_only (R := R)).
  change (rng_first 1%nat) with (fun _ : nat => s_zero (Scalar := SR)).
  change (rng_first 3%nat) with (fun _ : nat => s_zero (Scalar := SR)).
  change (rng_first 5%nat) with (fun _ : nat => s_zero (Scalar := SR)).
  assert (H1 : 1 <= conv_out h 8 4 0 /\ 1 <= conv_out w 8 4 0)
    by (unfold conv_out; split; Z.div_mod_to_equations; lia).
  assert (H2 : 1 <= conv_out (conv_out h 8 4 0) 4 2 0 /\
               1 <= conv_out (conv_out w 8 4 0) 4 2 0)
    by (unfold conv_out; split; Z.div_mod_to_equations; lia).
  assert (H3 : 1 <= conv_out (conv_out (conv_out h 8 4 0) 4 2 0) 3 1 0 /\
               1 <= conv_out (conv_out (conv_out w 8 4 0) 4 2 0) 3 1 0)
    by (unfold conv_out; split; Z.div_mod_to_equations; lia).
  rewrite at_relu, conv2d_sample_first by (cbn [out_channels conv_layer]; lia).
  rewrite conv2d_at_first by lia. cbn [Z.eqb].
  unfold pad_at at 1. cbn [Z.mul Z.add Z.leb Z.compare andb].
  replace (0 <? conv_out (conv_out h 8 4 0) 4 2 0) with true by lia.
  replace (0 <? conv_out (conv_out w 8 4 0) 4 2 0) with true by lia.
  cbn [andb].
  rewrite at_relu, conv2d_sample_first by (cbn [out_channels conv_layer]; lia).
  rewrite conv2d_at_first by lia. cbn [Z.eqb].
  unfold pad_at at 1. cbn [Z.mul Z.add Z.leb Z.compare andb].
  replace (0 <? conv_out h 8 4 0) with true by lia.
  replace (0 <? conv_out w 8 4 0) with true by lia.
  cbn [andb].
  rewrite at_relu, conv2d_sample_first by (cbn [out_channels conv_layer]; lia).
  rewrite conv2d_at_first by lia. cbn [Z.eqb].
  unfold pad_at at 1. cbn [Z.mul Z.add Z.leb Z.compare andb].
  replace (0 <? h) with true by lia.
  replace (0 <? w) with true by lia.
  reflexivity.
Qed.

(** A linear layer whose only non-zero weight is the first one. *)
Lemma linear_row_first (fin fout : Z) (x : list R) :
  1 <= fin ->
  linear_row (linear_layer first_only (fun _ => s_zero) fin fout) x =
  map (fun o => if o =? 0 then at_ x 0 else s_zero) (zrange fout).
Proof.
  intros Hfin. unfold linear_row, linear_layer.
  cbn [in_features out_features lin_weight lin_bias bias_at].
  apply map_ext_in. intros o Ho. apply zrange_In in Ho.
  rewrite at_no_bias.
  assert (HN : 1 <= numel [fout; fin]) by (cbn [numel fold_right]; nia).
  destruct (Z.eqb_spec o 0) as [->|Ho0].
  - rewrite fold_left_zrange_first; [| lia |].
    + rewrite at_first_only by (try exact HN; lia). cbn [Z.mul Z.add Z.eqb]. ring.
    + intros k a Hk. rewrite at_first_only by (try exact HN; lia).
      cbn [Z.mul Z.add].
      destruct (Z.eqb_spec k 0) as [E|_]; [lia | ring].
  - apply fold_left_id. intros k a Hk. apply zrange_In in Hk.
    rewrite at_first_only by (try exact HN; nia).
    destruct (Z.eqb_spec (o * fin + k) 0) as [E|_]; [nia | ring].
Qed.

Lemma two_layer_row_first (fin mid fout : Z) (d : list R) :
  1 <= fin -> 1 <= mid ->
  two_layer_row (linear_layer first_only (fun _ => s_zero) fin mid)
                (linear_layer first_only (fun _ => s_zero) mid fout) d =
  map (fun o => if o =? 0 then relu_scalar (at_ d 0) else s_zero)
      (zrange fout).
Proof.
  intros Hfin Hmid. unfold two_layer_row.
  rewrite (linear_row_first mid fout) by exact Hmid.
  rewrite at_relu, (linear_row_first fin mid) by exact Hfin.
  rewrite at_map_zrange by lia. reflexivity.
Qed.

Lemma value_row_first (c h w : Z) (d : list R) :
  1 <= c -> 36 <= h -> 36 <= w ->
  value_row rng_first c h w d =
  [relu_scalar (relu_scalar (relu_scalar (relu_scalar (at_ d 0))))].
Proof.
  intros Hc Hh Hw. unfold value_row.
  change (rng_first 6%nat) with (first_only (R := R)).
  change (rng_first 8%nat) with (first_only (R := R)).
  change (rng_first 7%nat) with (fun _ : nat => s_zero (Scalar := SR)).
  change (rng_first 9%nat) with (fun _ : nat => s_zero (Scalar := SR)).
  pose proof (feature_width_pos h w Hh Hw) as Hf.
  rewrite two_layer_row_first by lia.
  rewrite trunk_data_first by assumption. reflexivity.
Qed.

Lemma advantage_row_first (c h w n : Z) (d : list R) :
  1 <= c -> 36 <= h -> 36 <= w ->
  advantage_row rng_first c h w n d =
  map (fun o =>
         if o =? 0
         then relu_scalar (relu_scalar (relu_scalar (relu_scalar (at_ d 0))))
         else s_zero) (zrange n).
Proof.
  intros Hc Hh Hw. unfold advantage_row.
  change (rng_first 10%nat) with (first_only (R := R)).
  change (rng_first 12%nat) with (first_only (R := R)).
  change (rng_first 11%nat) with (fun _ : nat => s_zero (Scalar := SR)).
  change (rng_first 13%nat) with (fun _ : nat => s_zero (Scalar := SR)).
  pose proof (feature_width_pos h w Hh Hw) as Hf.
  rewrite two_layer_row_first by lia.
  rewrite trunk_data_first by assumption. reflexivity.
Qed.

End FirstEntry.

(** ** Batches in which all samples are equal *)

Section EqualSamples.

Context {R : Type} {SR : Scalar R} {ER : ExactScalar R}.

(** When every sample of the batch equals [x], the mean over the whole
    batch is the mean over the row of [x], and the combination returns the
    row of [x] alone in every row. *)
Lemma dueling_data_equal_samples (v a : list R) (n : Z) (K i : nat) :
  Z.of_nat (length v) = 1 -> Z.of_nat (length a) = n -> (i < K)%nat ->
  slice (dueling_data (concat (repeat v K)) (concat (repeat a K))
                      (Z.of_nat K) n)
        (Z.of_nat i * n) n =
  dueling_data v a 1 n.
Proof.
  intros Hv Ha Hi.
  pose proof (dueling_data_tile v a n (Z.of_nat K) Hv Ha ltac:(lia)) as E.
  rewrite Nat2Z.id in E. rewrite E.
  rewrite <- (Nat2Z.id K) at 1. apply slice_tile; [|lia].
  unfold dueling_data. rewrite length_map, zrange_length. lia.
Qed.

End EqualSamples.

(** * The properties of the specification *)

(** C2, as the code has it.  For every construction that succeeds, with
    [input_dim = (c, h, w)] and [output_dim = n], and every tensor of shape
    [(b, c, h, w)] (so [b >= 0]): [forward] of the standard network returns
    a tensor of shape [(b, n)] holding [b * n] entries; [forward] of the
    dueling network does so when the batch holds at least one sample, and
    raises on the batch without samples, where [view] cannot infer the
    [-1] of [(0, -1)]. *)
Theorem forward_returns_batch_by_actions :
  forall (R : Type) (SR : Scalar R) (rng : nat -> nat -> R)
         (cuda_available : bool) (c h w n b : Z) (state : Tensor R),
    0 <= b ->
    shape state = [b; c; h; w] ->
    (forall net,
       DeepConvQNetwork.__init__ rng cuda_available [c; h; w] n = Ok net ->
       exists q,
         DeepConvQNetwork.forward net state = Ok q /\
         shape q = [b; n] /\ Z.of_nat (length (data q)) = b * n) /\
    (forall net,
       DuelingDeepConvQNetwork.__init__ rng [c; h; w] n = Ok net ->
       (1 <= b ->
        exists q,
          DuelingDeepConvQNetwork.forward net state = Ok q /\
          shape q = [b; n] /\ Z.of_nat (length (data q)) = b * n) /\
       (b = 0 ->
        DuelingDeepConvQNetwork.forward net state =
          Err (RuntimeError InvalidView))).
Proof.
  intros R SR rng cuda_available c h w n b state Hb Hs. split.
  - intros net Hnet.
    apply q_init_inv in Hnet.
    destruct Hnet as (c' & h' & w' & [= <- <- <-] & Hc & Hh & Hw & Hn & ->).
    destruct (q_forward_ok rng cuda_available b c h w n state Hc Hh Hw Hs)
      as (y & _ & _ & Hq).
    eexists. split; [exact Hq|]. split; [reflexivity|].
    cbn [data]. unfold q_head. rewrite linear_data_length; cbn [out_features linear_layer]; lia.
  - intros net Hnet.
    apply dueling_init_inv in Hnet.
    destruct Hnet as (c' & h' & w' & [= <- <- <-] & Hc & Hh & Hw & Hn & ->).
    split.
    + intros Hb1.
      destruct (dueling_forward_ok rng b c h w n state Hc Hh Hw Hn Hb1 Hs)
        as (y & _ & _ & Hq).
      eexists. split; [exact Hq|]. split; [reflexivity|].
      cbn [data]. unfold dueling_data. rewrite length_map, zrange_length. nia.
    + intros ->.
      exact (proj2 (empty_batch rng false c h w n state Hc Hh Hw Hs)).
Qed.

Lemma forward_returns_batch_by_actions_witness :
  (exists q,
     DeepConvQNetwork.forward (q_network rng0 false 1 36 36 2) (blank 3 1 36 36)
       = Ok q /\
     shape q = [3; 2] /\ Z.of_nat (length (data q)) = 3 * 2) /\
  (exists q,
     DuelingDeepConvQNetwork.forward (dueling_network rng0 1 36 36 2)
       (blank 3 1 36 36) = Ok q /\
     shape q = [3; 2] /\ Z.of_nat (length (data q)) = 3 * 2).
Proof.
  pose proof (forward_returns_batch_by_actions Qc Qc_Scalar rng0 false
                1 36 36 2 3 (blank 3 1 36 36) ltac:(lia) eq_refl) as [Hq Hd].
  split.
  - exact (Hq _ eq_refl).
  - exact (proj1 (Hd _ eq_refl) ltac:(lia)).
Defined.

(** C2 as stated fails for the dueling network: constructed for
    [input_dim = (4, 84, 84)] and [output_dim = 6], its [forward] raises on
    the tensor of shape [(0, 4, 84, 84)] instead of returning a tensor of
    shape [(0, 6)]. *)
Lemma dueling_forward_raises_without_samples :
  DuelingDeepConvQNetwork.__init__ rng0 [4; 84; 84] 6 =
    Ok (dueling_network rng0 4 84 84 6) /\
  shape (blank 0 4 84 84) = [0; 4; 84; 84] /\
  DuelingDeepConvQNetwork.forward (dueling_network rng0 4 84 84 6)
    (blank 0 4 84 84) = Err (RuntimeError InvalidView).
Proof.
  split; [reflexivity|]. split; [reflexivity|].
  exact (proj2 (empty_batch rng0 false 4 84 84 6 (blank 0 4 84 84)
                  ltac:(lia) ltac:(lia) ltac:(lia) eq_refl)).
Qed.

(** C5.  For every [input_dim] whose height or width is below the minimum
    the trunk accepts, 36, each constructor raises a shape error, so no
    instance is returned on which [forward] could be called; for
    [(4, 10, 10)] the error is that of a kernel larger than its input. *)
Theorem small_input_fails_at_construction :
  forall (R : Type) (SR : Scalar R) (rng : nat -> nat -> R)
         (cuda_available : bool) (c h w n : Z),
    h < 36 \/ w < 36 ->
    (exists f,
       DeepConvQNetwork.__init__ rng cuda_available [c; h; w] n =
       Err (RuntimeError f)) /\
    (exists f,
       DuelingDeepConvQNetwork.__init__ rng [c; h; w] n =
       Err (RuntimeError f)) /\
    DeepConvQNetwork.__init__ rng cuda_available [4; 10; 10] n =
      Err (RuntimeError KernelTooLarge) /\
    DuelingDeepConvQNetwork.__init__ rng [4; 10; 10] n =
      Err (RuntimeError KernelTooLarge).
Proof.
  intros R SR rng cuda_available c h w n Hsmall.
  assert (Hbad : c <= 0 \/ h < 36 \/ w < 36) by lia.
  destruct (shared_steps_shape_error rng c h w Hbad) as (f & Hf).
  split; [|split; [|split]].
  - exists f. rewrite q_init_shared, Hf. reflexivity.
  - exists f. rewrite dueling_init_shared, Hf. reflexivity.
  - reflexivity.
  - reflexivity.
Qed.

Lemma small_input_fails_at_construction_witness :
  exists f,
    DeepConvQNetwork.__init__ rng0 false [4; 10; 10] 6 = Err (RuntimeError f).
Proof.
  exact (proj1 (small_input_fails_at_construction Qc Qc_Scalar rng0 false
                  4 10 10 6 ltac:(lia))).
Defined.

(** C6, as the code has it.  Each constructor raises for every [input_dim]
    that does not have exactly three components or that has a non-positive
    component, and for every negative [output_dim]; an [output_dim] of zero
    is accepted when [input_dim] is valid, and gives an instance. *)
Theorem invalid_arguments_fail_at_construction :
  forall (R : Type) (SR : Scalar R) (rng : nat -> nat -> R)
         (cuda_available : bool) (idim : list Z) (n : Z),
    (length idim <> 3%nat \/ (exists d, In d idim /\ d <= 0) \/ n < 0 ->
     (exists e, DeepConvQNetwork.__init__ rng cuda_available idim n = Err e) /\
     (exists e, DuelingDeepConvQNetwork.__init__ rng idim n = Err e)) /\
    (forall c h w, idim = [c; h; w] -> 1 <= c -> 36 <= h -> 36 <= w ->
       (exists net,
          DeepConvQNetwork.__init__ rng cuda_available idim 0 = Ok net) /\
       (exists net, DuelingDeepConvQNetwork.__init__ rng idim 0 = Ok net)).
Proof.
  intros R SR rng cuda_available idim n. split.
  - intros Hbad.
    assert (Hno : forall c h w,
               idim = [c; h; w] -> 1 <= c -> 36 <= h -> 36 <= w -> 0 <= n ->
               False).
    { intros c h w -> Hc Hh Hw Hn.
      destruct Hbad as [Hlen | [(d & Hd & Hd0) | Hneg]].
      - apply Hlen. reflexivity.
      - cbn [In] in Hd. intuition lia.
      - lia. }
    split.
    + destruct (DeepConvQNetwork.__init__ rng cuda_available idim n)
        as [net|e] eqn:E; [exfalso | eauto].
      apply q_init_inv in E.
      destruct E as (c & h & w & Hi & Hc & Hh & Hw & Hn & _). eauto.
    + destruct (DuelingDeepConvQNetwork.__init__ rng idim n)
        as [net|e] eqn:E; [exfalso | eauto].
      apply dueling_init_inv in E.
      destruct E as (c & h & w & Hi & Hc & Hh & Hw & Hn & _). eauto.
  - intros c h w -> Hc Hh Hw. split.
    + eexists. apply q_init_ok; lia.
    + eexists. apply dueling_init_ok; lia.
Qed.

Lemma invalid_arguments_fail_at_construction_witness :
  (exists e, DeepConvQNetwork.__init__ rng0 false [4; 84] 6 = Err e) /\
  (exists e, DuelingDeepConvQNetwork.__init__ rng0 [4; 84] 6 = Err e).
Proof.
  apply (proj1 (invalid_arguments_fail_at_construction Qc Qc_Scalar rng0 false
                  [4; 84] 6)).
  left. cbn [length]. discriminate.
Defined.

(** C6 as stated fails: with [output_dim = 0] both constructors return an
    instance, and its [forward] runs and returns a tensor of shape
    [(b, 0)]. *)
Lemma zero_output_dim_is_accepted :
  DeepConvQNetwork.__init__ rng0 false [4; 84; 84] 0 =
    Ok (q_network rng0 false 4 84 84 0) /\
  DuelingDeepConvQNetwork.__init__ rng0 [4; 84; 84] 0 =
    Ok (dueling_network rng0 4 84 84 0) /\
  (exists q,
     DeepConvQNetwork.forward (q_network rng0 false 4 84 84 0)
       (blank 1 4 84 84) = Ok q /\ shape q = [1; 0]) /\
  (exists q,
     DuelingDeepConvQNetwork.forward (dueling_network rng0 4 84 84 0)
       (blank 1 4 84 84) = Ok q /\ shape q = [1; 0]).
Proof.
  split; [reflexivity|]. split; [reflexivity|]. split.
  - destruct (q_forward_ok rng0 false 1 4 84 84 0 (blank 1 4 84 84))
      as (y & _ & _ & Hq); try lia; try reflexivity.
    eexists. split; [exact Hq | reflexivity].
  - destruct (dueling_forward_ok rng0 1 4 84 84 0 (blank 1 4 84 84))
      as (y & _ & _ & Hq); try lia; try reflexivity.
    eexists. split; [exact Hq | reflexivity].
Qed.

(** C10.  With at least one channel, the three stages leave a non-empty
    output of one blank sample of [h] rows and [w] columns exactly when
    [h >= 36] and [w >= 36]; shape inference, and with it construction with
    a non-negative [output_dim], succeeds in exactly that case. *)
Theorem minimum_receptive_field_is_36 :
  forall (R : Type) (SR : Scalar R) (rng : nat -> nat -> R)
         (c h w : Z) (conv : nn_Module R),
    1 <= c ->
    make_conv rng c = Ok conv ->
    ((exists y, (x <- torch_zeros [1; c; h; w] ;; call conv x) = Ok y /\
                0 < numel (shape y))
     <-> 36 <= h /\ 36 <= w) /\
    ((exists k, DeepConvQNetwork.feature_size conv [c; h; w] = Ok k)
     <-> 36 <= h /\ 36 <= w) /\
    ((exists k, DuelingDeepConvQNetwork.feature_size conv [c; h; w] = Ok k)
     <-> 36 <= h /\ 36 <= w) /\
    (forall cuda_available n, 0 <= n ->
       ((exists net,
           DeepConvQNetwork.__init__ rng cuda_available [c; h; w] n = Ok net)
        <-> 36 <= h /\ 36 <= w) /\
       ((exists net, DuelingDeepConvQNetwork.__init__ rng [c; h; w] n = Ok net)
        <-> 36 <= h /\ 36 <= w)).
Proof.
  intros R SR rng c h w conv Hc Hconv.
  rewrite make_conv_eq in Hconv.
  replace (c <? 0) with false in Hconv by lia.
  injection Hconv as <-.
  assert (Hfs : (exists k,
                   DeepConvQNetwork.feature_size (trunk rng c) [c; h; w] = Ok k)
                <-> 36 <= h /\ 36 <= w).
  { split.
    - intros (k & Hk).
      destruct (Z_lt_dec h 36) as [Hh|Hh];
        [|destruct (Z_lt_dec w 36) as [Hw|Hw]; [|lia]].
      + destruct (feature_size_fails rng c h w) as (f & Hf); try lia.
        congruence.
      + destruct (feature_size_fails rng c h w) as (f & Hf); try lia.
        congruence.
    - intros [Hh Hw]. eexists. apply feature_size_ok; lia. }
  split; [|split; [exact Hfs|split; [exact Hfs|]]].
  - split.
    + intros (y & Hy & _). unfold torch_zeros in Hy.
      destruct (existsb _ _); [discriminate|]. cbn [bind] in Hy.
      destruct (trunk_shape_sample rng c h w)
        as [(_ & Hh & Hw & _) | (_ & f & Hf)]; [lia | lia |].
      match type of Hy with
      | call _ ?x = _ =>
          pose proof (call_err_shape (trunk rng c) x _ Hf) as Hx
      end.
      rewrite Hx in Hy. discriminate.
    + intros [Hh Hw]. unfold torch_zeros. cbn [existsb].
      replace (1 <? 0) with false by lia. replace (c <? 0) with false by lia.
      replace (h <? 0) with false by lia. replace (w <? 0) with false by lia.
      cbn [orb bind].
      match goal with
      | |- exists y, call _ ?x = _ /\ _ =>
          destruct (trunk_call_ok rng 1 c h w x Hc Hh Hw eq_refl)
            as (y & Hy & Hsy)
      end.
      exists y. split; [exact Hy|]. rewrite Hsy.
      pose proof (feature_width_pos h w Hh Hw) as Hpos.
      unfold feature_width in Hpos. lia.
  - intros cuda_available n Hn. split; split.
    + intros (net & Hnet). apply q_init_inv in Hnet.
      destruct Hnet as (c' & h' & w' & [= <- <- <-] & _ & Hh & Hw & _).
      lia.
    + intros [Hh Hw]. eexists. apply q_init_ok; lia.
    + intros (net & Hnet). apply dueling_init_inv in Hnet.
      destruct Hnet as (c' & h' & w' & [= <- <- <-] & _ & Hh & Hw & _).
      lia.
    + intros [Hh Hw]. eexists. apply dueling_init_ok; lia.
Qed.

Lemma minimum_receptive_field_is_36_witness :
  ((exists k,
      DeepConvQNetwork.feature_size (trunk rng0 4) [4; 36; 35] = Ok k)
   <-> 36 <= 36 /\ 36 <= 35) /\
  ((exists k,
      DeepConvQNetwork.feature_size (trunk rng0 4) [4; 36; 36] = Ok k)
   <-> 36 <= 36 /\ 36 <= 36).
Proof.
  split.
  - exact (proj1 (proj2 (minimum_receptive_field_is_36 Qc Qc_Scalar rng0
                           4 36 35 (trunk rng0 4) ltac:(lia) eq_refl))).
  - exact (proj1 (proj2 (minimum_receptive_field_is_36 Qc Qc_Scalar rng0
                           4 36 36 (trunk rng0 4) ltac:(lia) eq_refl))).
Defined.

(** C4.  The trunk of either network is exactly three convolutions without
    padding and with a bias among the parameters, each followed by a
    rectified-linear activation: [c] to 32 channels with an 8 by 8 kernel
    and stride 4, 32 to 64 with 4 by 4 and stride 2, 64 to 64 with 3 by 3
    and stride 1.  A stage maps [h] rows and [w] columns to
    [floor((h - k) / s) + 1] rows and [floor((w - k) / s) + 1] columns, and
    the activation keeps the shape. *)
Theorem trunk_is_three_valid_convolutions :
  forall (R : Type) (SR : Scalar R) (rng : nat -> nat -> R)
         (cuda_available : bool) (idim : list Z) (n : Z),
    (forall net,
       DeepConvQNetwork.__init__ rng cuda_available idim n = Ok net ->
       exists c c1 c2 c3,
         nth_error idim 0 = Some c /\
         DeepConvQNetwork.conv net =
           Sequential [Conv2d_ c1; ReLU; Conv2d_ c2; ReLU; Conv2d_ c3; ReLU] /\
         stage c1 c 32 8 4 /\ stage c2 32 64 4 2 /\ stage c3 64 64 3 1) /\
    (forall net,
       DuelingDeepConvQNetwork.__init__ rng idim n = Ok net ->
       exists c c1 c2 c3,
         nth_error idim 0 = Some c /\
         DuelingDeepConvQNetwork.conv net =
           Sequential [Conv2d_ c1; ReLU; Conv2d_ c2; ReLU; Conv2d_ c3; ReLU] /\
         stage c1 c 32 8 4 /\ stage c2 32 64 4 2 /\ stage c3 64 64 3 1) /\
    (forall (m : Conv2d R) (cin cout k s B H W : Z) (x y : Tensor R),
       stage m cin cout k s ->
       shape x = [B; cin; H; W] ->
       call (Conv2d_ m) x = Ok y ->
       shape y = [B; cout; (H - k) / s + 1; (W - k) / s + 1] /\
       exists z, call ReLU y = Ok z /\ shape z = shape y).
Proof.
  intros R SR rng cuda_available idim n. split; [|split].
  - intros net Hnet. apply q_init_inv in Hnet.
    destruct Hnet as (c & h & w & -> & _ & _ & _ & _ & ->).
    exists c. do 3 eexists. split; [reflexivity|]. split; [reflexivity|].
    repeat split; try apply conv_layer_stage.
  - intros net Hnet. apply dueling_init_inv in Hnet.
    destruct Hnet as (c & h & w & -> & _ & _ & _ & _ & ->).
    exists c. do 3 eexists. split; [reflexivity|]. split; [reflexivity|].
    repeat split; try apply conv_layer_stage.
  - intros m cin cout k s B H W x y (Hin & Hout & Hk & Hst & Hp & _) Hs Hy.
    cbn [call] in Hy. split.
    + rewrite (conv2d_valid_shape m x y B cin H W Hp Hs Hy).
      now rewrite Hout, Hk, Hst.
    + exists (relu y). split; reflexivity.
Qed.

Lemma trunk_is_three_valid_convolutions_witness :
  exists c c1 c2 c3,
    nth_error [4; 84; 84] 0 = Some c /\
    DeepConvQNetwork.conv (q_network rng0 false 4 84 84 6) =
      Sequential [Conv2d_ c1; ReLU; Conv2d_ c2; ReLU; Conv2d_ c3; ReLU] /\
    stage c1 c 32 8 4 /\ stage c2 32 64 4 2 /\ stage c3 64 64 3 1.
Proof.
  exact (proj1 (trunk_is_three_valid_convolutions Qc Qc_Scalar rng0 false
                  [4; 84; 84] 6) _ eq_refl).
Defined.

(** C1.  In [forward] of the dueling network, with [V] of shape [(b, 1)]
    the output of the value stream and [A] of shape [(b, n)] the output of
    the advantage stream, the result has shape [(b, n)] and its entry
    [(i, j)] is [V[i] + (A[i][j] - m)], where [m] is the one scalar obtained
    by dividing the sum of all [b * n] entries of [A] by [b * n].  For
    [A = [[1, 2, 3], [4, 5, 6]]] that scalar is [7/2], [A - m] has first row
    [[-5/2, -3/2, -1/2]], and with [V = [[10], [20]]] the result is
    [[[15/2, 17/2, 19/2], [41/2, 43/2, 45/2]]]. *)
Theorem dueling_subtracts_the_mean_of_all_advantages :
  (forall (R : Type) (SR : Scalar R) (rng : nat -> nat -> R)
          (c h w n b : Z) (state : Tensor R)
          (net : DuelingDeepConvQNetwork.t),
     1 <= b ->
     shape state = [b; c; h; w] ->
     DuelingDeepConvQNetwork.__init__ rng [c; h; w] n = Ok net ->
     exists feats V A Q,
       (y <- call (DuelingDeepConvQNetwork.conv net) state ;; view y [b; -1])
         = Ok feats /\
       call (DuelingDeepConvQNetwork.value_stream net) feats = Ok V /\
       shape V = [b; 1] /\
       call (DuelingDeepConvQNetwork.advantage_stream net) feats = Ok A /\
       shape A = [b; n] /\
       DuelingDeepConvQNetwork.forward net state = Ok Q /\
       shape Q = [b; n] /\
       forall i j, 0 <= i < b -> 0 <= j < n ->
         at_ (data Q) (i * n + j) =
         s_add (at_ (data V) i)
               (s_sub (at_ (data A) (i * n + j))
                      (s_div (sum (data A)) (s_of_Z (b * n))))) /\
  fractions (Ok (mean example_advantages)) = [7 # 2]%Q /\
  fractions (tensor_sub example_advantages (mean example_advantages)) =
    [-5 # 2; -3 # 2; -1 # 2; 1 # 2; 3 # 2; 5 # 2]%Q /\
  fractions (centred <- tensor_sub example_advantages
                                   (mean example_advantages) ;;
             tensor_add example_values centred) =
    [15 # 2; 17 # 2; 19 # 2; 41 # 2; 43 # 2; 45 # 2]%Q.
Proof.
  split; [|split; [|split]]; [|vm_compute; reflexivity ..].
  intros R SR rng c h w n b state net Hb Hs Hnet.
  apply dueling_init_inv in Hnet.
  destruct Hnet as (c' & h' & w' & [= <- <- <-] & Hc & Hh & Hw & Hn & ->).
  destruct (dueling_forward_parts rng b c h w n state Hc Hh Hw Hn Hb Hs)
    as (feats & V & A & Q & H1 & H2 & H3 & H4 & H5 & H6 & H7 & H8).
  exists feats, V, A, Q. repeat (split; [assumption|]).
  intros i j Hi Hj. rewrite H8. now apply dueling_data_entry.
Qed.

Lemma dueling_subtracts_the_mean_of_all_advantages_witness :
  exists feats V A Q,
    (y <- call (DuelingDeepConvQNetwork.conv (dueling_network rng0 1 36 36 3))
            (blank 2 1 36 36) ;;
     view y [2; -1]) = Ok feats /\
    call (DuelingDeepConvQNetwork.value_stream (dueling_network rng0 1 36 36 3))
         feats = Ok V /\
    shape V = [2; 1] /\
    call (DuelingDeepConvQNetwork.advantage_stream
            (dueling_network rng0 1 36 36 3)) feats = Ok A /\
    shape A = [2; 3] /\
    DuelingDeepConvQNetwork.forward (dueling_network rng0 1 36 36 3)
      (blank 2 1 36 36) = Ok Q /\
    shape Q = [2; 3] /\
    forall i j, 0 <= i < 2 -> 0 <= j < 3 ->
      at_ (data Q) (i * 3 + j) =
      s_add (at_ (data V) i)
            (s_sub (at_ (data A) (i * 3 + j))
                   (s_div (sum (data A)) (s_of_Z (2 * 3)))).
Proof.
  exact (proj1 dueling_subtracts_the_mean_of_all_advantages
           Qc Qc_Scalar rng0 1 36 36 3 2 (blank 2 1 36 36)
           (dueling_network rng0 1 36 36 3) ltac:(lia) eq_refl eq_refl).
Defined.

(** C3, as the code has it.  In exact arithmetic, for a sample [x] at
    position [i] of a batch [xs] of samples of the configured shape, of
    any size (8 in the specification): [forward] of the standard network
    returns for [x] inside the batch the row it returns for [x] alone,
    whatever the other samples are; [forward] of the dueling network, whose
    mean runs over the advantages of the whole batch, does so when every
    sample of the batch equals [x]. *)
Theorem batch_size_invariance :
  forall (R : Type) (SR : Scalar R) (ER : ExactScalar R)
         (rng : nat -> nat -> R) (cuda_available : bool) (c h w n : Z)
         (xs : list (list R)) (i : nat) (x : list R),
    Forall (fun d => Z.of_nat (length d) = c * (h * w)) xs ->
    nth_error xs i = Some x ->
    (forall net,
       DeepConvQNetwork.__init__ rng cuda_available [c; h; w] n = Ok net ->
       exists q1 qK,
         DeepConvQNetwork.forward net (stack [c; h; w] [x]) = Ok q1 /\
         shape q1 = [1; n] /\
         DeepConvQNetwork.forward net (stack [c; h; w] xs) = Ok qK /\
         shape qK = [Z.of_nat (length xs); n] /\
         slice (data qK) (Z.of_nat i * n) n = data q1) /\
    (forall net,
       DuelingDeepConvQNetwork.__init__ rng [c; h; w] n = Ok net ->
       exists q1 qK,
         DuelingDeepConvQNetwork.forward net (stack [c; h; w] [x]) = Ok q1 /\
         shape q1 = [1; n] /\
         DuelingDeepConvQNetwork.forward net (stack [c; h; w] xs) = Ok qK /\
         shape qK = [Z.of_nat (length xs); n] /\
         ((forall d, In d xs -> d = x) ->
          slice (data qK) (Z.of_nat i * n) n = data q1)).
Proof.
  intros R SR ER rng cuda_available c h w n xs i x Hall Hi.
  assert (Hx : Z.of_nat (length x) = c * (h * w)).
  { rewrite Forall_forall in Hall. apply Hall. eapply nth_error_In, Hi. }
  assert (Hlt : (i < length xs)%nat) by (apply nth_error_Some; congruence).
  assert (Hne : xs <> []) by (intros ->; destruct i; discriminate).
  split.
  - intros net Hnet. apply q_init_inv in Hnet.
    destruct Hnet as (c' & h' & w' & [= <- <- <-] & Hc & Hh & Hw & Hn & ->).
    eexists. eexists.
    split; [apply q_forward_stack; auto|]. split; [reflexivity|].
    split; [now apply q_forward_stack|].
    split; [unfold stack; cbn [shape]; now rewrite length_map|].
    unfold stack. cbn [data map concat]. rewrite app_nil_r.
    apply slice_concat_nth.
    + apply Forall_map, Forall_forall. intros d' _. now apply q_row_length.
    + now apply map_nth_error.
  - intros net Hnet. apply dueling_init_inv in Hnet.
    destruct Hnet as (c' & h' & w' & [= <- <- <-] & Hc & Hh & Hw & Hn & ->).
    eexists. eexists.
    split; [apply dueling_forward_stack; auto; discriminate|].
    split; [reflexivity|].
    split; [now apply dueling_forward_stack|].
    split; [reflexivity|].
    intros Hsame. cbn [data map concat length Z.of_nat Pos.of_succ_nat].
    rewrite !app_nil_r.
    assert (Hrep : xs = repeat x (length xs)).
    { apply Forall_eq_repeat, Forall_forall. intros d Hd.
      symmetry. now apply Hsame. }
    rewrite Hrep at 1 2. rewrite !map_repeat.
    apply dueling_data_equal_samples.
    + apply value_row_length.
    + now apply advantage_row_length.
    + exact Hlt.
Qed.

Lemma batch_size_invariance_witness :
  (exists q1 q8,
     DeepConvQNetwork.forward (q_network rng0 false 1 36 36 2)
       (stack [1; 36; 36] [dark]) = Ok q1 /\
     shape q1 = [1; 2] /\
     DeepConvQNetwork.forward (q_network rng0 false 1 36 36 2)
       (stack [1; 36; 36] [lit; lit; lit; dark; lit; lit; lit; lit]) = Ok q8 /\
     shape q8 = [8; 2] /\
     slice (data q8) (3 * 2) 2 = data q1) /\
  (exists q1 q8,
     DuelingDeepConvQNetwork.forward (dueling_network rng0 1 36 36 2)
       (stack [1; 36; 36] [dark]) = Ok q1 /\
     shape q1 = [1; 2] /\
     DuelingDeepConvQNetwork.forward (dueling_network rng0 1 36 36 2)
       (stack [1; 36; 36] (repeat dark 8)) = Ok q8 /\
     shape q8 = [8; 2] /\
     slice (data q8) (3 * 2) 2 = data q1).
Proof.
  assert (Hd : Z.of_nat (length dark) = 1 * (36 * 36))
    by (unfold dark; rewrite repeat_length; reflexivity).
  assert (Hl : Z.of_nat (length lit) = 1 * (36 * 36))
    by (unfold lit; rewrite repeat_length; reflexivity).
  split.
  - exact (proj1 (batch_size_invariance Qc Qc_Scalar Qc_ExactScalar rng0 false
                    1 36 36 2 [lit; lit; lit; dark; lit; lit; lit; lit]
                    3%nat dark
                    ltac:(repeat constructor; assumption) eq_refl)
                 _ eq_refl).
  - destruct (proj2 (batch_size_invariance Qc Qc_Scalar Qc_ExactScalar rng0
                       false 1 36 36 2 (repeat dark 8) 3%nat dark
                       ltac:(repeat constructor; assumption) eq_refl)
                    _ eq_refl)
      as (q1 & q8 & H1 & Hs1 & H8 & Hs8 & Hrow).
    exists q1, q8. repeat split; try assumption.
    apply Hrow. intros d Hin. exact (repeat_spec _ _ _ Hin).
Defined.

(** C3 as stated fails for the dueling network, already in exact
    arithmetic: with the parameters [rng_first], the dark frame alone gets
    the row [[0, 0]], and as the first sample of a batch of 8 whose other
    samples are lit frames it gets [[-7/16, -7/16]].  The lit frames have
    the advantages [[1, 0]], so the mean over the batch is [7/16] instead
    of [0]. *)
Lemma dueling_row_changes_with_the_other_samples :
  DuelingDeepConvQNetwork.__init__ (rng_first (R := Qc)) [1; 36; 36] 2 =
    Ok (dueling_network rng_first 1 36 36 2) /\
  exists q1 q8,
    DuelingDeepConvQNetwork.forward (dueling_network rng_first 1 36 36 2)
      (stack [1; 36; 36] [dark]) = Ok q1 /\
    DuelingDeepConvQNetwork.forward (dueling_network rng_first 1 36 36 2)
      (stack [1; 36; 36] [dark; lit; lit; lit; lit; lit; lit; lit]) = Ok q8 /\
    shape q1 = [1; 2] /\ shape q8 = [8; 2] /\
    map this (data q1) = [0; 0]%Q /\
    map this (slice (data q8) 0 2) = [-7 # 16; -7 # 16]%Q.
Proof.
  split; [reflexivity|].
  assert (Hd : Z.of_nat (length dark) = 1 * (36 * 36))
    by (unfold dark; rewrite repeat_length; reflexivity).
  assert (Hl : Z.of_nat (length lit) = 1 * (36 * 36))
    by (unfold lit; rewrite repeat_length; reflexivity).
  eexists. eexists.
  split; [apply dueling_forward_stack; try lia;
          [discriminate | repeat constructor; assumption]|].
  split; [apply dueling_forward_stack; try lia;
          [discriminate | repeat constructor; assumption]|].
  split; [reflexivity|]. split; [reflexivity|].
  cbn [data map concat app].
  rewrite !value_row_first, !advantage_row_first by lia.
  split; vm_compute; reflexivity.
Qed.

(** C7.  For every construction that succeeds, [fc_input_dim] is what
    [feature_size] returns for the stack and [input_dim] of the instance;
    it is positive; it is the number of entries the trunk returns for any
    single input of shape [input_dim]; and it is the input width of the
    first fully-connected layer of the head (standard network) and of both
    streams (dueling network).  With [input_dim = (4, 84, 84)] and
    [output_dim = 6] construction succeeds and the width is 3136. *)
Theorem feature_width_feeds_every_head :
  forall (R : Type) (SR : Scalar R) (rng : nat -> nat -> R)
         (cuda_available : bool) (idim : list Z) (n : Z),
    (forall net,
       DeepConvQNetwork.__init__ rng cuda_available idim n = Ok net ->
       DeepConvQNetwork.feature_size (DeepConvQNetwork.conv net)
         (DeepConvQNetwork.input_dim net) =
         Ok (DeepConvQNetwork.fc_input_dim net) /\
       0 < DeepConvQNetwork.fc_input_dim net /\
       (forall x,
          shape x = 1 :: idim ->
          Z.of_nat (length (data x)) = numel idim ->
          exists y,
            call (DeepConvQNetwork.conv net) x = Ok y /\
            numel (shape y) = DeepConvQNetwork.fc_input_dim net /\
            Z.of_nat (length (data y)) = DeepConvQNetwork.fc_input_dim net) /\
       exists l1 l2,
         DeepConvQNetwork.network_tail net =
           [Flatten; Linear_ l1; ReLU; Linear_ l2] /\
         in_features l1 = DeepConvQNetwork.fc_input_dim net /\
         shape (lin_weight l1) = [512; DeepConvQNetwork.fc_input_dim net]) /\
    (forall net,
       DuelingDeepConvQNetwork.__init__ rng idim n = Ok net ->
       DuelingDeepConvQNetwork.feature_size (DuelingDeepConvQNetwork.conv net)
         (DuelingDeepConvQNetwork.input_dim net) =
         Ok (DuelingDeepConvQNetwork.fc_input_dim net) /\
       0 < DuelingDeepConvQNetwork.fc_input_dim net /\
       (forall x,
          shape x = 1 :: idim ->
          Z.of_nat (length (data x)) = numel idim ->
          exists y,
            call (DuelingDeepConvQNetwork.conv net) x = Ok y /\
            numel (shape y) = DuelingDeepConvQNetwork.fc_input_dim net /\
            Z.of_nat (length (data y)) =
              DuelingDeepConvQNetwork.fc_input_dim net) /\
       exists v1 v2 a1 a2,
         DuelingDeepConvQNetwork.value_stream net =
           Sequential [Linear_ v1; ReLU; Linear_ v2] /\
         DuelingDeepConvQNetwork.advantage_stream net =
           Sequential [Linear_ a1; ReLU; Linear_ a2] /\
         in_features v1 = DuelingDeepConvQNetwork.fc_input_dim net /\
         in_features a1 = DuelingDeepConvQNetwork.fc_input_dim net /\
         shape (lin_weight v1) = [128; DuelingDeepConvQNetwork.fc_input_dim net] /\
         shape (lin_weight a1) = [128; DuelingDeepConvQNetwork.fc_input_dim net]) /\
    (exists net,
       DeepConvQNetwork.__init__ rng cuda_available [4; 84; 84] 6 = Ok net /\
       DeepConvQNetwork.fc_input_dim net = 3136) /\
    (exists net,
       DuelingDeepConvQNetwork.__init__ rng [4; 84; 84] 6 = Ok net /\
       DuelingDeepConvQNetwork.fc_input_dim net = 3136).
Proof.
  intros R SR rng cuda_available idim n. split; [|split; [|split]].
  - intros net Hnet. apply q_init_inv in Hnet.
    destruct Hnet as (c & h & w & -> & Hc & Hh & Hw & Hn & ->).
    cbn [q_network DeepConvQNetwork.conv DeepConvQNetwork.input_dim
         DeepConvQNetwork.fc_input_dim DeepConvQNetwork.network_tail].
    split; [apply feature_size_ok; lia|].
    split; [pose proof (feature_width_pos h w Hh Hw); lia|].
    split.
    + intros x Hs Hlen. now apply trunk_output_size.
    + do 2 eexists. split; [reflexivity|]. split; reflexivity.
  - intros net Hnet. apply dueling_init_inv in Hnet.
    destruct Hnet as (c & h & w & -> & Hc & Hh & Hw & Hn & ->).
    cbn [dueling_network DuelingDeepConvQNetwork.conv
         DuelingDeepConvQNetwork.input_dim
         DuelingDeepConvQNetwork.fc_input_dim
         DuelingDeepConvQNetwork.value_stream
         DuelingDeepConvQNetwork.advantage_stream].
    split; [rewrite dueling_feature_size_eq; apply feature_size_ok; lia|].
    split; [pose proof (feature_width_pos h w Hh Hw); lia|].
    split.
    + intros x Hs Hlen. now apply trunk_output_size.
    + do 4 eexists. repeat split; reflexivity.
  - eexists. split; [apply q_init_ok; lia | reflexivity].
  - eexists. split; [apply dueling_init_ok; lia | reflexivity].
Qed.

Lemma feature_width_feeds_every_head_witness :
  DeepConvQNetwork.feature_size
    (DeepConvQNetwork.conv (q_network rng0 false 4 84 84 6))
    (DeepConvQNetwork.input_dim (q_network rng0 false 4 84 84 6)) =
    Ok (DeepConvQNetwork.fc_input_dim (q_network rng0 false 4 84 84 6)) /\
  0 < DeepConvQNetwork.fc_input_dim (q_network rng0 false 4 84 84 6).
Proof.
  pose proof (proj1 (feature_width_feeds_every_head Qc Qc_Scalar rng0 false
                       [4; 84; 84] 6) _ eq_refl) as (H1 & H2 & _).
  exact (conj H1 H2).
Defined.

(** C8.  For either network, two instances that hold the same parameter
    values return the same result on the same input (the same tensor, or
    the same error), whatever else distinguishes them: the source of the
    initial values, the device, the recorded [input_dim]. *)
Theorem forward_is_deterministic :
  forall (R : Type) (SR : Scalar R) (rng1 rng2 : nat -> nat -> R)
         (cuda1 cuda2 : bool) (idim1 idim2 : list Z) (n1 n2 : Z)
         (state1 state2 : Tensor R),
    state1 = state2 ->
    (forall net1 net2,
       DeepConvQNetwork.__init__ rng1 cuda1 idim1 n1 = Ok net1 ->
       DeepConvQNetwork.__init__ rng2 cuda2 idim2 n2 = Ok net2 ->
       DeepConvQNetwork.parameters net1 = DeepConvQNetwork.parameters net2 ->
       DeepConvQNetwork.forward net1 state1 =
       DeepConvQNetwork.forward net2 state2) /\
    (forall net1 net2,
       DuelingDeepConvQNetwork.__init__ rng1 idim1 n1 = Ok net1 ->
       DuelingDeepConvQNetwork.__init__ rng2 idim2 n2 = Ok net2 ->
       DuelingDeepConvQNetwork.parameters net1 =
       DuelingDeepConvQNetwork.parameters net2 ->
       DuelingDeepConvQNetwork.forward net1 state1 =
       DuelingDeepConvQNetwork.forward net2 state2).
Proof.
  intros R SR rng1 rng2 cuda1 cuda2 idim1 idim2 n1 n2 state1 state2 <-.
  split.
  - intros net1 net2 H1 H2 Hp.
    apply q_init_inv in H1. apply q_init_inv in H2.
    destruct H1 as (c1 & h1 & w1 & _ & _ & _ & _ & _ & ->).
    destruct H2 as (c2 & h2 & w2 & _ & _ & _ & _ & _ & ->).
    now apply q_forward_same_parameters.
  - intros net1 net2 H1 H2 Hp.
    apply dueling_init_inv in H1. apply dueling_init_inv in H2.
    destruct H1 as (c1 & h1 & w1 & _ & _ & _ & _ & _ & ->).
    destruct H2 as (c2 & h2 & w2 & _ & _ & _ & _ & _ & ->).
    now apply dueling_forward_same_parameters.
Qed.

Lemma forward_is_deterministic_witness :
  DeepConvQNetwork.forward (q_network rng0 false 1 36 36 2) (blank 1 1 36 36) =
  DeepConvQNetwork.forward (q_network rng0 true 1 37 36 2) (blank 1 1 36 36) /\
  DuelingDeepConvQNetwork.forward (dueling_network rng0 1 36 36 2)
    (blank 1 1 36 36) =
  DuelingDeepConvQNetwork.forward (dueling_network rng0 1 37 36 2)
    (blank 1 1 36 36).
Proof.
  pose proof (forward_is_deterministic Qc Qc_Scalar rng0 rng0 false true
                [1; 36; 36] [1; 37; 36] 2 2
                (blank 1 1 36 36) (blank 1 1 36 36) eq_refl) as [Hq Hd].
  split.
  - apply Hq; reflexivity.
  - apply Hd; reflexivity.
Defined.

(** * Further properties of the two networks *)

(** X1.  The three stages together act as one window of 36 with stride 8:
    they leave [floor((d - 28) / 8)] of an extent [d], so a constructed
    network has [fc_input_dim = 64 * floor((h - 28) / 8) *
    floor((w - 28) / 8)], and its trunk maps a batch of shape
    [(b, c, h, w)] to shape [(b, 64, floor((h - 28) / 8),
    floor((w - 28) / 8))]. *)
Theorem trunk_is_a_window_of_36_with_stride_8 :
  forall (R : Type) (SR : Scalar R) (rng : nat -> nat -> R)
         (cuda_available : bool) (c h w n b : Z) (state : Tensor R),
    shape state = [b; c; h; w] ->
    (forall net,
       DeepConvQNetwork.__init__ rng cuda_available [c; h; w] n = Ok net ->
       DeepConvQNetwork.fc_input_dim net =
         64 * ((h - 28) / 8) * ((w - 28) / 8) /\
       exists y,
         call (DeepConvQNetwork.conv net) state = Ok y /\
         shape y = [b; 64; (h - 28) / 8; (w - 28) / 8]) /\
    (forall net,
       DuelingDeepConvQNetwork.__init__ rng [c; h; w] n = Ok net ->
       DuelingDeepConvQNetwork.fc_input_dim net =
         64 * ((h - 28) / 8) * ((w - 28) / 8) /\
       exists y,
         call (DuelingDeepConvQNetwork.conv net) state = Ok y /\
         shape y = [b; 64; (h - 28) / 8; (w - 28) / 8]).
Proof.
  intros R SR rng cuda_available c h w n b state Hs.
  assert (Hout : forall d, trunk_out d = (d - 28) / 8).
  { intros d. unfold trunk_out, conv_out. Z.div_mod_to_equations. lia. }
  split.
  - intros net Hnet. apply q_init_inv in Hnet.
    destruct Hnet as (c' & h' & w' & [= <- <- <-] & Hc & Hh & Hw & Hn & ->).
    cbn [q_network DeepConvQNetwork.fc_input_dim DeepConvQNetwork.conv].
    split.
    + rewrite feature_width_eq, !Hout. ring.
    + destruct (trunk_call_ok rng b c h w state Hc Hh Hw Hs) as (y & Hy & Hsy).
      exists y. split; [exact Hy|]. now rewrite Hsy, !Hout.
  - intros net Hnet. apply dueling_init_inv in Hnet.
    destruct Hnet as (c' & h' & w' & [= <- <- <-] & Hc & Hh & Hw & Hn & ->).
    cbn [dueling_network DuelingDeepConvQNetwork.fc_input_dim
         DuelingDeepConvQNetwork.conv].
    split.
    + rewrite feature_width_eq, !Hout. ring.
    + destruct (trunk_call_ok rng b c h w state Hc Hh Hw Hs) as (y & Hy & Hsy).
      exists y. split; [exact Hy|]. now rewrite Hsy, !Hout.
Qed.

Lemma trunk_is_a_window_of_36_with_stride_8_witness :
  DeepConvQNetwork.fc_input_dim (q_network rng0 false 4 84 84 6) =
    64 * ((84 - 28) / 8) * ((84 - 28) / 8) /\
  exists y,
    call (DeepConvQNetwork.conv (q_network rng0 false 4 84 84 6))
         (blank 2 4 84 84) = Ok y /\
    shape y = [2; 64; (84 - 28) / 8; (84 - 28) / 8].
Proof.
  exact (proj1 (trunk_is_a_window_of_36_with_stride_8 Qc Qc_Scalar rng0 false
                  4 84 84 6 2 (blank 2 4 84 84) eq_refl) _ eq_refl).
Defined.

(** X2.  [forward] of either network raises on a batch of at least one
    sample whose shape does not fit, and the layer that finds the fault
    decides the error: another channel count than [input_dim[0]] is a
    channel mismatch in the first convolution; with the right channel count,
    a height or width below 36 is a kernel larger than its input; with at
    least 36 rows and columns, a feature width other than [fc_input_dim] is
    a matrix-shape mismatch in the first fully-connected layer. *)
Theorem forward_shape_errors :
  forall (R : Type) (SR : Scalar R) (rng : nat -> nat -> R)
         (cuda_available : bool) (idim : list Z) (n b c' h' w' : Z)
         (state : Tensor R),
    1 <= b ->
    shape state = [b; c'; h'; w'] ->
    (forall net,
       DeepConvQNetwork.__init__ rng cuda_available idim n = Ok net ->
       (Some c' <> nth_error idim 0 ->
        DeepConvQNetwork.forward net state =
          Err (RuntimeError ChannelMismatch)) /\
       (Some c' = nth_error idim 0 -> h' < 36 \/ w' < 36 ->
        DeepConvQNetwork.forward net state =
          Err (RuntimeError KernelTooLarge)) /\
       (Some c' = nth_error idim 0 -> 36 <= h' -> 36 <= w' ->
        feature_width h' w' <> DeepConvQNetwork.fc_input_dim net ->
        DeepConvQNetwork.forward net state =
          Err (RuntimeError MatMulMismatch))) /\
    (forall net,
       DuelingDeepConvQNetwork.__init__ rng idim n = Ok net ->
       (Some c' <> nth_error idim 0 ->
        DuelingDeepConvQNetwork.forward net state =
          Err (RuntimeError ChannelMismatch)) /\
       (Some c' = nth_error idim 0 -> h' < 36 \/ w' < 36 ->
        DuelingDeepConvQNetwork.forward net state =
          Err (RuntimeError KernelTooLarge)) /\
       (Some c' = nth_error idim 0 -> 36 <= h' -> 36 <= w' ->
        feature_width h' w' <> DuelingDeepConvQNetwork.fc_input_dim net ->
        DuelingDeepConvQNetwork.forward net state =
          Err (RuntimeError MatMulMismatch))).
Proof.
  intros R SR rng cuda_available idim n b c' h' w' state Hb Hs. split.
  - intros net Hnet. apply q_init_inv in Hnet.
    destruct Hnet as (c & h & w & -> & Hc & Hh & Hw & Hn & ->).
    cbn [nth_error q_network DeepConvQNetwork.fc_input_dim].
    destruct (q_forward_cases rng cuda_available b c h w n c' h' w' state
                Hb Hc Hs) as (H1 & H2 & H3 & _).
    split; [|split].
    + intros Hne. apply H1. congruence.
    + intros [= ->]. now apply H2.
    + intros [= ->]. now apply H3.
  - intros net Hnet. apply dueling_init_inv in Hnet.
    destruct Hnet as (c & h & w & -> & Hc & Hh & Hw & Hn & ->).
    cbn [nth_error dueling_network DuelingDeepConvQNetwork.fc_input_dim].
    destruct (dueling_forward_cases rng b c h w n c' h' w' state
                Hb Hc Hn Hs) as (H1 & H2 & H3 & _).
    split; [|split].
    + intros Hne. apply H1. congruence.
    + intros [= ->]. now apply H2.
    + intros [= ->]. now apply H3.
Qed.

Lemma forward_shape_errors_witness :
  DeepConvQNetwork.forward (q_network rng0 false 4 84 84 6) (blank 1 3 84 84) =
    Err (RuntimeError ChannelMismatch) /\
  DeepConvQNetwork.forward (q_network rng0 false 4 84 84 6) (blank 1 4 84 30) =
    Err (RuntimeError KernelTooLarge) /\
  DeepConvQNetwork.forward (q_network rng0 false 4 84 84 6) (blank 1 4 84 100) =
    Err (RuntimeError MatMulMismatch).
Proof.
  split; [|split].
  - apply (proj1 (forward_shape_errors Qc Qc_Scalar rng0 false [4; 84; 84] 6
                    1 3 84 84 (blank 1 3 84 84) ltac:(lia) eq_refl)
             _ eq_refl).
    cbn [nth_error]. discriminate.
  - apply (proj1 (forward_shape_errors Qc Qc_Scalar rng0 false [4; 84; 84] 6
                    1 4 84 30 (blank 1 4 84 30) ltac:(lia) eq_refl)
             _ eq_refl).
    + reflexivity.
    + right. lia.
  - apply (proj1 (forward_shape_errors Qc Qc_Scalar rng0 false [4; 84; 84] 6
                    1 4 84 100 (blank 1 4 84 100) ltac:(lia) eq_refl)
             _ eq_refl).
    + reflexivity.
    + lia.
    + lia.
    + cbn [q_network DeepConvQNetwork.fc_input_dim]. discriminate.
Defined.

(** X3.  [forward] of either network returns a result on a batch of at
    least one sample exactly when the batch has [input_dim[0]] channels, at
    least 36 rows and columns, and leaves the trunk with [fc_input_dim]
    features; height and width need not be those of [input_dim].  The
    result then has shape [(b, output_dim)]. *)
Theorem forward_accepts_equal_feature_width :
  forall (R : Type) (SR : Scalar R) (rng : nat -> nat -> R)
         (cuda_available : bool) (c h w n b c' h' w' : Z) (state : Tensor R),
    1 <= b ->
    shape state = [b; c'; h'; w'] ->
    (forall net,
       DeepConvQNetwork.__init__ rng cuda_available [c; h; w] n = Ok net ->
       ((exists q, DeepConvQNetwork.forward net state = Ok q) <->
        (c' = c /\ 36 <= h' /\ 36 <= w' /\
         feature_width h' w' = DeepConvQNetwork.fc_input_dim net)) /\
       (forall q, DeepConvQNetwork.forward net state = Ok q ->
                  shape q = [b; n])) /\
    (forall net,
       DuelingDeepConvQNetwork.__init__ rng [c; h; w] n = Ok net ->
       ((exists q, DuelingDeepConvQNetwork.forward net state = Ok q) <->
        (c' = c /\ 36 <= h' /\ 36 <= w' /\
         feature_width h' w' = DuelingDeepConvQNetwork.fc_input_dim net)) /\
       (forall q, DuelingDeepConvQNetwork.forward net state = Ok q ->
                  shape q = [b; n])).
Proof.
  intros R SR rng cuda_available c h w n b c' h' w' state Hb Hs.
  assert (Hcases : forall r : result (Tensor R),
    (c' <> c -> r = Err (RuntimeError ChannelMismatch)) /\
    (c' = c -> h' < 36 \/ w' < 36 -> r = Err (RuntimeError KernelTooLarge)) /\
    (c' = c -> 36 <= h' -> 36 <= w' ->
     feature_width h' w' <> feature_width h w ->
     r = Err (RuntimeError MatMulMismatch)) /\
    (c' = c -> 36 <= h' -> 36 <= w' ->
     feature_width h' w' = feature_width h w ->
     exists q, r = Ok q /\ shape q = [b; n]) ->
    ((exists q, r = Ok q) <->
     (c' = c /\ 36 <= h' /\ 36 <= w' /\
      feature_width h' w' = feature_width h w)) /\
    (forall q, r = Ok q -> shape q = [b; n])).
  { intros r (H1 & H2 & H3 & H4).
    destruct (Z.eq_dec c' c) as [Ec|Ec];
      [|rewrite (H1 Ec); split;
        [split; [intros (q & Hq); discriminate | tauto]
        |intros q Hq; discriminate]].
    destruct (Z_lt_dec h' 36) as [Hh|Hh];
      [rewrite (H2 Ec (or_introl Hh)); split;
        [split; [intros (q & Hq); discriminate | lia]
        |intros q Hq; discriminate]|].
    destruct (Z_lt_dec w' 36) as [Hw|Hw];
      [rewrite (H2 Ec (or_intror Hw)); split;
        [split; [intros (q & Hq); discriminate | lia]
        |intros q Hq; discriminate]|].
    destruct (Z.eq_dec (feature_width h' w') (feature_width h w)) as [Ef|Ef];
      [|rewrite (H3 Ec ltac:(lia) ltac:(lia) Ef); split;
        [split; [intros (q & Hq); discriminate | tauto]
        |intros q Hq; discriminate]].
    destruct (H4 Ec ltac:(lia) ltac:(lia) Ef) as (q & Hq & Hsq).
    rewrite Hq. split.
    - split; [intros _; repeat split; (assumption || lia) | eauto].
    - intros q' [= <-]. exact Hsq. }
  split.
  - intros net Hnet. apply q_init_inv in Hnet.
    destruct Hnet as (c0 & h0 & w0 & [= <- <- <-] & Hc & Hh & Hw & Hn & ->).
    cbn [q_network DeepConvQNetwork.fc_input_dim].
    apply Hcases. now apply q_forward_cases.
  - intros net Hnet. apply dueling_init_inv in Hnet.
    destruct Hnet as (c0 & h0 & w0 & [= <- <- <-] & Hc & Hh & Hw & Hn & ->).
    cbn [dueling_network DuelingDeepConvQNetwork.fc_input_dim].
    apply Hcases. now apply dueling_forward_cases.
Qed.

Lemma forward_accepts_equal_feature_width_witness :
  exists q,
    DeepConvQNetwork.forward (q_network rng0 false 4 84 84 6)
      (blank 2 4 85 91) = Ok q.
Proof.
  apply (proj1 (forward_accepts_equal_feature_width Qc Qc_Scalar rng0 false
                  4 84 84 6 2 4 85 91 (blank 2 4 85 91) ltac:(lia) eq_refl)
           _ eq_refl).
  cbn [q_network DeepConvQNetwork.fc_input_dim].
  repeat split; try lia.
Defined.

(** X4.  A single state of the configured shape [(c, h, w)] passed without
    the batch dimension makes [forward] of either network raise: the trunk
    takes it for one unbatched sample and returns [(64, h', w')], whose 64
    channels are then read as 64 rows of [h' * w'] features, fewer than the
    first fully-connected layer expects. *)
Theorem unbatched_state_is_rejected :
  forall (R : Type) (SR : Scalar R) (rng : nat -> nat -> R)
         (cuda_available : bool) (c h w n : Z) (state : Tensor R),
    shape state = [c; h; w] ->
    (forall net,
       DeepConvQNetwork.__init__ rng cuda_available [c; h; w] n = Ok net ->
       DeepConvQNetwork.forward net state =
         Err (RuntimeError MatMulMismatch)) /\
    (forall net,
       DuelingDeepConvQNetwork.__init__ rng [c; h; w] n = Ok net ->
       DuelingDeepConvQNetwork.forward net state =
         Err (RuntimeError MatMulMismatch)).
Proof.
  intros R SR rng cuda_available c h w n state Hs. split.
  - intros net Hnet. apply q_init_inv in Hnet.
    destruct Hnet as (c' & h' & w' & [= <- <- <-] & Hc & Hh & Hw & Hn & ->).
    now apply q_forward_unbatched.
  - intros net Hnet. apply dueling_init_inv in Hnet.
    destruct Hnet as (c' & h' & w' & [= <- <- <-] & Hc & Hh & Hw & Hn & ->).
    now apply dueling_forward_unbatched.
Qed.

Lemma unbatched_state_is_rejected_witness :
  DeepConvQNetwork.forward (q_network rng0 false 4 84 84 6)
    {| shape := [4; 84; 84]; data := [] |} =
    Err (RuntimeError MatMulMismatch) /\
  DuelingDeepConvQNetwork.forward (dueling_network rng0 4 84 84 6)
    {| shape := [4; 84; 84]; data := [] |} =
    Err (RuntimeError MatMulMismatch).
Proof.
  pose proof (unbatched_state_is_rejected Qc Qc_Scalar rng0 false 4 84 84 6
                {| shape := [4; 84; 84]; data := [] |} eq_refl) as [Hq Hd].
  split.
  - apply Hq. reflexivity.
  - apply Hd. reflexivity.
Defined.

(** X5.  On a batch without samples, of shape [(0, c, h, w)], [forward] of
    the standard network returns a tensor of shape [(0, n)], while
    [forward] of the dueling network raises: its [view] cannot infer the
    [-1] of [(0, -1)]. *)
Theorem empty_batch_divides_the_networks :
  forall (R : Type) (SR : Scalar R) (rng : nat -> nat -> R)
         (cuda_available : bool) (c h w n : Z) (state : Tensor R),
    shape state = [0; c; h; w] ->
    (forall net,
       DeepConvQNetwork.__init__ rng cuda_available [c; h; w] n = Ok net ->
       exists q,
         DeepConvQNetwork.forward net state = Ok q /\ shape q = [0; n]) /\
    (forall net,
       DuelingDeepConvQNetwork.__init__ rng [c; h; w] n = Ok net ->
       DuelingDeepConvQNetwork.forward net state =
         Err (RuntimeError InvalidView)).
Proof.
  intros R SR rng cuda_available c h w n state Hs. split.
  - intros net Hnet. apply q_init_inv in Hnet.
    destruct Hnet as (c' & h' & w' & [= <- <- <-] & Hc & Hh & Hw & Hn & ->).
    exact (proj1 (empty_batch rng cuda_available c h w n state Hc Hh Hw Hs)).
  - intros net Hnet. apply dueling_init_inv in Hnet.
    destruct Hnet as (c' & h' & w' & [= <- <- <-] & Hc & Hh & Hw & Hn & ->).
    exact (proj2 (empty_batch rng false c h w n state Hc Hh Hw Hs)).
Qed.

Lemma empty_batch_divides_the_networks_witness :
  (exists q,
     DeepConvQNetwork.forward (q_network rng0 false 4 84 84 6)
       (blank 0 4 84 84) = Ok q /\ shape q = [0; 6]) /\
  DuelingDeepConvQNetwork.forward (dueling_network rng0 4 84 84 6)
    (blank 0 4 84 84) = Err (RuntimeError InvalidView).
Proof.
  pose proof (empty_batch_divides_the_networks Qc Qc_Scalar rng0 false
                4 84 84 6 (blank 0 4 84 84) eq_refl) as [Hq Hd].
  split.
  - apply Hq. reflexivity.
  - apply Hd. reflexivity.
Defined.

(** X6.  On every 4-dimensional tensor with at least one sample, the
    flattening the dueling [forward] writes out,
    [features.view(features.size(0), -1)], returns the tensor that the
    [nn.Flatten] child of the standard network returns. *)
Theorem view_by_rows_is_flatten :
  forall (R : Type) (SR : Scalar R) (y : Tensor R) (b c h w : Z),
    1 <= b ->
    shape y = [b; c; h; w] ->
    (n0 <- size y 0 ;; view y [n0; -1]) = call Flatten y /\
    call Flatten y =
      Ok {| shape := [b; c * (h * w)]; data := data y |}.
Proof.
  intros R SR y b c h w Hb Hs. split.
  - now apply (view_rows_is_flatten y b c h w).
  - cbn [call]. unfold flatten, flatten_shape. rewrite Hs. cbn [bind].
    do 3 f_equal. cbn [numel fold_right]. f_equal. ring.
Qed.

Lemma view_by_rows_is_flatten_witness :
  (n0 <- size (blank 2 3 4 5) 0 ;; view (blank 2 3 4 5) [n0; -1]) =
  call Flatten (blank 2 3 4 5).
Proof.
  exact (proj1 (view_by_rows_is_flatten Qc Qc_Scalar (blank 2 3 4 5)
                  2 3 4 5 ltac:(lia) eq_refl)).
Defined.

(** X7.  The two constructors agree on every [input_dim] and [output_dim]:
    either both raise, and then the same error, or both return an instance,
    and then the two instances hold the same convolutional stack (drawn
    from the same initial values) and the same [fc_input_dim]. *)
Theorem constructors_agree :
  forall (R : Type) (SR : Scalar R) (rng : nat -> nat -> R)
         (cuda_available : bool) (idim : list Z) (n : Z),
    rmap (fun q => (DeepConvQNetwork.input_dim q,
                    DeepConvQNetwork.output_dim q,
                    DeepConvQNetwork.conv q,
                    DeepConvQNetwork.fc_input_dim q))
         (DeepConvQNetwork.__init__ rng cuda_available idim n) =
    rmap (fun d => (DuelingDeepConvQNetwork.input_dim d,
                    DuelingDeepConvQNetwork.output_dim d,
                    DuelingDeepConvQNetwork.conv d,
                    DuelingDeepConvQNetwork.fc_input_dim d))
         (DuelingDeepConvQNetwork.__init__ rng idim n).
Proof.
  intros R SR rng cuda_available idim n.
  rewrite q_init_shared, dueling_init_shared.
  destruct (shared_steps rng idim) as [[conv fc]|e]; [|reflexivity].
  cbn [bind fst snd]. rewrite !nn_Linear_eq.
  replace (512 <? 0) with false by lia.
  replace (128 <? 0) with false by lia.
  replace (1 <? 0) with false by lia.
  cbn [orb]. rewrite !orb_false_r.
  destruct (fc <? 0); [reflexivity|]. cbn [bind].
  destruct (n <? 0); reflexivity.
Qed.

(** X8.  The parameters of a constructed instance, in registration order,
    have these shapes: the three convolutions with their biases, then for
    the standard network a layer of [fc_input_dim] to 512 and one of 512 to
    [output_dim]; for the dueling network a value stream of [fc_input_dim]
    to 128 to 1 and an advantage stream of [fc_input_dim] to 128 to
    [output_dim].  Each tensor holds as many entries as its shape says. *)
Theorem parameter_shapes :
  forall (R : Type) (SR : Scalar R) (rng : nat -> nat -> R)
         (cuda_available : bool) (c h w n : Z),
    (forall net,
       DeepConvQNetwork.__init__ rng cuda_available [c; h; w] n = Ok net ->
       map (@shape R) (DeepConvQNetwork.parameters net) =
         [[32; c; 8; 8]; [32]; [64; 32; 4; 4]; [64]; [64; 64; 3; 3]; [64];
          [512; DeepConvQNetwork.fc_input_dim net]; [512]; [n; 512]; [n]] /\
       Forall (fun p => Z.of_nat (length (data p)) = numel (shape p))
              (DeepConvQNetwork.parameters net)) /\
    (forall net,
       DuelingDeepConvQNetwork.__init__ rng [c; h; w] n = Ok net ->
       map (@shape R) (DuelingDeepConvQNetwork.parameters net) =
         [[32; c; 8; 8]; [32]; [64; 32; 4; 4]; [64]; [64; 64; 3; 3]; [64];
          [128; DuelingDeepConvQNetwork.fc_input_dim net]; [128];
          [1; 128]; [1];
          [128; DuelingDeepConvQNetwork.fc_input_dim net]; [128];
          [n; 128]; [n]] /\
       Forall (fun p => Z.of_nat (length (data p)) = numel (shape p))
              (DuelingDeepConvQNetwork.parameters net)).
Proof.
  intros R SR rng cuda_available c h w n.
  assert (Hwf : forall (g : nat -> R) s, Forall (fun d => 0 <= d) s ->
            Z.of_nat (length (data (parameter_of g s))) =
            numel (shape (parameter_of g s))).
  { intros g s Hs. unfold parameter_of. cbn [data shape].
    rewrite length_map, length_seq.
    assert (0 <= numel s); [|lia].
    induction Hs as [|d s Hd _ IH]; cbn [numel fold_right]; [lia|].
    unfold numel in IH. nia. }
  split.
  - intros net Hnet. apply q_init_inv in Hnet.
    destruct Hnet as (c' & h' & w' & [= <- <- <-] & Hc & Hh & Hw & Hn & ->).
    pose proof (feature_width_pos h w Hh Hw) as Hf.
    split; [reflexivity|].
    unfold DeepConvQNetwork.parameters, DeepConvQNetwork.network.
    cbn [q_network DeepConvQNetwork.conv DeepConvQNetwork.network_tail].
    unfold trunk, conv_layer, linear_layer.
    cbn [parameters conv_weight conv_bias lin_weight lin_bias opt_list app].
    repeat (apply Forall_cons; [apply Hwf; repeat constructor; lia|]).
    constructor.
  - intros net Hnet. apply dueling_init_inv in Hnet.
    destruct Hnet as (c' & h' & w' & [= <- <- <-] & Hc & Hh & Hw & Hn & ->).
    pose proof (feature_width_pos h w Hh Hw) as Hf.
    split; [reflexivity|].
    unfold DuelingDeepConvQNetwork.parameters.
    cbn [dueling_network DuelingDeepConvQNetwork.conv
         DuelingDeepConvQNetwork.value_stream
         DuelingDeepConvQNetwork.advantage_stream].
    unfold trunk, conv_layer, linear_layer.
    cbn [parameters conv_weight conv_bias lin_weight lin_bias opt_list app].
    repeat (apply Forall_cons; [apply Hwf; repeat constructor; lia|]).
    constructor.
Qed.

Lemma parameter_shapes_witness :
  map (@shape Qc)
      (DeepConvQNetwork.parameters (q_network rng0 false 4 84 84 6)) =
    [[32; 4; 8; 8]; [32]; [64; 32; 4; 4]; [64]; [64; 64; 3; 3]; [64];
     [512; DeepConvQNetwork.fc_input_dim (q_network rng0 false 4 84 84 6)];
     [512]; [6; 512]; [6]].
Proof.
  exact (proj1 (proj1 (parameter_shapes Qc Qc_Scalar rng0 false 4 84 84 6)
                  _ eq_refl)).
Defined.

(** X9.  In exact arithmetic the subtracted mean cancels between two
    actions of the same sample: in the result of the dueling [forward],
    entry [(i, j)] minus entry [(i, j')] is the advantage [(i, j)] minus
    the advantage [(i, j')], whatever the other samples of the batch are. *)
Theorem dueling_keeps_the_gaps_between_actions :
  forall (R : Type) (SR : Scalar R) (ER : ExactScalar R)
         (rng : nat -> nat -> R) (c h w n b : Z) (state : Tensor R)
         (net : DuelingDeepConvQNetwork.t),
    1 <= b ->
    shape state = [b; c; h; w] ->
    DuelingDeepConvQNetwork.__init__ rng [c; h; w] n = Ok net ->
    exists feats A Q,
      (y <- call (DuelingDeepConvQNetwork.conv net) state ;; view y [b; -1])
        = Ok feats /\
      call (DuelingDeepConvQNetwork.advantage_stream net) feats = Ok A /\
      shape A = [b; n] /\
      DuelingDeepConvQNetwork.forward net state = Ok Q /\
      forall i j j', 0 <= i < b -> 0 <= j < n -> 0 <= j' < n ->
        s_sub (at_ (data Q) (i * n + j)) (at_ (data Q) (i * n + j')) =
        s_sub (at_ (data A) (i * n + j)) (at_ (data A) (i * n + j')).
Proof.
  intros R SR ER rng c h w n b state net Hb Hs Hnet.
  apply dueling_init_inv in Hnet.
  destruct Hnet as (c' & h' & w' & [= <- <- <-] & Hc & Hh & Hw & Hn & ->).
  destruct (dueling_forward_parts rng b c h w n state Hc Hh Hw Hn Hb Hs)
    as (feats & V & A & Q & H1 & H2 & H3 & H4 & H5 & H6 & H7 & H8).
  exists feats, A, Q. repeat (split; [assumption|]).
  intros i j j' Hi Hj Hj'. rewrite H8. now apply dueling_data_gap.
Qed.

Lemma dueling_keeps_the_gaps_between_actions_witness :
  exists feats A Q,
    (y <- call (DuelingDeepConvQNetwork.conv (dueling_network rng0 1 36 36 3))
            (blank 2 1 36 36) ;;
     view y [2; -1]) = Ok feats /\
    call (DuelingDeepConvQNetwork.advantage_stream
            (dueling_network rng0 1 36 36 3)) feats = Ok A /\
    shape A = [2; 3] /\
    DuelingDeepConvQNetwork.forward (dueling_network rng0 1 36 36 3)
      (blank 2 1 36 36) = Ok Q /\
    forall i j j', 0 <= i < 2 -> 0 <= j < 3 -> 0 <= j' < 3 ->
      s_sub (at_ (data Q) (i * 3 + j)) (at_ (data Q) (i * 3 + j')) =
      s_sub (at_ (data A) (i * 3 + j)) (at_ (data A) (i * 3 + j')).
Proof.
  exact (dueling_keeps_the_gaps_between_actions Qc Qc_Scalar Qc_ExactScalar
           rng0 1 36 36 3 2 (blank 2 1 36 36)
           (dueling_network rng0 1 36 36 3) ltac:(lia) eq_refl eq_refl).
Defined.

(** X10.  In exact arithmetic the biases of the last advantage layer have a
    direction that [forward] does not see: two dueling instances whose
    parameters agree except that every bias of that layer is larger by the
    same constant [k] in one of them return the same result on every batch
    of at least one sample. *)
Theorem dueling_ignores_a_common_advantage_bias :
  forall (R : Type) (SR : Scalar R) (ER : ExactScalar R)
         (rng rng' : nat -> nat -> R) (k : R)
         (c h w n b : Z) (state : Tensor R)
         (net net' : DuelingDeepConvQNetwork.t),
    1 <= b ->
    shape state = [b; c; h; w] ->
    (forall j i, j <> 13%nat -> rng' j i = rng j i) ->
    (forall i, rng' 13%nat i = s_add (rng 13%nat i) k) ->
    DuelingDeepConvQNetwork.__init__ rng [c; h; w] n = Ok net ->
    DuelingDeepConvQNetwork.__init__ rng' [c; h; w] n = Ok net' ->
    DuelingDeepConvQNetwork.forward net' state =
    DuelingDeepConvQNetwork.forward net state.
Proof.
  intros R SR ER rng rng' k c h w n b state net net' Hb Hs Hsame Hshift
         Hnet Hnet'.
  apply dueling_init_inv in Hnet. apply dueling_init_inv in Hnet'.
  destruct Hnet as (c1 & h1 & w1 & [= <- <- <-] & Hc & Hh & Hw & Hn & ->).
  destruct Hnet' as (c2 & h2 & w2 & [= <- <- <-] & _ & _ & _ & _ & ->).
  now apply (dueling_forward_bias_shift rng rng' b c h w n k).
Qed.

Lemma dueling_ignores_a_common_advantage_bias_witness :
  DuelingDeepConvQNetwork.forward (dueling_network rng_bias_one 1 36 36 3)
    (blank 2 1 36 36) =
  DuelingDeepConvQNetwork.forward (dueling_network rng0 1 36 36 3)
    (blank 2 1 36 36).
Proof.
  apply (dueling_ignores_a_common_advantage_bias Qc Qc_Scalar Qc_ExactScalar
           rng0 rng_bias_one 1%Qc 1 36 36 3 2 (blank 2 1 36 36)).
  - lia.
  - reflexivity.
  - intros j i Hj. unfold rng_bias_one, rng0.
    destruct (Nat.eqb_spec j 13); [contradiction | reflexivity].
  - intros i. reflexivity.
  - reflexivity.
  - reflexivity.
Defined.

(** X11.  In exact arithmetic the standard network treats the samples of a
    batch one by one: on a batch of samples of the configured shape, every
    row [i] of the result of [forward] is the row that [forward] returns
    for sample [i] alone, whatever the other samples are. *)
Theorem standard_rows_depend_on_their_sample_only :
  forall (R : Type) (SR : Scalar R) (ER : ExactScalar R)
         (rng : nat -> nat -> R)
         (cuda_available : bool) (c h w n : Z) (xs : list (list R))
         (net : DeepConvQNetwork.t),
    Forall (fun d => Z.of_nat (length d) = c * (h * w)) xs ->
    DeepConvQNetwork.__init__ rng cuda_available [c; h; w] n = Ok net ->
    exists qK,
      DeepConvQNetwork.forward net (stack [c; h; w] xs) = Ok qK /\
      shape qK = [Z.of_nat (length xs); n] /\
      forall i d, nth_error xs i = Some d ->
        exists q1,
          DeepConvQNetwork.forward net (stack [c; h; w] [d]) = Ok q1 /\
          shape q1 = [1; n] /\
          slice (data qK) (Z.of_nat i * n) n = data q1.
Proof.
  intros R SR ER rng cuda_available c h w n xs net Hall Hnet.
  apply q_init_inv in Hnet.
  destruct Hnet as (c' & h' & w' & [= <- <- <-] & Hc & Hh & Hw & Hn & ->).
  eexists. split; [now apply q_forward_stack|].
  split; [unfold stack; cbn [shape]; now rewrite length_map|].
  intros i d Hi.
  assert (Hd : Z.of_nat (length d) = c * (h * w)).
  { rewrite Forall_forall in Hall. apply Hall. eapply nth_error_In, Hi. }
  eexists. split; [apply q_forward_stack; auto|]. split; [reflexivity|].
  unfold stack. cbn [data map concat]. rewrite app_nil_r.
  apply slice_concat_nth.
  - apply Forall_map, Forall_forall. intros d' _. now apply q_row_length.
  - now apply map_nth_error.
Qed.

Lemma standard_rows_depend_on_their_sample_only_witness :
  exists qK,
    DeepConvQNetwork.forward (q_network rng0 false 1 36 36 2)
      (stack [1; 36; 36]
             [repeat 0%Qc 1296; repeat 1%Qc 1296; repeat 0%Qc 1296]) = Ok qK /\
    shape qK = [3; 2] /\
    forall i d,
      nth_error [repeat 0%Qc 1296; repeat 1%Qc 1296; repeat 0%Qc 1296] i
        = Some d ->
      exists q1,
        DeepConvQNetwork.forward (q_network rng0 false 1 36 36 2)
          (stack [1; 36; 36] [d]) = Ok q1 /\
        shape q1 = [1; 2] /\
        slice (data qK) (Z.of_nat i * 2) 2 = data q1.
Proof.
  apply (standard_rows_depend_on_their_sample_only Qc Qc_Scalar
           Qc_ExactScalar rng0 false
           1 36 36 2
           [repeat 0%Qc 1296; repeat 1%Qc 1296; repeat 0%Qc 1296]).
  - repeat constructor; rewrite repeat_length; reflexivity.
  - reflexivity.
Defined.

(** X12.  In exact arithmetic the batch changes a row of the dueling result
    only by one constant added to all its entries: for sample [i] of a
    batch, with [q1] the result of [forward] on that sample alone, there is
    a [delta] with entry [(i, j)] of the batch result equal to
    [q1[j] + delta] for every action [j].  The gaps between the actions of
    a sample, and with them the greedy action, are those of the sample
    alone. *)
Theorem dueling_batch_shifts_a_row_by_a_constant :
  forall (R : Type) (SR : Scalar R) (ER : ExactScalar R)
         (rng : nat -> nat -> R) (c h w n : Z) (xs : list (list R))
         (net : DuelingDeepConvQNetwork.t) (i : nat) (d : list R),
    Forall (fun d => Z.of_nat (length d) = c * (h * w)) xs ->
    nth_error xs i = Some d ->
    DuelingDeepConvQNetwork.__init__ rng [c; h; w] n = Ok net ->
    exists qK q1 delta,
      DuelingDeepConvQNetwork.forward net (stack [c; h; w] xs) = Ok qK /\
      DuelingDeepConvQNetwork.forward net (stack [c; h; w] [d]) = Ok q1 /\
      shape qK = [Z.of_nat (length xs); n] /\
      shape q1 = [1; n] /\
      forall j, 0 <= j < n ->
        at_ (data qK) (Z.of_nat i * n + j) = s_add (at_ (data q1) j) delta.
Proof.
  intros R SR ER rng c h w n xs net i d Hall Hi Hnet.
  apply dueling_init_inv in Hnet.
  destruct Hnet as (c' & h' & w' & [= <- <- <-] & Hc & Hh & Hw & Hn & ->).
  now apply dueling_forward_stack_offset.
Qed.

Lemma dueling_batch_shifts_a_row_by_a_constant_witness :
  exists qK q1 delta,
    DuelingDeepConvQNetwork.forward (dueling_network rng0 1 36 36 2)
      (stack [1; 36; 36] [repeat 0%Qc 1296; repeat 1%Qc 1296]) = Ok qK /\
    DuelingDeepConvQNetwork.forward (dueling_network rng0 1 36 36 2)
      (stack [1; 36; 36] [repeat 1%Qc 1296]) = Ok q1 /\
    shape qK = [2; 2] /\
    shape q1 = [1; 2] /\
    forall j, 0 <= j < 2 ->
      at_ (data qK) (1 * 2 + j) = s_add (at_ (data q1) j) delta.
Proof.
  apply (dueling_batch_shifts_a_row_by_a_constant Qc Qc_Scalar Qc_ExactScalar
           rng0 1 36 36 2 [repeat 0%Qc 1296; repeat 1%Qc 1296]
           (dueling_network rng0 1 36 36 2) 1%nat (repeat 1%Qc 1296)).
  - repeat constructor; rewrite repeat_length; reflexivity.
  - reflexivity.
  - reflexivity.
Defined.
